(** * The correlation-context engine of prelude-correlator

    A shallow embedding of [preludecorrelator/context.py]: the polled
    [Timer], the time-windowed [Context] (a Python class deriving from both
    [IDMEF] and [Timer]), the registry [_CONTEXT_TABLE], the scheduler
    ([_TIMER_LIST], [_last_wakeup], [_next_wakeup], [wakeup]) and the name
    construction [getName].

    Python objects live in a heap indexed by object identity, so that the
    aliasing between the registry, the timer list and the callers is the
    one of the program.  Module globals are fields of [World].  A method is
    a function from a world to an outcome that carries the world it leaves
    behind, also when it raises.

    Time stamps are integers (seconds), as [calendar.timegm] returns them;
    [time.time()] reads the [clock] field of the world. [==] between
    objects and [list.remove] compare identities, and an [IDMEF] object is
    true in a condition, as for a class that defines neither [__eq__] nor
    [__bool__]. Debug logging ([logger.debug], [getStat]) and persistence
    ([save], [load]) are left out. *)

From Stdlib Require Import ZArith Lia Bool List Ascii String.
From stdpp Require Import gmap strings list fin_maps pretty.

Local Open Scope Z_scope.

(** ** Objects *)

Definition ObjId := nat.
Definition CbId := nat.
Definition Ref := string.

(** What Python code can raise here. [Dangling] stands for a heap lookup
    that finds nothing: a reference keeps its object alive in Python, so it
    never happens on worlds whose lists only name allocated objects. *)
Inductive Exn :=
| KeyError
| ValueError
| TypeError
| UserException (code : nat)
| Dangling.

(** The value of the [alert_on_expire] option: a boolean or a callable. *)
Inductive AlertOnExpire :=
| AoeFalse
| AoeTrue
| AoeCallable (cb : CbId).

Definition truthy_aoe (a : AlertOnExpire) : bool :=
  match a with AoeFalse => false | _ => true end.

(** [self._options], a dict with the three keys set by [__init__]. *)
Record Options := mkOptions {
  threshold : Z;
  expire : Z;
  alert_on_expire : AlertOnExpire
}.

(** The [options] argument of [Context(...)], [update] and [setOptions]:
    a dict in which each of the three keys may be absent. *)
Record OptionsArg := mkOptionsArg {
  arg_threshold : option Z;
  arg_expire : option Z;
  arg_alert_on_expire : option AlertOnExpire
}.

Definition no_options : OptionsArg := mkOptionsArg None None None.

(** [dict.update]: the keys present overwrite, the others stay. *)
Definition dict_update (o : Options) (a : OptionsArg) : Options :=
  {| threshold := default (threshold o) (arg_threshold a);
     expire := default (expire o) (arg_expire a);
     alert_on_expire := default (alert_on_expire o) (arg_alert_on_expire a) |}.

(** An incoming event: what the engine reads of an IDMEF message. *)
Record IDMEFMsg := mkMsg {
  msg_time : Z;
  msg_source : list Ref;
  msg_target : list Ref;
  msg_messageid : Ref
}.

(** The alert-accumulation record a Context inherits from [IDMEF]. *)
Record IDMEFRecord := mkRecord {
  alert_source : list Ref;
  alert_target : list Ref;
  alert_alertident : list Ref
}.

Definition empty_record : IDMEFRecord := mkRecord [] [] [].

(** The attributes [Timer.__init__] sets. *)
Record TimerAttrs := mkTimer {
  _timer_start : option Z;
  _timer_expire : Z;
  _timer_cb : option CbId
}.

(** The attributes [Context.__init__] adds. *)
Record ContextAttrs := mkContext {
  _name : string;
  _options : Options;
  _update_count : Z;
  _time_min : Z;
  _time_max : Z;
  idmef : IDMEFRecord
}.

Inductive Obj :=
| TimerObj (t : TimerAttrs)
| ContextObj (t : TimerAttrs) (c : ContextAttrs).

Definition timer_of (o : Obj) : TimerAttrs :=
  match o with TimerObj t => t | ContextObj t _ => t end.

Definition with_timer (o : Obj) (t : TimerAttrs) : Obj :=
  match o with TimerObj _ => TimerObj t | ContextObj _ c => ContextObj t c end.

Definition context_of (o : Obj) : option ContextAttrs :=
  match o with TimerObj _ => None | ContextObj _ c => Some c end.

(** ** The world *)

Inductive LogEntry :=
| LogException (e : Exn)
| LogCritical.

(** What leaves the engine: alerts handed to the alerting collaborator by
    [IDMEF.alert], calls of rule-supplied callbacks, log records. *)
Inductive Event :=
| EvAlert (ctx : ObjId) (r : IDMEFRecord)
| EvCall (cb : CbId) (self : ObjId)
| EvLog (l : LogEntry).

Record World := mkWorld {
  heap : gmap ObjId Obj;
  next_id : ObjId;
  _TIMER_LIST : list ObjId;
  _CONTEXT_TABLE : gmap string (list ObjId);
  _last_wakeup : Z;
  _next_wakeup : Z;
  clock : Z;
  trace : list Event
}.

Definition set_heap (h : gmap ObjId Obj) (w : World) : World :=
  mkWorld h (next_id w) (_TIMER_LIST w) (_CONTEXT_TABLE w)
          (_last_wakeup w) (_next_wakeup w) (clock w) (trace w).
Definition set_next_id (n : ObjId) (w : World) : World :=
  mkWorld (heap w) n (_TIMER_LIST w) (_CONTEXT_TABLE w)
          (_last_wakeup w) (_next_wakeup w) (clock w) (trace w).
Definition set_TIMER_LIST (l : list ObjId) (w : World) : World :=
  mkWorld (heap w) (next_id w) l (_CONTEXT_TABLE w)
          (_last_wakeup w) (_next_wakeup w) (clock w) (trace w).
Definition set_CONTEXT_TABLE (t : gmap string (list ObjId)) (w : World) : World :=
  mkWorld (heap w) (next_id w) (_TIMER_LIST w) t
          (_last_wakeup w) (_next_wakeup w) (clock w) (trace w).
Definition set_last_wakeup (z : Z) (w : World) : World :=
  mkWorld (heap w) (next_id w) (_TIMER_LIST w) (_CONTEXT_TABLE w)
          z (_next_wakeup w) (clock w) (trace w).
Definition set_next_wakeup (z : Z) (w : World) : World :=
  mkWorld (heap w) (next_id w) (_TIMER_LIST w) (_CONTEXT_TABLE w)
          (_last_wakeup w) z (clock w) (trace w).
Definition set_clock (z : Z) (w : World) : World :=
  mkWorld (heap w) (next_id w) (_TIMER_LIST w) (_CONTEXT_TABLE w)
          (_last_wakeup w) (_next_wakeup w) z (trace w).
Definition emit (e : Event) (w : World) : World :=
  mkWorld (heap w) (next_id w) (_TIMER_LIST w) (_CONTEXT_TABLE w)
          (_last_wakeup w) (_next_wakeup w) (clock w) (trace w ++ [e]).

(** ** Outcomes and sequencing *)

Inductive Outcome (A : Type) :=
| Ok (a : A) (w : World)
| Raise (e : Exn) (w : World)
| OutOfFuel.
Arguments Ok {A} a w.
Arguments Raise {A} e w.
Arguments OutOfFuel {A}.

Definition M (A : Type) := World -> Outcome A.

Definition ret {A} (a : A) : M A := fun w => Ok a w.
Definition raise {A} (e : Exn) : M A := fun w => Raise e w.
Definition bind {A B} (m : M A) (k : A -> M B) : M B :=
  fun w => match m w with
           | Ok a w' => k a w'
           | Raise e w' => Raise e w'
           | OutOfFuel => OutOfFuel
           end.

Notation "x <- m ;; k" := (bind m (fun x => k))
  (at level 100, m at next level, right associativity).
Notation "m ;;; k" := (bind m (fun _ => k))
  (at level 100, right associativity).

Definition get : M World := fun w => Ok w w.
Definition modify (f : World -> World) : M unit := fun w => Ok tt (f w).

(** [try: m  except Exception as e: h e] *)
Definition try_except {A} (m : M A) (h : Exn -> M A) : M A :=
  fun w => match m w with
           | Raise e w' => h e w'
           | r => r
           end.

(** Attribute access through a reference. *)
Definition get_obj (id : ObjId) : M Obj :=
  fun w => match heap w !! id with
           | Some o => Ok o w
           | None => Raise Dangling w
           end.

Definition put_obj (id : ObjId) (o : Obj) : M unit :=
  modify (fun w => set_heap (<[id := o]> (heap w)) w).

Definition get_timer (id : ObjId) : M TimerAttrs :=
  o <- get_obj id ;; ret (timer_of o).

Definition put_timer (id : ObjId) (t : TimerAttrs) : M unit :=
  o <- get_obj id ;; put_obj id (with_timer o t).

(** A Context attribute read on a plain Timer is an [AttributeError] in
    Python; no method below is reached with one, [TypeError] stands in. *)
Definition get_context (id : ObjId) : M ContextAttrs :=
  o <- get_obj id ;;
  match o with
  | ContextObj _ c => ret c
  | TimerObj _ => raise TypeError
  end.

Definition put_context (id : ObjId) (c : ContextAttrs) : M unit :=
  o <- get_obj id ;;
  match o with
  | ContextObj t _ => put_obj id (ContextObj t c)
  | TimerObj _ => raise TypeError
  end.

(** [time.time()] *)
Definition time_time : M Z := fun w => Ok (clock w) w.

(** Python truthiness of [None]-or-number: [None] and [0] are false. *)
Definition truthy (o : option Z) : bool :=
  match o with Some z => negb (z =? 0) | None => false end.

(** [if not now: now = time.time()] *)
Definition now_or_time (now : option Z) : M Z :=
  if truthy now then ret (default 0 now) else time_time.

(** ** Helpers missing from the sources: the [IDMEF] base class *)

(** Modelled from the spec: [IDMEF.addAlertReference], of
    [preludecorrelator/idmef.py], records the event into the
    alert-accumulation record: its sources, its targets and its message
    identifier are appended. *)
Definition addAlertReference_record (r : IDMEFRecord) (m : IDMEFMsg) : IDMEFRecord :=
  {| alert_source := alert_source r ++ msg_source m;
     alert_target := alert_target r ++ msg_target m;
     alert_alertident := alert_alertident r ++ [msg_messageid m] |}.

(** Modelled from the spec: [IDMEF.get(path)] and
    [IDMEF.set(path(>>), value)], of the [IDMEF] base class, which is not
    part of this module, on the three paths [merge] names: [get] reads the
    references held under the path, and [set] with [(>>)] appends the
    value to them (append, not replace). *)
Inductive Path :=
| alert_source_path
| alert_target_path
| alert_correlation_alert_alertident_path.

Definition IDMEF_get (p : Path) (r : IDMEFRecord) : list Ref :=
  match p with
  | alert_source_path => alert_source r
  | alert_target_path => alert_target r
  | alert_correlation_alert_alertident_path => alert_alertident r
  end.

Definition IDMEF_set_append (p : Path) (v : list Ref) (r : IDMEFRecord) : IDMEFRecord :=
  match p with
  | alert_source_path =>
      mkRecord (alert_source r ++ v) (alert_target r) (alert_alertident r)
  | alert_target_path =>
      mkRecord (alert_source r) (alert_target r ++ v) (alert_alertident r)
  | alert_correlation_alert_alertident_path =>
      mkRecord (alert_source r) (alert_target r) (alert_alertident r ++ v)
  end.

(** The number of events accumulated in a record: one identifier each. *)
Definition accumulated_events (r : IDMEFRecord) : Z :=
  Z.of_nat (length (alert_alertident r)).

(** Attribute setters of a Context. *)
Definition set_options (o : Options) (c : ContextAttrs) : ContextAttrs :=
  mkContext (_name c) o (_update_count c) (_time_min c) (_time_max c) (idmef c).
Definition set_update_count (n : Z) (c : ContextAttrs) : ContextAttrs :=
  mkContext (_name c) (_options c) n (_time_min c) (_time_max c) (idmef c).
Definition set_time_min (z : Z) (c : ContextAttrs) : ContextAttrs :=
  mkContext (_name c) (_options c) (_update_count c) z (_time_max c) (idmef c).
Definition set_time_max (z : Z) (c : ContextAttrs) : ContextAttrs :=
  mkContext (_name c) (_options c) (_update_count c) (_time_min c) z (idmef c).
Definition set_idmef (r : IDMEFRecord) (c : ContextAttrs) : ContextAttrs :=
  mkContext (_name c) (_options c) (_update_count c) (_time_min c) (_time_max c) r.

Definition _IDMEF_QUEUE_LIMIT : Z := 256.

(** [sys.maxsize] of a 64-bit CPython. *)
Definition sys_maxsize : Z := 9223372036854775807.

(** What a method can be handed as [idmef]: [None], an event, or (in
    [_mergeIntersect]) another Context. *)
Inductive Arg :=
| ArgNone
| ArgMsg (m : IDMEFMsg)
| ArgContext (id : ObjId).

Definition arg_of (idmef : option IDMEFMsg) : Arg :=
  match idmef with Some m => ArgMsg m | None => ArgNone end.

Definition msg_of (a : Arg) : option IDMEFMsg :=
  match a with ArgMsg m => Some m | _ => None end.

(** The decision of [Context._intersect] on the two windows (lines 211 to
    215): the union on success, [None] otherwise. *)
Definition intersect_windows (tmin tmax itmin itmax : Z) : option (Z * Z) :=
  if ((itmin <=? tmin) && ((tmax =? -1) || (itmax >=? tmin)))
     || ((itmin >=? tmin) && ((tmax =? -1) || (itmin <=? tmax)))
  then Some (Z.min itmin tmin, Z.max itmax tmax)
  else None.

(** [list.remove(x)]: the list without the first occurrence of [x], or
    [None] (a [ValueError]) when [x] does not occur. *)
Fixpoint list_remove (x : ObjId) (l : list ObjId) : option (list ObjId) :=
  match l with
  | [] => None
  | y :: l' =>
      if decide (y = x) then Some l'
      else match list_remove x l' with
           | Some r => Some (y :: r)
           | None => None
           end
  end.

Section Engine.

(** The bodies of the callbacks the rules supply ([cb_func] of a Timer, a
    callable [alert_on_expire]): any code, called with the object. *)
Variable call_cb : CbId -> ObjId -> M unit.

Definition invoke (cb : CbId) (self : ObjId) : M unit :=
  modify (emit (EvCall cb self)) ;;; call_cb cb self.

(** ** class Timer *)

(** [Timer(expire, cb_func)]: a fresh object, inert. *)
Definition Timer___init__ (expire : Z) (cb_func : option CbId) : M ObjId :=
  w <- get ;;
  let self := next_id w in
  modify (set_next_id (S self)) ;;;
  put_obj self (TimerObj (mkTimer None expire cb_func)) ;;;
  ret self.

Definition Timer_stop (self : ObjId) : M unit :=
  t <- get_timer self ;;
  put_timer self (mkTimer None (_timer_expire t) (_timer_cb t)).

Definition Timer_running (self : ObjId) : M bool :=
  t <- get_timer self ;;
  ret (match _timer_start t with Some _ => true | None => false end).

Definition Timer_setExpire (self : ObjId) (e : Z) : M unit :=
  t <- get_timer self ;;
  put_timer self (mkTimer (_timer_start t) e (_timer_cb t)).

Definition Timer_elapsed (self : ObjId) (now : option Z) : M Z :=
  now <- now_or_time now ;;
  t <- get_timer self ;;
  match _timer_start t with
  | Some s => ret (now - s)
  | None => raise TypeError
  end.

Definition Timer_hasExpired (self : ObjId) (now : option Z) : M bool :=
  now <- now_or_time now ;;
  e <- Timer_elapsed self (Some now) ;;
  t <- get_timer self ;;
  ret (e >=? _timer_expire t).

Definition Timer_start (self : ObjId) (reset : bool) : M unit :=
  t <- get_timer self ;;
  running <- Timer_running self ;;
  if (_timer_expire t =? 0) || (running && negb reset) then ret tt
  else
    (if negb reset
     then modify (fun w => set_TIMER_LIST (_TIMER_LIST w ++ [self]) w)
     else ret tt) ;;;
    now <- time_time ;;
    t <- get_timer self ;;
    put_timer self (mkTimer (Some now) (_timer_expire t) (_timer_cb t)) ;;;
    t <- get_timer self ;;
    modify (fun w => set_next_wakeup (Z.min (_next_wakeup w) (_timer_expire t)) w).

Definition Timer_reset (self : ObjId) : M unit := Timer_start self true.

(** [Timer._timerExpireCallback]: calling [self._timer_cb] when it is
    [None] is a [TypeError], caught like any other. *)
Definition Timer__timerExpireCallback (self : ObjId) : M unit :=
  Timer_stop self ;;;
  try_except
    (t <- get_timer self ;;
     match _timer_cb t with
     | Some cb => invoke cb self
     | None => raise TypeError
     end)
    (fun e => modify (emit (EvLog (LogException e)))).

(** ** class Context(IDMEF, Timer) *)

(** Modelled from the spec: [IDMEF.alert] emits the accumulated alert
    record to the alerting collaborator. *)
Definition IDMEF_alert (self : ObjId) : M unit :=
  c <- get_context self ;;
  modify (emit (EvAlert self (idmef c))).

(** [self.addAlertReference(idmef)], on the record of the object. *)
Definition IDMEF_addAlertReference (self : ObjId) (m : IDMEFMsg) : M unit :=
  c <- get_context self ;;
  put_context self (set_idmef (addAlertReference_record (idmef c) m) c).

(** [_getTime]: the time of the event, parsed, or the clock. *)
Definition Context__getTime (idmef : option IDMEFMsg) : M Z :=
  match idmef with
  | Some m => ret (msg_time m)
  | None => time_time
  end.

Definition Context__updateTime (self : ObjId) (itime : Z) : M unit :=
  (c <- get_context self ;;
   put_context self (set_time_min (Z.min (itime - expire (_options c)) (_time_min c)) c)) ;;;
  c <- get_context self ;;
  if negb (_time_max c =? -1)
  then put_context self (set_time_max (Z.max (itime + expire (_options c)) (_time_max c)) c)
  else ret tt.

Definition Context__intersect (self : ObjId) (a : Arg) : M (option (Z * Z)) :=
  it <- match a with
        | ArgContext id =>
            c' <- get_context id ;; ret (_time_min c', _time_max c')
        | _ =>
            itime <- Context__getTime (msg_of a) ;;
            c <- get_context self ;;
            ret (itime - expire (_options c), itime + expire (_options c))
        end ;;
  c <- get_context self ;;
  ret (intersect_windows (_time_min c) (_time_max c) (fst it) (snd it)).

(** [destroy]: [list.remove] takes out the first occurrence and raises
    [ValueError] when there is none; a missing bucket is a [KeyError]. *)
Definition Context_destroy (self : ObjId) : M unit :=
  Timer_stop self ;;;
  c <- get_context self ;;
  w <- get ;;
  match _CONTEXT_TABLE w !! _name c with
  | None => raise KeyError
  | Some l =>
      match list_remove self l with
      | None => raise ValueError
      | Some l' =>
          modify (fun w => set_CONTEXT_TABLE (<[_name c := l']> (_CONTEXT_TABLE w)) w) ;;;
          w <- get ;;
          match _CONTEXT_TABLE w !! _name c with
          | Some [] => modify (fun w => set_CONTEXT_TABLE (delete (_name c) (_CONTEXT_TABLE w)) w)
          | Some _ => ret tt
          | None => raise KeyError
          end
      end
  end.

(** [merge]: one statement after the other, each reading the objects
    afresh; in [self.set(path(>>), ctx.get(path))] the argument is
    evaluated first. *)
Definition merge_path (self ctx : ObjId) (p : Path) : M unit :=
  o <- get_context ctx ;; c <- get_context self ;;
  put_context self (set_idmef (IDMEF_set_append p (IDMEF_get p (idmef o)) (idmef c)) c).

Definition Context_merge (self ctx : ObjId) : M unit :=
  (c <- get_context self ;; o <- get_context ctx ;;
   put_context self (set_update_count (_update_count c + _update_count o) c)) ;;;
  (c <- get_context self ;; o <- get_context ctx ;;
   put_context self (set_time_min (Z.min (_time_min c) (_time_min o)) c)) ;;;
  (c <- get_context self ;; o <- get_context ctx ;;
   put_context self (set_time_max (Z.max (_time_max c) (_time_max o)) c)) ;;;
  merge_path self ctx alert_source_path ;;;
  merge_path self ctx alert_target_path ;;;
  merge_path self ctx alert_correlation_alert_alertident_path ;;;
  Context_destroy ctx.

Fixpoint mergeIntersect_loop (self : ObjId) (l : list ObjId) : M bool :=
  match l with
  | [] => ret false
  | ctx :: l' =>
      if decide (ctx = self) then mergeIntersect_loop self l'
      else
        i <- Context__intersect self (ArgContext ctx) ;;
        match i with
        | Some _ => Context_merge self ctx ;;; ret true
        | None => mergeIntersect_loop self l'
        end
  end.

Definition Context__mergeIntersect (self : ObjId) : M bool :=
  c <- get_context self ;;
  w <- get ;;
  match _CONTEXT_TABLE w !! _name c with
  | None => raise KeyError
  | Some l => mergeIntersect_loop self l
  end.

(** A tuple of two is always true: [if not i] only sees [None]. *)
Definition Context_checkTimeWindow (self : ObjId) (a : Arg) (update : bool) : M bool :=
  i <- Context__intersect self a ;;
  match i with
  | None => ret false
  | Some (i0, i1) =>
      (if update
       then
         (c <- get_context self ;; put_context self (set_time_min i0 c)) ;;;
         c <- get_context self ;;
         if negb (_time_max c =? -1)
         then put_context self (set_time_max i1 c)
         else ret tt
       else ret tt) ;;;
      ret true
  end.

Definition Context__alert (self : ObjId) : M unit :=
  c <- get_context self ;;
  match alert_on_expire (_options c) with
  | AoeCallable cb => invoke cb self
  | _ => IDMEF_alert self ;;; Context_destroy self
  end.

(** [Context._timerExpireCallback] overrides the one of [Timer]. *)
Definition Context__timerExpireCallback (self : ObjId) : M unit :=
  c <- get_context self ;;
  let threshold := threshold (_options c) in
  if truthy_aoe (alert_on_expire (_options c))
     && ((threshold =? -1) || (_update_count c + 1 >=? threshold))
  then Context__alert self
  else Context_destroy self.

Definition Context_setOptions (self : ObjId) (options : OptionsArg) : M unit :=
  (c <- get_context self ;;
   put_context self (set_options (dict_update (_options c) options) c)) ;;;
  (c <- get_context self ;; Timer_setExpire self (expire (_options c))) ;;;
  Timer_start self false.

(** The statements of [update] after the [if idmef:] block. *)
Definition Context_update_rest (self : ObjId) (options : OptionsArg)
    (timer_rst : bool) : M unit :=
  running <- Timer_running self ;;
  (if timer_rst && running then Timer_reset self else ret tt) ;;;
  Context_setOptions self options.

Definition Context_update (self : ObjId) (options : OptionsArg)
    (idmef : option IDMEFMsg) (timer_rst : bool) : M unit :=
  (c <- get_context self ;;
   put_context self (set_update_count (_update_count c + 1) c)) ;;;
  let rest := Context_update_rest self options timer_rst in
  match idmef with
  | Some m =>
      IDMEF_addAlertReference self m ;;;
      c <- get_context self ;;
      if truthy_aoe (alert_on_expire (_options c))
         && (_update_count c >=? _IDMEF_QUEUE_LIMIT)
      then Context__alert self
      else rest
  | None => rest
  end.

(** ** Timer.check, with the method the object's class gives it *)

Definition self__timerExpireCallback (self : ObjId) : M unit :=
  o <- get_obj self ;;
  match o with
  | ContextObj _ _ => Context__timerExpireCallback self
  | TimerObj _ => Timer__timerExpireCallback self
  end.

Definition Timer_check (self : ObjId) (now : option Z) : M (option Z) :=
  t <- get_timer self ;;
  if negb (truthy (_timer_start t)) then ret None
  else
    now <- now_or_time now ;;
    elapsed <- Timer_elapsed self (Some now) ;;
    t <- get_timer self ;;
    (if elapsed >=? _timer_expire t
     then self__timerExpireCallback self
     else ret tt) ;;;
    t <- get_timer self ;;
    if truthy (_timer_start t)
    then ret (Some (_timer_expire t - elapsed))
    else ret None.

(** ** getName *)

(** A component of a name: a string, or a value [str] renders. *)
Inductive PyVal :=
| PyStr (s : string)
| PyInt (z : Z).

Definition py_str (v : PyVal) : string :=
  match v with PyStr s => s | PyInt z => pretty z end.

Inductive NameArg :=
| NameStr (s : string)
| NameSeq (l : list PyVal).

(** [s.replace("_", "\\_")] *)
Fixpoint escape (s : string) : string :=
  match s with
  | EmptyString => EmptyString
  | String c s' =>
      if Ascii.eqb c "_"%char
      then String "\"%char (String "_"%char (escape s'))
      else String c (escape s')
  end.

Fixpoint getName_loop (cnt : Z) (name : string) (arg : list PyVal) : string :=
  match arg with
  | [] => name
  | i :: rest =>
      let name := if cnt >? 0 then name +:+ "_" else name in
      let name := name +:+ escape (py_str i) in
      getName_loop (cnt + 1) name rest
  end.

Definition getName (arg : NameArg) : string :=
  match arg with
  | NameStr s => escape s
  | NameSeq l => getName_loop 0 "" l
  end.

(** ** search *)

Fixpoint search_loop (l : list ObjId) (idmef : Arg) (update : bool) : M (option ObjId) :=
  match l with
  | [] => ret None
  | ctx :: l' =>
      ctime <- Context_checkTimeWindow ctx idmef update ;;
      if ctime then ret (Some ctx) else search_loop l' idmef update
  end.

Definition search (name : NameArg) (idmef : Arg) (update : bool) : M (option ObjId) :=
  let name := getName name in
  w <- get ;;
  search_loop (default [] (_CONTEXT_TABLE w !! name)) idmef update.

(** ** Context(...): __new__, then __init__ on a fresh object *)

(** The grouping value of [env.prelude_client.get_grouping], a
    collaborator outside this module, and [str] of a sequence. *)
Variable get_grouping : IDMEFMsg -> option string.
Variable str_seq : list PyVal -> string.

Definition str_name (n : NameArg) : string :=
  match n with NameStr s => s | NameSeq l => str_seq l end.

Definition Context___init__ (name : NameArg) (options : OptionsArg)
    (idmef : option IDMEFMsg) : M ObjId :=
  w <- get ;;
  let self := next_id w in
  modify (set_next_id (S self)) ;;;
  let name := getName name in
  put_obj self
    (ContextObj (mkTimer None 0 None)
       (mkContext name (mkOptions (-1) 0 AoeFalse) 0 0 0 empty_record)) ;;;
  Context_setOptions self options ;;;
  (match idmef with
   | Some m => IDMEF_addAlertReference self m
   | None => ret tt
   end) ;;;
  t <- Context__getTime idmef ;;
  (c <- get_context self ;;
   put_context self (set_time_min (t - expire (_options c)) c)) ;;;
  (c <- get_context self ;;
   if expire (_options c) >? 0
   then put_context self (set_time_max (t + expire (_options c)) c)
   else put_context self (set_time_max (-1) c)) ;;;
  modify (fun w =>
    set_CONTEXT_TABLE
      (<[name := default [] (_CONTEXT_TABLE w !! name) ++ [self]]> (_CONTEXT_TABLE w)) w) ;;;
  x <- Context__mergeIntersect self ;;
  (if x then modify (emit (EvLog LogCritical)) else ret tt) ;;;
  ret self.

Definition Context_call (name : NameArg) (options : OptionsArg)
    (overwrite update : bool) (idmef : option IDMEFMsg) (timer_rst : bool) : M ObjId :=
  let name' :=
    match idmef with
    | Some m =>
        match get_grouping m with
        | Some value =>
            if String.eqb value "" then name
            else NameStr (str_name name +:+ "_" +:+ value)
        | None => name
        end
    | None => name
    end in
  if update || negb overwrite then
    ctx <- search name' (arg_of idmef) true ;;
    match ctx with
    | Some ctx =>
        (if update
         then Context_update ctx options idmef timer_rst ;;;
              _m <- Context__mergeIntersect ctx ;; ret tt
         else ret tt) ;;;
        ret ctx
    | None => Context___init__ name options idmef
    end
  else
    ctx <- search name' (arg_of idmef) false ;;
    (match ctx with
     | Some ctx => Context_destroy ctx
     | None => ret tt
     end) ;;;
    Context___init__ name options idmef.

(** ** wakeup *)

Definition timer_running_in (w : World) (x : ObjId) : bool :=
  match heap w !! x with
  | Some o => match _timer_start (timer_of o) with Some _ => true | None => false end
  | None => false
  end.

(** The [for timer in _TIMER_LIST] loop: the list is read by position
    at every step, so that a timer a callback appends is visited in the
    same scan, as Python's list iterator does. [fuel] bounds the number of
    timers visited. *)
Fixpoint wakeup_loop (fuel : nat) (now : Z) (pos : nat) (i : Z) (need_delete : bool)
  : M (Z * bool) :=
  match fuel with
  | O => fun _ => OutOfFuel
  | S fuel' =>
      w <- get ;;
      match _TIMER_LIST w !! pos with
      | None => ret (i, need_delete)
      | Some timer =>
          r <- Timer_check timer (Some now) ;;
          if truthy r
          then
            modify (fun w => set_next_wakeup (Z.min (default 0 r) (_next_wakeup w)) w) ;;;
            wakeup_loop fuel' now (S pos) i need_delete
          else wakeup_loop fuel' now (S pos) (i + 1) true
      end
  end.

(** The statements of [wakeup] after the loop. *)
Definition wakeup_finish (now : Z) (need_delete : bool) : M unit :=
  (if need_delete
   then modify (fun w =>
          set_TIMER_LIST
            (filter (fun x => timer_running_in w x = true) (_TIMER_LIST w)) w)
   else ret tt) ;;;
  modify (set_last_wakeup now).

Definition wakeup (fuel : nat) (now : Z) : M unit :=
  w <- get ;;
  if now - _last_wakeup w <? _next_wakeup w then ret tt
  else
    modify (set_next_wakeup sys_maxsize) ;;;
    r <- wakeup_loop fuel now 0 0 false ;;
    wakeup_finish now (snd r).

End Engine.

(** ** Observations *)

Definition lookup_context (w : World) (id : ObjId) : option ContextAttrs :=
  match heap w !! id with
  | Some (ContextObj _ c) => Some c
  | _ => None
  end.

Definition lookup_timer (w : World) (id : ObjId) : option TimerAttrs :=
  timer_of <$> heap w !! id.

Definition window (w : World) (id : ObjId) : option (Z * Z) :=
  (fun c => (_time_min c, _time_max c)) <$> lookup_context w id.

Definition bucket (w : World) (name : string) : list ObjId :=
  default [] (_CONTEXT_TABLE w !! name).

(** The world an outcome leaves, when there is one. *)
Definition world_after {A} (o : Outcome A) : option World :=
  match o with
  | Ok _ w => Some w
  | Raise _ w => Some w
  | OutOfFuel => None
  end.

(** ** Sample callbacks, events and worlds *)

(** Callback 0 does nothing; any other one raises. *)
Definition sample_cb : CbId -> ObjId -> M unit :=
  fun cb _ =>
    match cb with
    | O => ret tt
    | S _ => raise (UserException cb)
    end.

(** The module as imported: nothing allocated, both scalars 0. *)
Definition initial_world : World := mkWorld ∅ 0%nat [] ∅ 0 0 0 [].

Definition msg_at (t : Z) : IDMEFMsg := mkMsg t ["src"] ["dst"] "id".

Definition new_context : NameArg -> OptionsArg -> bool -> bool ->
                         option IDMEFMsg -> bool -> M ObjId :=
  Context_call sample_cb (fun _ => None) (fun _ => EmptyString).

Definition expire_only (e : Z) : OptionsArg := mkOptionsArg None (Some e) None.

(** Two Contexts named "n", objects 0 and 1, with the given windows and
    the option [expire = e], as the registry holds them while object 0
    runs [_mergeIntersect]. *)
Definition two_windows_expire (e : Z) (a b : Z * Z) : World :=
  let ctx (win : Z * Z) (n : Z) :=
    ContextObj (mkTimer None e None)
      (mkContext "n" (mkOptions (-1) e AoeFalse) n (fst win) (snd win)
         (mkRecord ["s" +:+ pretty n] ["t" +:+ pretty n] ["i" +:+ pretty n])) in
  mkWorld (<[1%nat := ctx b 3]> (<[0%nat := ctx a 2]> ∅)) 2%nat []
          (<["n" := [0%nat; 1%nat]]> ∅) 0 0 0 [].

Definition two_windows : Z * Z -> Z * Z -> World := two_windows_expire 0.

(** The world a scenario leaves. *)
Definition run {A} (m : M A) (w : World) : World :=
  match m w with
  | Ok _ w' => w'
  | Raise _ w' => w'
  | OutOfFuel => w
  end.

(** A bounded Context is created at time 15, then one with [expire = 0]
    at time 0, neither with [update]. *)
Definition scenario_unbounded_after_bounded : M ObjId :=
  _b <- new_context (NameStr "n") (expire_only 5) true false (Some (msg_at 15)) false ;;
  new_context (NameStr "n") no_options true false (Some (msg_at 0)) false.

(** At time 100 a Context is created that expires after 60 seconds and
    hands itself to callback [cb] then. *)
Definition scenario_callable (cb : CbId) : M unit :=
  modify (set_clock 100) ;;;
  _c <- new_context (NameStr "n")
          (mkOptionsArg None (Some 60) (Some (AoeCallable cb))) true false
          (Some (msg_at 100)) false ;;
  ret tt.

(** The same with a plain Timer. *)
Definition scenario_timer (cb : CbId) : M unit :=
  modify (set_clock 100) ;;;
  t <- Timer___init__ 60 (Some cb) ;;
  Timer_start t false.

Definition timer_world : World := run (scenario_timer 0%nat) initial_world.

(** A Context with threshold 3 that alerts on expiry, registered, its
    Timer running since time 100, after [n] updates. *)
Definition threshold_world (n : Z) : World :=
  mkWorld
    (<[0%nat := ContextObj (mkTimer (Some 100) 60 None)
                  (mkContext "n" (mkOptions 3 60 AoeTrue) n 40 160
                     (mkRecord ["src"] ["dst"] ["id"]))]> ∅)
    1%nat [0%nat] (<["n" := [0%nat]]> ∅) 0 0 100 [].

(** A Timer of 10 seconds started at time 1, and a first scan at time 2. *)
Definition scenario_started : M unit :=
  modify (set_clock 1) ;;;
  t <- Timer___init__ 10 (Some 0%nat) ;;
  Timer_start t false.

Definition scenario_first_scan : M unit :=
  scenario_started ;;; wakeup sample_cb 10 2.

Definition started_world : World := run scenario_started initial_world.
Definition scanned_world : World := run scenario_first_scan initial_world.

(** A Context alerting on expiry, created from an event, then updated
    [n] times with an event. *)
Definition updates (n : nat) : M unit :=
  Nat.iter n
    (fun m => m ;;; Context_update sample_cb 0%nat no_options (Some (msg_at 100)) false)
    (_c <- new_context (NameStr "n")
             (mkOptionsArg None (Some 60) (Some AoeTrue)) true false
             (Some (msg_at 100)) false ;;
     ret tt).

(** ** Terms of the statements *)

(** The world in which object [id] is [o]. *)
Definition store (id : ObjId) (o : Obj) (w : World) : World :=
  set_heap (<[id := o]> (heap w)) w.

(** What [destroy] leaves of the registry once [l'] is the bucket. *)
Definition table_without (name : string) (l' : list ObjId)
    (t : gmap string (list ObjId)) : gmap string (list ObjId) :=
  match l' with
  | [] => delete name (<[name := l']> t)
  | _ => <[name := l']> t
  end.

(** The attributes of the surviving Context after [self.merge(other)]. *)
Definition merged (cs co : ContextAttrs) : ContextAttrs :=
  mkContext (_name cs) (_options cs)
    (_update_count cs + _update_count co)
    (Z.min (_time_min cs) (_time_min co))
    (Z.max (_time_max cs) (_time_max co))
    (mkRecord (alert_source (idmef cs) ++ alert_source (idmef co))
              (alert_target (idmef cs) ++ alert_target (idmef co))
              (alert_alertident (idmef cs) ++ alert_alertident (idmef co))).

(** The time [check] and [elapsed] work with: [now], or the clock when
    [now] is [None] or 0. *)
Definition effective_now (now : option Z) (w : World) : Z :=
  if truthy now then default 0 now else clock w.

(** The report [check] ends with. *)
Definition check_report (self : ObjId) (elapsed : Z) : M (option Z) :=
  t <- get_timer self ;;
  if truthy (_timer_start t)
  then ret (Some (_timer_expire t - elapsed))
  else ret None.

(** What [Timer._timerExpireCallback] runs under its [try]. *)
Definition guarded_callback (call_cb : CbId -> ObjId -> M unit)
    (self : ObjId) (cb : option CbId) : M unit :=
  try_except
    (match cb with
     | Some cb => invoke call_cb cb self
     | None => raise TypeError
     end)
    (fun e => modify (emit (EvLog (LogException e)))).

(** The time of the event, as [_getTime] gives it. *)
Definition event_time (w : World) (idmef : option IDMEFMsg) : Z :=
  match idmef with Some m => msg_time m | None => clock w end.

(** The window [_intersect] derives from the event for Context [c]. *)
Definition derived_window (w : World) (idmef : option IDMEFMsg) (c : ContextAttrs) : Z * Z :=
  (event_time w idmef - expire (_options c), event_time w idmef + expire (_options c)).

(** Whether the window of object [x] passes the test against the event. *)
Definition intersects_event (w : World) (idmef : option IDMEFMsg) (x : ObjId) : bool :=
  match lookup_context w x with
  | Some c =>
      match intersect_windows (_time_min c) (_time_max c)
              (fst (derived_window w idmef c)) (snd (derived_window w idmef c)) with
      | Some _ => true
      | None => false
      end
  | None => false
  end.

(** The first Context of a bucket, in insertion order, that does. *)
Definition first_intersecting (w : World) (idmef : option IDMEFMsg) (l : list ObjId)
  : option ObjId :=
  List.find (intersects_event w idmef) l.

(** The window widened in place: the lower edge goes down to the lower
    edge of the union, the upper edge goes up to the one of the union
    unless it is unbounded. *)
Definition widened (c : ContextAttrs) (it : Z * Z) : ContextAttrs :=
  mkContext (_name c) (_options c) (_update_count c)
    (Z.min (fst it) (_time_min c))
    (if _time_max c =? -1 then -1 else Z.max (snd it) (_time_max c))
    (idmef c).

Definition widen_found (w : World) (idmef : option IDMEFMsg) (found : option ObjId) : World :=
  match found with
  | Some ctx =>
      match heap w !! ctx with
      | Some (ContextObj t c) =>
          store ctx (ContextObj t (widened c (derived_window w idmef c))) w
      | _ => w
      end
  | None => w
  end.

(** The world [Timer.start] leaves when it does start the timer. *)
Definition started (self : ObjId) (o : Obj) (reset : bool) (w : World) : World :=
  let w1 := if reset then w else set_TIMER_LIST (_TIMER_LIST w ++ [self]) w in
  let t := mkTimer (Some (clock w)) (_timer_expire (timer_of o)) (_timer_cb (timer_of o)) in
  set_next_wakeup (Z.min (_next_wakeup w) (_timer_expire (timer_of o)))
    (store self (with_timer o t) w1).

(** The Context after the first statements of [update] with an event. *)
Definition recorded (c : ContextAttrs) (m : IDMEFMsg) : ContextAttrs :=
  set_idmef (addAlertReference_record (idmef c) m)
    (set_update_count (_update_count c + 1) c).

(** Every underscore of [s] comes right after a backslash; [prev] tells
    whether the character before [s] is one. *)
Fixpoint well_escaped (prev : bool) (s : string) : bool :=
  match s with
  | EmptyString => true
  | String c s' =>
      if Ascii.eqb c "_"%char
      then prev && well_escaped false s'
      else well_escaped (Ascii.eqb c "\"%char) s'
  end.

(** Whether the last character of [s], or the one before [s] when [s] is
    empty, is a backslash. *)
Fixpoint ends_with_backslash (prev : bool) (s : string) : bool :=
  match s with
  | EmptyString => prev
  | String c s' => ends_with_backslash (Ascii.eqb c "\"%char) s'
  end.

(** ** Terms of the further properties *)

(** ["_".join(escape(str(i)) for i in arg)] *)
Definition join_escaped (arg : list PyVal) : string :=
  String.concat "_" (map (fun i => escape (py_str i)) arg).

(** The time timer [x] has left at [now], as [check] reports it. *)
Definition remaining_of (w : World) (now : Z) (x : ObjId) : Z :=
  match lookup_timer w x with
  | Some t =>
      match _timer_start t with
      | Some s => _timer_expire t - (now - s)
      | None => 0
      end
  | None => 0
  end.

(** The least of [acc] and of the times left of the timers of [l]. *)
Definition least_remaining (w : World) (now : Z) (l : list ObjId) (acc : Z) : Z :=
  fold_left (fun acc x => Z.min (remaining_of w now x) acc) l acc.

(** Timer [x] runs and is not due at [now]. *)
Definition pending (w : World) (now : Z) (x : ObjId) : Prop :=
  exists o s, heap w !! x = Some o /\ _timer_start (timer_of o) = Some s /\
              s <> 0 /\ now - s < _timer_expire (timer_of o).

(** The bucket [l] kept under name [n] is not empty, holds no object
    twice, and holds Contexts of that name only. *)
Definition bucket_ok (w : World) (n : string) (l : list ObjId) : Prop :=
  l <> [] /\ NoDup l /\
  forall x, x ∈ l -> exists c, lookup_context w x = Some c /\ _name c = n.

Definition registry_ok (w : World) : Prop :=
  forall n l, _CONTEXT_TABLE w !! n = Some l -> bucket_ok w n l.

(** The window is in order unless its upper edge is unbounded. *)
Definition window_ok (c : ContextAttrs) : Prop :=
  _time_max c <> -1 -> _time_min c <= _time_max c.

Definition windows_ok (w : World) : Prop :=
  forall x c, lookup_context w x = Some c -> window_ok c.

(** Whether [x] is another Context whose window passes the test of
    [self._intersect(x)]. *)
Definition intersects_sibling (w : World) (self x : ObjId) : bool :=
  match lookup_context w self, lookup_context w x with
  | Some c, Some c' =>
      negb (bool_decide (x = self))
      && match intersect_windows (_time_min c) (_time_max c) (_time_min c') (_time_max c') with
         | Some _ => true
         | None => false
         end
  | _, _ => false
  end.

(** The first such Context of a bucket, in insertion order. *)
Definition first_sibling (w : World) (self : ObjId) (l : list ObjId) : option ObjId :=
  List.find (intersects_sibling w self) l.

(** Context [c'] is [c] with a window that reaches at least as far on
    both sides, an unbounded upper edge staying unbounded. *)
Definition grown (c c' : ContextAttrs) : Prop :=
  _name c' = _name c /\ _options c' = _options c /\
  _update_count c' = _update_count c /\ idmef c' = idmef c /\
  _time_min c' <= _time_min c /\
  (_time_max c = -1 -> _time_max c' = -1) /\
  (_time_max c <> -1 -> _time_max c <= _time_max c').

(** The world [setOptions] leaves: the options merged, the expiry of the
    timer set from them, and the timer started if it can be. *)
Definition with_options (self : ObjId) (t : TimerAttrs) (c : ContextAttrs)
    (options : OptionsArg) (w : World) : World :=
  let c1 := set_options (dict_update (_options c) options) c in
  let o1 := ContextObj (mkTimer (_timer_start t) (expire (_options c1)) (_timer_cb t)) c1 in
  if (expire (_options c1) =? 0)
     || match _timer_start t with Some _ => true | None => false end
  then store self o1 w
  else started self o1 false (store self o1 w).

(** The world in which [__init__] runs its merge scan: the fresh Context
    is built from the options and the event, its timer started unless
    [expire] is 0, and it is registered at the end of its bucket. *)
Definition constructed (name : NameArg) (options : OptionsArg)
    (idmef : option IDMEFMsg) (w : World) : World :=
  let self := next_id w in
  let n := getName name in
  let o := dict_update (mkOptions (-1) 0 AoeFalse) options in
  let e := expire o in
  let t := event_time w idmef in
  let c := mkContext n o 0 (t - e) (if e >? 0 then t + e else -1)
             (match idmef with
              | Some m => addAlertReference_record empty_record m
              | None => empty_record
              end) in
  let armed := negb (e =? 0) in
  mkWorld
    (<[self := ContextObj (mkTimer (if armed then Some (clock w) else None) e None) c]>
       (heap w))
    (S self)
    (if armed then _TIMER_LIST w ++ [self] else _TIMER_LIST w)
    (<[n := bucket w n ++ [self]]> (_CONTEXT_TABLE w))
    (_last_wakeup w)
    (if armed then Z.min (_next_wakeup w) e else _next_wakeup w)
    (clock w)
    (trace w).

(** The Context [__init__] builds from the options and the event. *)
Definition new_context_attrs (name : NameArg) (options : OptionsArg)
    (idmef : option IDMEFMsg) (w : World) : ContextAttrs :=
  let o := dict_update (mkOptions (-1) 0 AoeFalse) options in
  let t := event_time w idmef in
  mkContext (getName name) o 0 (t - expire o)
    (if expire o >? 0 then t + expire o else -1)
    (match idmef with
     | Some m => addAlertReference_record empty_record m
     | None => empty_record
     end).

(** Context [c'] fails the test [_intersect] makes for Context [c]. *)
Definition apart (c c' : ContextAttrs) : Prop :=
  intersect_windows (_time_min c) (_time_max c) (_time_min c') (_time_max c') = None.

(** World [w'] differs from [w] by object [self], by the active set and
    by [_next_wakeup] at most. *)
Definition only_object (self : ObjId) (w w' : World) : Prop :=
  next_id w' = next_id w /\
  _CONTEXT_TABLE w' = _CONTEXT_TABLE w /\
  trace w' = trace w /\
  _last_wakeup w' = _last_wakeup w /\
  clock w' = clock w /\
  forall x, x <> self -> heap w' !! x = heap w !! x.

(** The Context after the first statements of [update]. *)
Definition counted (c : ContextAttrs) (ev : option IDMEFMsg) : ContextAttrs :=
  match ev with
  | Some m => recorded c m
  | None => set_update_count (_update_count c + 1) c
  end.

(** No object is allocated at [next_id] or beyond. *)
Definition fresh_ids (w : World) : Prop :=
  forall x : ObjId, (next_id w <= x)%nat -> heap w !! x = None.

(** [__new__] followed by [__init__] once the name [__new__] searches
    under is [searched]; [__init__] is handed the name of the call. *)
Definition call_under (call_cb : CbId -> ObjId -> M unit) (searched name : NameArg)
    (options : OptionsArg) (overwrite update : bool) (idmef : option IDMEFMsg)
    (timer_rst : bool) : M ObjId :=
  if update || negb overwrite then
    ctx <- search searched (arg_of idmef) true ;;
    match ctx with
    | Some ctx =>
        (if update
         then Context_update call_cb ctx options idmef timer_rst ;;;
              _m <- Context__mergeIntersect ctx ;; ret tt
         else ret tt) ;;;
        ret ctx
    | None => Context___init__ name options idmef
    end
  else
    ctx <- search searched (arg_of idmef) false ;;
    (match ctx with
     | Some ctx => Context_destroy ctx
     | None => ret tt
     end) ;;;
    Context___init__ name options idmef.

(** A Context handed to callback 0 on expiry, created from an event,
    then updated [n] times with an event. *)
Definition callable_updates (n : nat) : M unit :=
  Nat.iter n
    (fun m => m ;;; Context_update sample_cb 0%nat no_options (Some (msg_at 100)) false)
    (_c <- new_context (NameStr "n")
             (mkOptionsArg None (Some 60) (Some (AoeCallable 0%nat))) true false
             (Some (msg_at 100)) false ;;
     ret tt).

(** Whether [update] resets the timer [t]: it is asked to, the timer
    runs, and [start(reset=True)] does not return at once. *)
Definition resets (t : TimerAttrs) (timer_rst : bool) : bool :=
  timer_rst
  && match _timer_start t with Some _ => true | None => false end
  && negb (_timer_expire t =? 0).

(** The world [update] leaves when it does not take the alert path, [c]
    being the Context after the count and the record were brought up to
    date: the timer reset if [resets] says so, then [setOptions]. *)
Definition updated (self : ObjId) (t : TimerAttrs) (c : ContextAttrs)
    (options : OptionsArg) (timer_rst : bool) (w : World) : World :=
  let w0 := store self (ContextObj t c) w in
  if resets t timer_rst
  then with_options self (mkTimer (Some (clock w)) (_timer_expire t) (_timer_cb t)) c options
         (started self (ContextObj t c) true w0)
  else with_options self t c options w0.

(** The start time of the timer after such an [update]. *)
Definition start_after_update (t : TimerAttrs) (c : ContextAttrs)
    (options : OptionsArg) (timer_rst : bool) (w : World) : option Z :=
  match _timer_start t with
  | Some s => if timer_rst && negb (_timer_expire t =? 0) then Some (clock w) else Some s
  | None => if expire (dict_update (_options c) options) =? 0 then None else Some (clock w)
  end.


(** ** The interval intersection test *)

Lemma intersect_windows_union tmin tmax itmin itmax i :
  intersect_windows tmin tmax itmin itmax = Some i ->
  i = (Z.min itmin tmin, Z.max itmax tmax).
Proof.
  unfold intersect_windows. destruct (_ || _); congruence.
Qed.

(** Between two bounded windows the test does not depend on the side. *)
Lemma intersect_windows_sym_bounded amin amax bmin bmax :
  amax <> -1 -> bmax <> -1 ->
  is_Some (intersect_windows amin amax bmin bmax) <->
  is_Some (intersect_windows bmin bmax amin amax).
Proof.
  intros Ha Hb. unfold intersect_windows.
  apply Z.eqb_neq in Ha, Hb. rewrite Ha, Hb. cbn [orb].
  destruct (bmin <=? amin) eqn:E1, (bmax >=? amin) eqn:E2,
           (bmin >=? amin) eqn:E3, (bmin <=? amax) eqn:E4,
           (amin <=? bmin) eqn:E5, (amax >=? bmin) eqn:E6,
           (amin >=? bmin) eqn:E7, (amin <=? bmax) eqn:E8;
    cbn; split; intros [x Hx]; try discriminate; eauto; exfalso; lia.
Qed.

(** Two windows without upper edge always pass it. *)
Lemma intersect_windows_both_unbounded amin bmin :
  is_Some (intersect_windows amin (-1) bmin (-1)).
Proof.
  unfold intersect_windows. cbn.
  destruct (bmin <=? amin) eqn:E1, (bmin >=? amin) eqn:E2; cbn; eauto.
  exfalso; lia.
Qed.

(** C1. The test is not symmetric once exactly one upper edge is
    unbounded. The window [10, unbounded) passes the test against [0, 5],
    which lies wholly before it, and [0, 5] fails the test against
    [10, unbounded). Likewise [0, unbounded) passes against [10, 20], and
    [10, 20], which lies inside it, fails against [0, unbounded): the
    sentinel -1 of the other window is compared as a number. *)
Theorem intersect_asymmetric_unbounded :
  (Context__intersect 0%nat (ArgContext 1%nat) (two_windows (10, -1) (0, 5))
     = Ok (Some (0, 5)) (two_windows (10, -1) (0, 5)) /\
   Context__intersect 1%nat (ArgContext 0%nat) (two_windows (10, -1) (0, 5))
     = Ok None (two_windows (10, -1) (0, 5))) /\
  (Context__intersect 0%nat (ArgContext 1%nat) (two_windows (0, -1) (10, 20))
     = Ok (Some (0, 20)) (two_windows (0, -1) (10, 20)) /\
   Context__intersect 1%nat (ArgContext 0%nat) (two_windows (0, -1) (10, 20))
     = Ok None (two_windows (0, -1) (10, 20))).
Proof. repeat split; reflexivity. Qed.

(** C2. The union loses the unbounded edge. On the intersecting windows
    [0, unbounded) and [10, 20], the test returns (0, 20) and [merge]
    leaves the surviving Context with [_time_max = 20]; the same happens
    when the two Contexts are created one after the other, where the
    merge on initialization is logged as critical. *)
Theorem merge_drops_unbounded_edge :
  Context__intersect 0%nat (ArgContext 1%nat) (two_windows (0, -1) (10, 20))
    = Ok (Some (0, 20)) (two_windows (0, -1) (10, 20)) /\
  (exists w, Context_merge 0%nat 1%nat (two_windows (0, -1) (10, 20)) = Ok tt w /\
             window w 0%nat = Some (0, 20)) /\
  exists w, scenario_unbounded_after_bounded initial_world = Ok 1%nat w /\
            window w 1%nat = Some (0, 20) /\
            bucket w "n" = [1%nat] /\
            trace w = [EvLog LogCritical].
Proof.
  split; [reflexivity|]. split.
  - eexists. split; [vm_compute; reflexivity|]. vm_compute; reflexivity.
  - eexists. split; [vm_compute; reflexivity|].
    repeat split; vm_compute; reflexivity.
Qed.

(** ** Running the methods on a known heap *)

Lemma bind_Ok {A B} (m : M A) (k : A -> M B) w a w' :
  m w = Ok a w' -> bind m k w = k a w'.
Proof. unfold bind. intros ->. reflexivity. Qed.

Lemma bind_Raise {A B} (m : M A) (k : A -> M B) w e w' :
  m w = Raise e w' -> bind m k w = Raise e w'.
Proof. unfold bind. intros ->. reflexivity. Qed.

Lemma get_obj_Some w id o :
  heap w !! id = Some o -> get_obj id w = Ok o w.
Proof. unfold get_obj. intros ->. reflexivity. Qed.

Lemma get_timer_Some w id o :
  heap w !! id = Some o -> get_timer id w = Ok (timer_of o) w.
Proof. intros H. unfold get_timer. rewrite (bind_Ok _ _ _ _ _ (get_obj_Some _ _ _ H)). reflexivity. Qed.

Lemma get_context_Some w id t c :
  heap w !! id = Some (ContextObj t c) -> get_context id w = Ok c w.
Proof. intros H. unfold get_context. rewrite (bind_Ok _ _ _ _ _ (get_obj_Some _ _ _ H)). reflexivity. Qed.

Lemma put_timer_Some w id o t :
  heap w !! id = Some o -> put_timer id t w = Ok tt (store id (with_timer o t) w).
Proof. intros H. unfold put_timer. rewrite (bind_Ok _ _ _ _ _ (get_obj_Some _ _ _ H)). reflexivity. Qed.

Lemma put_context_Some w id t c c' :
  heap w !! id = Some (ContextObj t c) ->
  put_context id c' w = Ok tt (store id (ContextObj t c') w).
Proof. intros H. unfold put_context. rewrite (bind_Ok _ _ _ _ _ (get_obj_Some _ _ _ H)). reflexivity. Qed.

Lemma heap_store_eq id o w : heap (store id o w) !! id = Some o.
Proof. apply lookup_insert_eq. Qed.

Lemma heap_store_ne id id' o w : id <> id' -> heap (store id o w) !! id' = heap w !! id'.
Proof. intros H. cbn. apply lookup_insert_ne, H. Qed.

Lemma store_store id o o' w : store id o' (store id o w) = store id o' w.
Proof. unfold store, set_heap. cbn. f_equal. apply insert_insert_eq. Qed.

(** One statement of the form [self.attr = f(self, other)]. *)
Lemma assign_from_other w self ctx ts cs tc cc (f : ContextAttrs -> ContextAttrs -> ContextAttrs) :
  self <> ctx ->
  heap w !! self = Some (ContextObj ts cs) ->
  heap w !! ctx = Some (ContextObj tc cc) ->
  (c <- get_context self ;; o <- get_context ctx ;; put_context self (f c o)) w
    = Ok tt (store self (ContextObj ts (f cs cc)) w) /\
  (o <- get_context ctx ;; c <- get_context self ;; put_context self (f c o)) w
    = Ok tt (store self (ContextObj ts (f cs cc)) w).
Proof.
  intros Hne Hs Hc. split.
  - rewrite (bind_Ok _ _ _ _ _ (get_context_Some _ _ _ _ Hs)).
    rewrite (bind_Ok _ _ _ _ _ (get_context_Some _ _ _ _ Hc)).
    apply (put_context_Some _ _ _ _ _ Hs).
  - rewrite (bind_Ok _ _ _ _ _ (get_context_Some _ _ _ _ Hc)).
    rewrite (bind_Ok _ _ _ _ _ (get_context_Some _ _ _ _ Hs)).
    apply (put_context_Some _ _ _ _ _ Hs).
Qed.

(** ** list.remove *)

Lemma list_remove_elem x l : x ∈ l -> is_Some (list_remove x l).
Proof.
  induction l as [|y l IH]; intros H.
  - inversion H.
  - cbn. destruct (decide (y = x)); [eauto|].
    destruct IH as [r Hr].
    + apply elem_of_cons in H as [H|H]; [congruence|exact H].
    + rewrite Hr. eauto.
Qed.

Lemma list_remove_other x l l' y :
  list_remove x l = Some l' -> y <> x -> y ∈ l' <-> y ∈ l.
Proof.
  revert l'. induction l as [|z l IH]; intros l' H Hy; cbn in H.
  - discriminate.
  - destruct (decide (z = x)) as [->|Hz].
    + injection H as <-. rewrite elem_of_cons. split; [auto|].
      intros [Heq|Hin]; [congruence|exact Hin].
    + destruct (list_remove x l) as [r|] eqn:E; [|discriminate].
      injection H as <-. rewrite !elem_of_cons, (IH r eq_refl Hy). reflexivity.
Qed.

Lemma list_remove_NoDup x l l' :
  NoDup l -> list_remove x l = Some l' -> x ∉ l'.
Proof.
  revert l'. induction l as [|z l IH]; intros l' Hnd H; cbn in H.
  - discriminate.
  - apply NoDup_cons in Hnd as [Hz Hnd].
    destruct (decide (z = x)) as [->|Hzx].
    + injection H as <-. exact Hz.
    + destruct (list_remove x l) as [r|] eqn:E; [|discriminate].
      injection H as <-. rewrite elem_of_cons. intros [Heq|Hin]; [congruence|].
      exact (IH r Hnd eq_refl Hin).
Qed.

(** ** destroy *)

Lemma Timer_stop_Some w self o :
  heap w !! self = Some o ->
  Timer_stop self w
    = Ok tt (store self (with_timer o (mkTimer None (_timer_expire (timer_of o))
                                                    (_timer_cb (timer_of o)))) w).
Proof.
  intros Hh. unfold Timer_stop.
  rewrite (bind_Ok _ _ _ _ _ (get_timer_Some _ _ _ Hh)).
  apply (put_timer_Some _ _ _ _ Hh).
Qed.

Lemma Context_destroy_Some w self t c l l' :
  heap w !! self = Some (ContextObj t c) ->
  _CONTEXT_TABLE w !! _name c = Some l ->
  list_remove self l = Some l' ->
  Context_destroy self w
    = Ok tt (set_CONTEXT_TABLE (table_without (_name c) l' (_CONTEXT_TABLE w))
               (store self (ContextObj (mkTimer None (_timer_expire t) (_timer_cb t)) c) w)).
Proof.
  intros Hh Ht Hl. unfold Context_destroy.
  rewrite (bind_Ok _ _ _ _ _ (Timer_stop_Some _ _ _ Hh)). cbn [with_timer timer_of].
  rewrite (bind_Ok _ _ _ _ _ (get_context_Some _ _ _ _ (heap_store_eq _ _ _))).
  unfold bind at 1. cbn [get]. cbn [_CONTEXT_TABLE store set_heap]. rewrite Ht, Hl.
  unfold bind, modify, get. cbn [_CONTEXT_TABLE set_CONTEXT_TABLE].
  rewrite lookup_insert_eq. unfold table_without.
  destruct l'; cbn; reflexivity.
Qed.

Lemma bucket_table_without w name l' x :
  x ∈ default [] (table_without name l' (_CONTEXT_TABLE w) !! name) <-> x ∈ l'.
Proof.
  unfold table_without. destruct l'.
  - rewrite lookup_delete_eq. reflexivity.
  - rewrite lookup_insert_eq. reflexivity.
Qed.

Lemma table_without_other w name l' n :
  n <> name -> table_without name l' (_CONTEXT_TABLE w) !! n = _CONTEXT_TABLE w !! n.
Proof.
  intros H. unfold table_without. destruct l'.
  - rewrite lookup_delete_ne, lookup_insert_ne by congruence. reflexivity.
  - rewrite lookup_insert_ne by congruence. reflexivity.
Qed.

(** ** merge *)

Lemma Context_merge_Some w a b ta ca tb cb l l' :
  a <> b ->
  heap w !! a = Some (ContextObj ta ca) ->
  heap w !! b = Some (ContextObj tb cb) ->
  _CONTEXT_TABLE w !! _name cb = Some l ->
  list_remove b l = Some l' ->
  Context_merge a b w
    = Ok tt (set_CONTEXT_TABLE (table_without (_name cb) l' (_CONTEXT_TABLE w))
               (store b (ContextObj (mkTimer None (_timer_expire tb) (_timer_cb tb)) cb)
                  (store a (ContextObj ta (merged ca cb)) w))).
Proof.
  intros Hne Ha Hb Ht Hl. unfold Context_merge.
  assert (step : forall w1 c1 (f : ContextAttrs -> ContextAttrs -> ContextAttrs),
             heap w1 !! a = Some (ContextObj ta c1) ->
             heap w1 !! b = Some (ContextObj tb cb) ->
             heap (store a (ContextObj ta (f c1 cb)) w1) !! a
               = Some (ContextObj ta (f c1 cb)) /\
             heap (store a (ContextObj ta (f c1 cb)) w1) !! b
               = Some (ContextObj tb cb)).
  { intros w1 c1 f H1 H2. split; [apply heap_store_eq|].
    rewrite heap_store_ne by exact Hne. exact H2. }
  pose proof (assign_from_other w a b ta ca tb cb
                (fun c o => set_update_count (_update_count c + _update_count o) c)
                Hne Ha Hb) as [E1 _].
  rewrite (bind_Ok _ _ _ _ _ E1). clear E1.
  destruct (step w ca (fun c o => set_update_count (_update_count c + _update_count o) c) Ha Hb)
    as [Ha1 Hb1].
  pose proof (assign_from_other _ a b ta _ tb cb
                (fun c o => set_time_min (Z.min (_time_min c) (_time_min o)) c)
                Hne Ha1 Hb1) as [E2 _].
  rewrite (bind_Ok _ _ _ _ _ E2), store_store. clear E2.
  destruct (step _ _ (fun c o => set_time_min (Z.min (_time_min c) (_time_min o)) c) Ha1 Hb1)
    as [Ha2 Hb2]. rewrite store_store in Ha2, Hb2. clear Ha1 Hb1.
  pose proof (assign_from_other _ a b ta _ tb cb
                (fun c o => set_time_max (Z.max (_time_max c) (_time_max o)) c)
                Hne Ha2 Hb2) as [E3 _].
  rewrite (bind_Ok _ _ _ _ _ E3), store_store. clear E3.
  destruct (step _ _ (fun c o => set_time_max (Z.max (_time_max c) (_time_max o)) c) Ha2 Hb2)
    as [Ha3 Hb3]. rewrite store_store in Ha3, Hb3. clear Ha2 Hb2.
  assert (path : forall w1 c1 p,
             heap w1 !! a = Some (ContextObj ta c1) ->
             heap w1 !! b = Some (ContextObj tb cb) ->
             merge_path a b p w1
               = Ok tt (store a (ContextObj ta
                          (set_idmef (IDMEF_set_append p (IDMEF_get p (idmef cb)) (idmef c1))
                             c1)) w1)).
  { intros w1 c1 p H1 H2.
    exact (proj2 (assign_from_other w1 a b ta c1 tb cb
                    (fun c o => set_idmef (IDMEF_set_append p (IDMEF_get p (idmef o)) (idmef c)) c)
                    Hne H1 H2)). }
  rewrite (bind_Ok _ _ _ _ _ (path _ _ alert_source_path Ha3 Hb3)), store_store.
  destruct (step _ _ (fun c o => set_idmef (IDMEF_set_append alert_source_path
                                              (IDMEF_get alert_source_path (idmef o))
                                              (idmef c)) c) Ha3 Hb3)
    as [Ha4 Hb4]. rewrite store_store in Ha4, Hb4. clear Ha3 Hb3.
  rewrite (bind_Ok _ _ _ _ _ (path _ _ alert_target_path Ha4 Hb4)), store_store.
  destruct (step _ _ (fun c o => set_idmef (IDMEF_set_append alert_target_path
                                              (IDMEF_get alert_target_path (idmef o))
                                              (idmef c)) c) Ha4 Hb4)
    as [Ha5 Hb5]. rewrite store_store in Ha5, Hb5. clear Ha4 Hb4.
  rewrite (bind_Ok _ _ _ _ _
             (path _ _ alert_correlation_alert_alertident_path Ha5 Hb5)), store_store.
  destruct (step _ _ (fun c o => set_idmef (IDMEF_set_append
                                              alert_correlation_alert_alertident_path
                                              (IDMEF_get alert_correlation_alert_alertident_path
                                                 (idmef o))
                                              (idmef c)) c) Ha5 Hb5)
    as [Ha6 Hb6]. rewrite store_store in Ha6, Hb6. clear Ha5 Hb5.
  cbn in Ha6 |- *.
  erewrite Context_destroy_Some; [reflexivity | exact Hb6 | exact Ht | exact Hl].
Qed.

(** C3. Merging [b] into a distinct Context [a] of the same name, [b]
    being registered in the bucket of that name: [a]'s update count is
    the sum of both counts, its window the componentwise minimum and
    maximum, its record holds [b]'s source, target and identifier
    references after its own, and [b] has left the registry; [a]'s Timer
    attributes, its options and its name are as before, and so are the
    other Contexts of the bucket and the other buckets. *)
Theorem merge_absorbs_other w a b ta ca tb cb l :
  a <> b ->
  heap w !! a = Some (ContextObj ta ca) ->
  heap w !! b = Some (ContextObj tb cb) ->
  _name ca = _name cb ->
  _CONTEXT_TABLE w !! _name cb = Some l ->
  b ∈ l ->
  NoDup l ->
  exists w',
    Context_merge a b w = Ok tt w' /\
    (exists c', lookup_context w' a = Some c' /\
       _update_count c' = _update_count ca + _update_count cb /\
       _time_min c' = Z.min (_time_min ca) (_time_min cb) /\
       _time_max c' = Z.max (_time_max ca) (_time_max cb) /\
       alert_source (idmef c') = alert_source (idmef ca) ++ alert_source (idmef cb) /\
       alert_target (idmef c') = alert_target (idmef ca) ++ alert_target (idmef cb) /\
       alert_alertident (idmef c')
         = alert_alertident (idmef ca) ++ alert_alertident (idmef cb) /\
       _options c' = _options ca /\
       _name c' = _name ca) /\
    lookup_timer w' a = Some ta /\
    (b ∉ bucket w' (_name cb)) /\
    (forall x, x <> b -> (x ∈ bucket w' (_name cb)) <-> (x ∈ l)) /\
    (forall n, n <> _name cb -> _CONTEXT_TABLE w' !! n = _CONTEXT_TABLE w !! n) /\
    trace w' = trace w.
Proof.
  intros Hne Ha Hb Hname Ht Hin Hnd.
  destruct (list_remove_elem b l Hin) as [l' Hl].
  eexists. split; [exact (Context_merge_Some w a b ta ca tb cb l l' Hne Ha Hb Ht Hl)|].
  assert (Hla : heap (store b (ContextObj (mkTimer None (_timer_expire tb) (_timer_cb tb)) cb)
                        (store a (ContextObj ta (merged ca cb)) w)) !! a
                = Some (ContextObj ta (merged ca cb))).
  { rewrite heap_store_ne by congruence. apply heap_store_eq. }
  split; [|split; [|split; [|split; [|split]]]].
  - exists (merged ca cb). unfold lookup_context.
    change (heap (set_CONTEXT_TABLE ?t ?w)) with (heap w).
    rewrite Hla. repeat split; reflexivity.
  - unfold lookup_timer.
    change (heap (set_CONTEXT_TABLE ?t ?w)) with (heap w).
    rewrite Hla. reflexivity.
  - unfold bucket. cbn [_CONTEXT_TABLE set_CONTEXT_TABLE].
    rewrite (bucket_table_without w). exact (list_remove_NoDup _ _ _ Hnd Hl).
  - intros x Hx. unfold bucket. cbn [_CONTEXT_TABLE set_CONTEXT_TABLE].
    rewrite (bucket_table_without w). exact (list_remove_other _ _ _ _ Hl Hx).
  - intros n Hn. cbn [_CONTEXT_TABLE set_CONTEXT_TABLE].
    apply (table_without_other w), Hn.
  - reflexivity.
Qed.

(** The example of the specification: windows [0, 10] and [5, 20], update
    counts 2 and 3. *)
Lemma merge_absorbs_other_witness :
  (0%nat <> 1%nat /\
   _CONTEXT_TABLE (two_windows (0, 10) (5, 20)) !! "n" = Some [0%nat; 1%nat] /\
   NoDup [0%nat; 1%nat]) /\
  exists w',
    Context_merge 0%nat 1%nat (two_windows (0, 10) (5, 20)) = Ok tt w' /\
    window w' 0%nat = Some (0, 20) /\
    _update_count <$> lookup_context w' 0%nat = Some 5 /\
    (1%nat ∉ bucket w' "n") /\ (0%nat ∈ bucket w' "n").
Proof.
  assert (H01 : 0%nat <> 1%nat) by lia.
  assert (Ht : _CONTEXT_TABLE (two_windows (0, 10) (5, 20)) !! "n" = Some [0%nat; 1%nat])
    by reflexivity.
  assert (Hnd : NoDup [0%nat; 1%nat])
    by (apply (bool_decide_unpack _); vm_compute; exact I).
  assert (Hin : 1%nat ∈ [0%nat; 1%nat])
    by (apply (bool_decide_unpack _); vm_compute; exact I).
  split; [auto|].
  destruct (merge_absorbs_other (two_windows (0, 10) (5, 20)) 0%nat 1%nat
              _ _ _ _ [0%nat; 1%nat] H01 eq_refl eq_refl eq_refl Ht Hin Hnd)
    as (w' & Hm & (c' & Hc & Huc & Hmin & Hmax & _) & _ & Hb & Hothers & _).
  exists w'. split; [exact Hm|]. split; [|split; [|split]].
  - unfold window. rewrite Hc. cbn. rewrite Hmin, Hmax. reflexivity.
  - rewrite Hc. cbn. rewrite Huc. reflexivity.
  - exact Hb.
  - apply (Hothers 0%nat H01). apply (bool_decide_unpack _); vm_compute; exact I.
Defined.

(** ** Expiry of a Context *)

(** [destroy] hands nothing to the collaborators, however it ends. *)
Lemma Context_destroy_trace self w w' :
  world_after (Context_destroy self w) = Some w' -> trace w' = trace w.
Proof.
  unfold Context_destroy, Timer_stop, get_timer, put_timer, get_context, get_obj,
    put_obj, bind, get, modify, ret, raise.
  destruct (heap w !! self) as [o|] eqn:Ho; cbn; [|intros [= <-]; reflexivity].
  rewrite Ho. cbn. rewrite lookup_insert_eq.
  destruct o as [t|t c]; cbn; [intros [= <-]; reflexivity|].
  destruct (_CONTEXT_TABLE w !! _name c) as [l|]; cbn; [|intros [= <-]; reflexivity].
  destruct (list_remove self l) as [l'|]; cbn; [|intros [= <-]; reflexivity].
  rewrite lookup_insert_eq. destruct l'; cbn; intros [= <-]; reflexivity.
Qed.

Lemma IDMEF_alert_Some w self t c :
  heap w !! self = Some (ContextObj t c) ->
  IDMEF_alert self w = Ok tt (emit (EvAlert self (idmef c)) w).
Proof.
  intros Hh. unfold IDMEF_alert.
  rewrite (bind_Ok _ _ _ _ _ (get_context_Some _ _ _ _ Hh)). reflexivity.
Qed.

(** C4. When the Timer of a Context that alerts on expiry runs out, the
    alert path is taken if no threshold is set or [_update_count + 1]
    reaches it: the custom callback is called with the Context, or else
    the accumulated alert is emitted and the Context destroyed. In the
    other case the Context is destroyed, which emits nothing. *)
Theorem expiry_alerts_iff_threshold call_cb w self t c :
  heap w !! self = Some (ContextObj t c) ->
  truthy_aoe (alert_on_expire (_options c)) = true ->
  (threshold (_options c) = -1 \/ _update_count c + 1 >= threshold (_options c) ->
   Context__timerExpireCallback call_cb self w
     = match alert_on_expire (_options c) with
       | AoeCallable cb => call_cb cb self (emit (EvCall cb self) w)
       | _ => Context_destroy self (emit (EvAlert self (idmef c)) w)
       end) /\
  (~ (threshold (_options c) = -1 \/ _update_count c + 1 >= threshold (_options c)) ->
   Context__timerExpireCallback call_cb self w = Context_destroy self w /\
   forall w', world_after (Context_destroy self w) = Some w' -> trace w' = trace w).
Proof.
  intros Hh Haoe. unfold Context__timerExpireCallback.
  rewrite (bind_Ok _ _ _ _ _ (get_context_Some _ _ _ _ Hh)). cbv zeta.
  rewrite Haoe. cbn [andb]. split.
  - intros Hc.
    assert (E : (threshold (_options c) =? -1)
                || (_update_count c + 1 >=? threshold (_options c)) = true).
    { apply orb_true_iff. destruct Hc as [Hc|Hc]; [left; lia | right; lia]. }
    rewrite E. unfold Context__alert.
    rewrite (bind_Ok _ _ _ _ _ (get_context_Some _ _ _ _ Hh)).
    destruct (alert_on_expire (_options c)) eqn:Ea; [discriminate| |reflexivity].
    rewrite (bind_Ok _ _ _ _ _ (IDMEF_alert_Some _ _ _ _ Hh)). reflexivity.
  - intros Hc.
    assert (E : (threshold (_options c) =? -1)
                || (_update_count c + 1 >=? threshold (_options c)) = false).
    { apply orb_false_iff. split; [apply Z.eqb_neq; tauto |].
      rewrite Z.geb_leb. apply Z.leb_gt. lia. }
    rewrite E. split; [reflexivity|]. apply Context_destroy_trace.
Qed.

(** The examples of the specification: threshold 3, expiry after two
    updates and after one. *)
Lemma expiry_alerts_iff_threshold_witness :
  (truthy_aoe AoeTrue = true /\ 2 + 1 >= 3 /\ ~ (3 = -1 \/ 1 + 1 >= 3)) /\
  (exists w', Context__timerExpireCallback sample_cb 0%nat (threshold_world 2) = Ok tt w' /\
              trace w' = [EvAlert 0%nat (mkRecord ["src"] ["dst"] ["id"])] /\
              bucket w' "n" = []) /\
  (exists w', Context__timerExpireCallback sample_cb 0%nat (threshold_world 1) = Ok tt w' /\
              trace w' = [] /\
              bucket w' "n" = []).
Proof.
  assert (H2 : 2 + 1 >= 3) by lia.
  assert (H1 : ~ (3 = -1 \/ 1 + 1 >= 3)) by lia.
  split; [auto|]. split.
  - destruct (expiry_alerts_iff_threshold sample_cb (threshold_world 2) 0%nat
                _ _ eq_refl eq_refl) as [Hfire _].
    rewrite (Hfire (or_intror H2)).
    eexists. split; [vm_compute; reflexivity|]. split; vm_compute; reflexivity.
  - destruct (expiry_alerts_iff_threshold sample_cb (threshold_world 1) 0%nat
                _ _ eq_refl eq_refl) as [_ Hsilent].
    destruct (Hsilent H1) as [-> _].
    eexists. split; [vm_compute; reflexivity|]. split; vm_compute; reflexivity.
Defined.

(** ** Timer.check *)

Lemma now_or_time_eq now w : now_or_time now w = Ok (effective_now now w) w.
Proof. unfold now_or_time, effective_now. destruct (truthy now); reflexivity. Qed.

Lemma effective_now_idem now w :
  effective_now (Some (effective_now now w)) w = effective_now now w.
Proof.
  unfold effective_now. destruct (truthy now) eqn:E.
  - destruct now as [n|]; [|discriminate]. cbn in *. rewrite E. reflexivity.
  - cbn. destruct (clock w =? 0) eqn:E0; cbn; [|reflexivity].
    apply Z.eqb_eq in E0. congruence.
Qed.

Lemma Timer_elapsed_Some w self o s now :
  heap w !! self = Some o ->
  _timer_start (timer_of o) = Some s ->
  Timer_elapsed self now w = Ok (effective_now now w - s) w.
Proof.
  intros Hh Hs. unfold Timer_elapsed.
  rewrite (bind_Ok _ _ _ _ _ (now_or_time_eq now w)).
  rewrite (bind_Ok _ _ _ _ _ (get_timer_Some _ _ _ Hh)), Hs. reflexivity.
Qed.

(** [check] on a timer that is not running does nothing. *)
Lemma Timer_check_stopped call_cb w self o now :
  heap w !! self = Some o ->
  truthy (_timer_start (timer_of o)) = false ->
  Timer_check call_cb self now w = Ok None w.
Proof.
  intros Hh Hs. unfold Timer_check.
  rewrite (bind_Ok _ _ _ _ _ (get_timer_Some _ _ _ Hh)), Hs. reflexivity.
Qed.

(** [check] on a running timer. *)
Lemma Timer_check_running call_cb w self o s now :
  heap w !! self = Some o ->
  _timer_start (timer_of o) = Some s ->
  s <> 0 ->
  Timer_check call_cb self now w
    = ((if effective_now now w - s >=? _timer_expire (timer_of o)
        then self__timerExpireCallback call_cb self
        else ret tt) ;;;
       check_report self (effective_now now w - s)) w.
Proof.
  intros Hh Hs Hs0. unfold Timer_check.
  rewrite (bind_Ok _ _ _ _ _ (get_timer_Some _ _ _ Hh)), Hs.
  cbn [truthy]. apply Z.eqb_neq in Hs0. rewrite Hs0. cbn [negb].
  rewrite (bind_Ok _ _ _ _ _ (now_or_time_eq now w)).
  rewrite (bind_Ok _ _ _ _ _ (Timer_elapsed_Some _ _ _ _ _ Hh Hs)).
  rewrite effective_now_idem.
  rewrite (bind_Ok _ _ _ _ _ (get_timer_Some _ _ _ Hh)).
  reflexivity.
Qed.

(** Whatever the callback raises is caught. *)
Lemma guarded_callback_no_raise call_cb self cb w e w' :
  guarded_callback call_cb self cb w <> Raise e w'.
Proof.
  unfold guarded_callback, try_except.
  destruct cb as [cb|]; [|discriminate].
  destruct (invoke call_cb cb self w); discriminate.
Qed.

Lemma Timer__timerExpireCallback_plain call_cb w self t :
  heap w !! self = Some (TimerObj t) ->
  Timer__timerExpireCallback call_cb self w
    = guarded_callback call_cb self (_timer_cb t)
        (store self (TimerObj (mkTimer None (_timer_expire t) (_timer_cb t))) w).
Proof.
  intros Hh. unfold Timer__timerExpireCallback.
  rewrite (bind_Ok _ _ _ _ _ (Timer_stop_Some _ _ _ Hh)). cbn [with_timer timer_of].
  unfold guarded_callback, try_except.
  rewrite (bind_Ok _ _ _ _ _ (get_timer_Some _ _ _ (heap_store_eq _ _ _))).
  reflexivity.
Qed.

(** The method [check] calls is the one of the object's class. *)
Lemma dispatch_plain call_cb w self t :
  heap w !! self = Some (TimerObj t) ->
  self__timerExpireCallback call_cb self w = Timer__timerExpireCallback call_cb self w.
Proof.
  intros Hh. unfold self__timerExpireCallback.
  rewrite (bind_Ok _ _ _ _ _ (get_obj_Some _ _ _ Hh)). reflexivity.
Qed.

Lemma dispatch_context call_cb w self t c :
  heap w !! self = Some (ContextObj t c) ->
  self__timerExpireCallback call_cb self w = Context__timerExpireCallback call_cb self w.
Proof.
  intros Hh. unfold self__timerExpireCallback.
  rewrite (bind_Ok _ _ _ _ _ (get_obj_Some _ _ _ Hh)). reflexivity.
Qed.

(** A plain Timer's [check] never raises. *)
Lemma Timer_check_plain_no_raise call_cb w self t now e w' :
  heap w !! self = Some (TimerObj t) ->
  (forall cb x w1 w2, call_cb cb x w1 = Ok tt w2 -> is_Some (heap w2 !! self)) ->
  (forall cb x w1 e' w2, call_cb cb x w1 = Raise e' w2 -> is_Some (heap w2 !! self)) ->
  Timer_check call_cb self now w <> Raise e w'.
Proof.
  intros Hh Hok Hraise.
  destruct (truthy (_timer_start t)) eqn:Hs.
  2:{ rewrite (Timer_check_stopped call_cb w self _ now Hh Hs). discriminate. }
  destruct (_timer_start t) as [s|] eqn:Es; [|discriminate].
  assert (Hs0 : s <> 0) by (cbn in Hs; apply negb_true_iff, Z.eqb_neq in Hs; exact Hs).
  rewrite (Timer_check_running call_cb w self _ s now Hh Es Hs0). cbn [timer_of].
  assert (Hrep : forall w1 x, is_Some (heap w1 !! self) ->
                   check_report self x w1 <> Raise e w').
  { intros w1 x [o1 Ho1]. unfold check_report.
    rewrite (bind_Ok _ _ _ _ _ (get_timer_Some _ _ _ Ho1)).
    destruct (truthy (_timer_start (timer_of o1))); unfold ret; discriminate. }
  destruct (_ >=? _).
  - unfold bind at 1. rewrite (dispatch_plain call_cb w self t Hh).
    rewrite (Timer__timerExpireCallback_plain call_cb w self t Hh).
    destruct (guarded_callback _ _ _ _) as [[] w2|e2 w2|] eqn:Eg; [|
      exfalso; exact (guarded_callback_no_raise _ _ _ _ _ _ Eg) | discriminate].
    apply Hrep. revert Eg. unfold guarded_callback, try_except.
    destruct (_timer_cb t) as [cb|].
    + unfold invoke. unfold bind at 1. cbn [modify].
      destruct (call_cb cb self _) as [[] w3|e3 w3|] eqn:Ec; [| |discriminate].
      * intros [= <-]. exact (Hok _ _ _ _ Ec).
      * cbn. intros [= <-]. cbn. exact (Hraise _ _ _ _ _ Ec).
    + cbn. intros [= <-]. cbn. rewrite lookup_insert_eq. eauto.
  - unfold bind at 1. cbn [ret]. apply Hrep. eauto.
Qed.

(** C5. A failure of the expiry callback of a Context is not caught. A
    Context whose [alert_on_expire] callback raises is due at time 200:
    [check] raises the callback's exception and so does [wakeup], without
    any log record and before [_last_wakeup] is set; the Context stays
    armed and registered. [Context._timerExpireCallback] replaces the
    method of [Timer], which holds the [try]. A plain Timer with the same
    callback has its failure logged, and [wakeup] returns. *)
Theorem context_callback_failure_propagates :
  (exists w0,
     scenario_callable 1%nat initial_world = Ok tt w0 /\
     (exists w1, Timer_check sample_cb 0%nat (Some 200) w0 = Raise (UserException 1) w1 /\
                 trace w1 = [EvCall 1%nat 0%nat]) /\
     (exists w1, wakeup sample_cb 10 200 w0 = Raise (UserException 1) w1 /\
                 trace w1 = [EvCall 1%nat 0%nat] /\
                 _last_wakeup w1 = 0 /\
                 lookup_timer w1 0%nat = Some (mkTimer (Some 100) 60 None) /\
                 bucket w1 "n" = [0%nat])) /\
  (exists w0,
     scenario_timer 1%nat initial_world = Ok tt w0 /\
     exists w1, wakeup sample_cb 10 200 w0 = Ok tt w1 /\
                trace w1 = [EvCall 1%nat 0%nat; EvLog (LogException (UserException 1))] /\
                _last_wakeup w1 = 200).
Proof.
  split.
  - eexists. split; [vm_compute; reflexivity|]. split.
    + eexists. split; [vm_compute; reflexivity|]. vm_compute; reflexivity.
    + eexists. split; [vm_compute; reflexivity|].
      repeat split; vm_compute; reflexivity.
  - eexists. split; [vm_compute; reflexivity|].
    eexists. split; [vm_compute; reflexivity|].
    repeat split; vm_compute; reflexivity.
Qed.

(** ** wakeup *)

(** A call that scans leaves [_last_wakeup = now]. *)
Lemma wakeup_scan_last call_cb fuel now w w' :
  ~ (now - _last_wakeup w < _next_wakeup w) ->
  wakeup call_cb fuel now w = Ok tt w' ->
  _last_wakeup w' = now.
Proof.
  intros Hscan. unfold wakeup. unfold bind at 1. cbn [get].
  destruct (now - _last_wakeup w <? _next_wakeup w) eqn:E.
  { apply Z.ltb_lt in E. contradiction. }
  unfold bind at 1. cbn [modify]. unfold bind at 1.
  destruct (wakeup_loop _ _ _ _ _ _ _) as [r w2| |]; [|discriminate..].
  unfold wakeup_finish, bind, modify, ret.
  destruct (snd r); intros [= <-]; reflexivity.
Qed.

(** A call that comes too early returns the world as it found it. *)
Lemma wakeup_early call_cb fuel now w :
  now - _last_wakeup w < _next_wakeup w ->
  wakeup call_cb fuel now w = Ok tt w.
Proof.
  intros H. unfold wakeup. unfold bind at 1. cbn [get].
  apply Z.ltb_lt in H. rewrite H. reflexivity.
Qed.

(** C9, as stated, fails when the first of the two calls is itself
    skipped. After a scan at time 2 that leaves [_next_wakeup = 9], the
    call at time 5 returns at once and the call at time 12 comes less than
    [_next_wakeup] later; it scans all the same, since [_last_wakeup] is
    still 2, and the Timer started at time 1 for 10 seconds fires. *)
Lemma wakeup_after_skipped_wakeup_scans :
  exists w w',
    scenario_first_scan initial_world = Ok tt w /\
    wakeup sample_cb 10 5 w = Ok tt w /\
    12 - 5 < _next_wakeup w /\
    wakeup sample_cb 10 12 w = Ok tt w' /\
    _last_wakeup w = 2 /\ _next_wakeup w = 9 /\
    _TIMER_LIST w = [0%nat] /\ trace w = [] /\
    _TIMER_LIST w' = [] /\ trace w' = [EvCall 0%nat 0%nat] /\
    _last_wakeup w' = 12.
Proof.
  do 2 eexists.
  split; [vm_compute; reflexivity|].
  split; [vm_compute; reflexivity|].
  split; [vm_compute; reflexivity|].
  split; [vm_compute; reflexivity|].
  repeat split; vm_compute; reflexivity.
Qed.

(** C9, amended. After a call [wakeup(now1)] that scanned and returned,
    a call [wakeup(now2)] with [now2 - now1 < _next_wakeup] returns at
    once, whatever the fuel: the world, with its timers, its active set,
    both scalars and what was handed to the collaborators, is the one the
    first call left. *)
Theorem wakeup_skips_after_scan call_cb fuel1 fuel2 now1 now2 w w1 :
  ~ (now1 - _last_wakeup w < _next_wakeup w) ->
  wakeup call_cb fuel1 now1 w = Ok tt w1 ->
  now2 - now1 < _next_wakeup w1 ->
  wakeup call_cb fuel2 now2 w1 = Ok tt w1.
Proof.
  intros Hscan H1 H2. apply wakeup_early.
  rewrite (wakeup_scan_last _ _ _ _ _ Hscan H1). exact H2.
Qed.

Lemma wakeup_skips_after_scan_witness :
  (~ (2 - _last_wakeup started_world < _next_wakeup started_world) /\
   wakeup sample_cb 10 2 started_world = Ok tt scanned_world /\
   5 - 2 < _next_wakeup scanned_world) /\
  wakeup sample_cb 0 5 scanned_world = Ok tt scanned_world.
Proof.
  assert (H0 : ~ (2 - _last_wakeup started_world < _next_wakeup started_world))
    by (vm_compute; discriminate).
  assert (H1 : wakeup sample_cb 10 2 started_world = Ok tt scanned_world)
    by (vm_compute; reflexivity).
  assert (H2 : 5 - 2 < _next_wakeup scanned_world) by (vm_compute; reflexivity).
  split; [auto|].
  exact (wakeup_skips_after_scan sample_cb 10 0 2 5 started_world scanned_world H0 H1 H2).
Defined.

(** ** search *)

Lemma Context__intersect_event w self t c idmef :
  heap w !! self = Some (ContextObj t c) ->
  Context__intersect self (arg_of idmef) w
    = Ok (intersect_windows (_time_min c) (_time_max c)
            (fst (derived_window w idmef c)) (snd (derived_window w idmef c))) w.
Proof.
  intros Hh. unfold Context__intersect.
  assert (E : (match arg_of idmef with
               | ArgContext id => c' <- get_context id ;; ret (_time_min c', _time_max c')
               | _ => itime <- Context__getTime (msg_of (arg_of idmef)) ;;
                      c0 <- get_context self ;;
                      ret (itime - expire (_options c0), itime + expire (_options c0))
               end) w = Ok (derived_window w idmef c) w).
  { destruct idmef as [m|]; cbn [arg_of msg_of Context__getTime].
    - unfold bind at 1. cbn [ret].
      rewrite (bind_Ok _ _ _ _ _ (get_context_Some _ _ _ _ Hh)). reflexivity.
    - unfold bind at 1. cbn [time_time].
      rewrite (bind_Ok _ _ _ _ _ (get_context_Some _ _ _ _ Hh)). reflexivity. }
  rewrite (bind_Ok _ _ _ _ _ E).
  rewrite (bind_Ok _ _ _ _ _ (get_context_Some _ _ _ _ Hh)). reflexivity.
Qed.

Lemma Context_checkTimeWindow_event w self t c idmef update :
  heap w !! self = Some (ContextObj t c) ->
  Context_checkTimeWindow self (arg_of idmef) update w
    = if intersects_event w idmef self
      then Ok true (if update then widen_found w idmef (Some self) else w)
      else Ok false w.
Proof.
  intros Hh. unfold Context_checkTimeWindow, intersects_event, lookup_context.
  rewrite (bind_Ok _ _ _ _ _ (Context__intersect_event w self t c idmef Hh)), Hh.
  destruct (intersect_windows _ _ _ _) as [[i0 i1]|] eqn:Ei; [|reflexivity].
  apply intersect_windows_union in Ei. injection Ei as -> ->.
  destruct update; [|reflexivity].
  unfold bind at 1. unfold bind at 1.
  rewrite (bind_Ok _ _ _ _ _ (get_context_Some _ _ _ _ Hh)).
  rewrite (put_context_Some _ _ _ _ _ Hh).
  rewrite (bind_Ok _ _ _ _ _ (get_context_Some _ _ _ _ (heap_store_eq _ _ _))).
  cbn [_time_max set_time_min widen_found]. rewrite Hh. unfold widened.
  destruct (_time_max c =? -1) eqn:E; cbn [negb].
  - apply Z.eqb_eq in E. destruct c; cbn in E |- *. subst. reflexivity.
  - rewrite (put_context_Some _ _ _ _ _ (heap_store_eq _ _ _)), store_store.
    reflexivity.
Qed.

Lemma search_loop_event w l idmef update :
  (forall x, x ∈ l -> is_Some (lookup_context w x)) ->
  search_loop l (arg_of idmef) update w
    = Ok (first_intersecting w idmef l)
         (if update then widen_found w idmef (first_intersecting w idmef l) else w).
Proof.
  induction l as [|x l IH]; intros Hl.
  - cbn. destruct update; reflexivity.
  - cbn [search_loop first_intersecting List.find].
    destruct (Hl x) as [c Hc]; [apply elem_of_cons; auto|].
    unfold lookup_context in Hc.
    destruct (heap w !! x) as [[t0|t0 c0]|] eqn:Hh; try discriminate.
    unfold bind at 1.
    rewrite (Context_checkTimeWindow_event w x t0 c0 idmef update Hh).
    destruct (intersects_event w idmef x); [reflexivity|].
    apply IH. intros y Hy. apply Hl, elem_of_cons. auto.
Qed.

(** X24. On a registry whose bucket for the name holds Contexts,
    [search] returns the first Context of the bucket, in insertion order,
    whose window passes the test [_intersect] makes against the window
    derived from the event. With [update=True] the lookup alone has already widened the
    window of that Context in place, its lower edge down to the lower
    edge of the union, its upper edge up to the one of the union unless it
    is unbounded, and nothing else changed; with [update=False] the world
    is left as it was. *)
Theorem search_returns_first_and_widens w name idmef :
  (forall x, x ∈ bucket w (getName name) -> is_Some (lookup_context w x)) ->
  search name (arg_of idmef) true w
    = Ok (first_intersecting w idmef (bucket w (getName name)))
         (widen_found w idmef (first_intersecting w idmef (bucket w (getName name)))) /\
  search name (arg_of idmef) false w
    = Ok (first_intersecting w idmef (bucket w (getName name))) w.
Proof.
  intros Hl. split.
  - exact (search_loop_event w _ idmef true Hl).
  - exact (search_loop_event w _ idmef false Hl).
Qed.

Lemma widened_window c it :
  _time_min (widened c it) <= _time_min c /\
  _time_min (widened c it) <= fst it /\
  (_time_max c = -1 -> _time_max (widened c it) = -1) /\
  (_time_max c <> -1 ->
   _time_max c <= _time_max (widened c it) /\ snd it <= _time_max (widened c it)).
Proof.
  unfold widened. cbn. repeat split; try lia.
  - intros ->. reflexivity.
  - apply Z.eqb_neq in H. rewrite H. lia.
  - apply Z.eqb_neq in H. rewrite H. lia.
Qed.

(** Windows [0, 10] and [50, 60] with [expire = 5], and an event at time
    48: the first Context fails the test, the second passes it and is
    widened to [43, 60]. *)
Lemma search_returns_first_and_widens_witness :
  (forall x, x ∈ bucket (two_windows_expire 5 (0, 10) (50, 60)) (getName (NameStr "n")) ->
             is_Some (lookup_context (two_windows_expire 5 (0, 10) (50, 60)) x)) /\
  (exists w',
     search (NameStr "n") (arg_of (Some (msg_at 48))) true
            (two_windows_expire 5 (0, 10) (50, 60)) = Ok (Some 1%nat) w' /\
     window w' 1%nat = Some (43, 60) /\ window w' 0%nat = Some (0, 10)) /\
  search (NameStr "n") (arg_of (Some (msg_at 48))) false
         (two_windows_expire 5 (0, 10) (50, 60))
    = Ok (Some 1%nat) (two_windows_expire 5 (0, 10) (50, 60)).
Proof.
  assert (Hl : forall x,
             x ∈ bucket (two_windows_expire 5 (0, 10) (50, 60)) (getName (NameStr "n")) ->
             is_Some (lookup_context (two_windows_expire 5 (0, 10) (50, 60)) x)).
  { intros x Hx.
    change (bucket _ _) with [0%nat; 1%nat] in Hx.
    rewrite !elem_of_cons, elem_of_nil in Hx.
    destruct Hx as [->|[->|[]]]; vm_compute; eauto. }
  destruct (search_returns_first_and_widens
              (two_windows_expire 5 (0, 10) (50, 60)) (NameStr "n") (Some (msg_at 48)) Hl)
    as [Ht Hf].
  split; [exact Hl|]. split.
  - rewrite Ht. eexists. split; [vm_compute; reflexivity|].
    split; vm_compute; reflexivity.
  - rewrite Hf. vm_compute. reflexivity.
Defined.


(** ** update *)

Lemma Timer_running_Some w self o :
  heap w !! self = Some o ->
  Timer_running self w
    = Ok (match _timer_start (timer_of o) with Some _ => true | None => false end) w.
Proof.
  intros Hh. unfold Timer_running.
  rewrite (bind_Ok _ _ _ _ _ (get_timer_Some _ _ _ Hh)). reflexivity.
Qed.

Lemma Timer_start_Some w self o reset :
  heap w !! self = Some o ->
  Timer_start self reset w
    = Ok tt (if (_timer_expire (timer_of o) =? 0)
                || (match _timer_start (timer_of o) with Some _ => true | None => false end
                    && negb reset)
             then w else started self o reset w).
Proof.
  intros Hh. unfold Timer_start.
  rewrite (bind_Ok _ _ _ _ _ (get_timer_Some _ _ _ Hh)).
  rewrite (bind_Ok _ _ _ _ _ (Timer_running_Some _ _ _ Hh)).
  destruct (_ || _); [reflexivity|].
  unfold started.
  set (w1 := if reset then w else set_TIMER_LIST (_TIMER_LIST w ++ [self]) w).
  assert (E1 : (if negb reset
                then modify (fun w => set_TIMER_LIST (_TIMER_LIST w ++ [self]) w)
                else ret tt) w = Ok tt w1).
  { subst w1. destruct reset; reflexivity. }
  rewrite (bind_Ok _ _ _ _ _ E1).
  assert (Hh1 : heap w1 !! self = Some o) by (subst w1; destruct reset; exact Hh).
  assert (Hc : clock w1 = clock w) by (subst w1; destruct reset; reflexivity).
  assert (Hn : _next_wakeup w1 = _next_wakeup w) by (subst w1; destruct reset; reflexivity).
  unfold bind at 1. cbn [time_time].
  rewrite (bind_Ok _ _ _ _ _ (get_timer_Some _ _ _ Hh1)).
  rewrite (bind_Ok _ _ _ _ _ (put_timer_Some _ _ _ _ Hh1)).
  rewrite (bind_Ok _ _ _ _ _ (get_timer_Some _ _ _ (heap_store_eq _ _ _))).
  unfold modify. rewrite Hc.
  change (_next_wakeup (store ?i ?x ?y)) with (_next_wakeup y). rewrite Hn.
  destruct o; reflexivity.
Qed.

Lemma Timer_start_kept w self t c reset :
  heap w !! self = Some (ContextObj t c) ->
  exists w' t',
    Timer_start self reset w = Ok tt w' /\
    heap w' !! self = Some (ContextObj t' c) /\
    trace w' = trace w /\ _CONTEXT_TABLE w' = _CONTEXT_TABLE w.
Proof.
  intros Hh. rewrite (Timer_start_Some _ _ _ reset Hh).
  destruct (_ || _).
  - exists w, t. auto.
  - eexists _, _. split; [reflexivity|]. split; [|split; destruct reset; reflexivity].
    unfold started. cbn [timer_of with_timer].
    change (heap (set_next_wakeup ?z ?x)) with (heap x).
    apply heap_store_eq.
Qed.

Lemma Context_setOptions_kept w self t c options :
  heap w !! self = Some (ContextObj t c) ->
  exists w' t',
    Context_setOptions self options w = Ok tt w' /\
    heap w' !! self
      = Some (ContextObj t' (set_options (dict_update (_options c) options) c)) /\
    trace w' = trace w /\ _CONTEXT_TABLE w' = _CONTEXT_TABLE w.
Proof.
  intros Hh. unfold Context_setOptions.
  assert (E1 : (c0 <- get_context self ;;
                put_context self (set_options (dict_update (_options c0) options) c0)) w
               = Ok tt (store self
                          (ContextObj t (set_options (dict_update (_options c) options) c)) w)).
  { rewrite (bind_Ok _ _ _ _ _ (get_context_Some _ _ _ _ Hh)).
    apply (put_context_Some _ _ _ _ _ Hh). }
  rewrite (bind_Ok _ _ _ _ _ E1). clear E1.
  set (c1 := set_options (dict_update (_options c) options) c).
  assert (E2 : (c0 <- get_context self ;; Timer_setExpire self (expire (_options c0)))
                 (store self (ContextObj t c1) w)
               = Ok tt (store self
                          (ContextObj (mkTimer (_timer_start t) (expire (_options c1))
                                               (_timer_cb t)) c1) w)).
  { rewrite (bind_Ok _ _ _ _ _ (get_context_Some _ _ _ _ (heap_store_eq _ _ _))).
    unfold Timer_setExpire.
    rewrite (bind_Ok _ _ _ _ _ (get_timer_Some _ _ _ (heap_store_eq _ _ _))).
    rewrite (put_timer_Some _ _ _ _ (heap_store_eq _ _ _)), store_store. reflexivity. }
  rewrite (bind_Ok _ _ _ _ _ E2). clear E2.
  destruct (Timer_start_kept
              (store self
                 (ContextObj (mkTimer (_timer_start t) (expire (_options c1)) (_timer_cb t))
                    c1) w)
              self _ c1 false (heap_store_eq _ _ _))
    as (w' & t' & Hs & Hh' & Htr & Htb).
  exists w', t'. auto.
Qed.

Lemma Context_update_rest_kept w self t c options timer_rst :
  heap w !! self = Some (ContextObj t c) ->
  exists w' t',
    Context_update_rest self options timer_rst w = Ok tt w' /\
    heap w' !! self
      = Some (ContextObj t' (set_options (dict_update (_options c) options) c)) /\
    trace w' = trace w /\ _CONTEXT_TABLE w' = _CONTEXT_TABLE w.
Proof.
  intros Hh. unfold Context_update_rest.
  rewrite (bind_Ok _ _ _ _ _ (Timer_running_Some _ _ _ Hh)).
  assert (E : exists w1 t1,
             (if timer_rst && match _timer_start (timer_of (ContextObj t c)) with
                              | Some _ => true | None => false end
              then Timer_reset self else ret tt) w = Ok tt w1 /\
             heap w1 !! self = Some (ContextObj t1 c) /\
             trace w1 = trace w /\ _CONTEXT_TABLE w1 = _CONTEXT_TABLE w).
  { destruct (timer_rst && _).
    - exact (Timer_start_kept w self t c true Hh).
    - exists w, t. auto. }
  destruct E as (w1 & t1 & E & Hh1 & Htr1 & Htb1).
  rewrite (bind_Ok _ _ _ _ _ E).
  destruct (Context_setOptions_kept w1 self t1 c options Hh1)
    as (w' & t' & Hs & Hh' & Htr & Htb).
  exists w', t'. rewrite Htr, Htb. auto.
Qed.

Lemma Context__alert_Some call_cb w self t c :
  heap w !! self = Some (ContextObj t c) ->
  Context__alert call_cb self w
    = match alert_on_expire (_options c) with
      | AoeCallable cb => call_cb cb self (emit (EvCall cb self) w)
      | _ => Context_destroy self (emit (EvAlert self (idmef c)) w)
      end.
Proof.
  intros Hh. unfold Context__alert.
  rewrite (bind_Ok _ _ _ _ _ (get_context_Some _ _ _ _ Hh)).
  destruct (alert_on_expire (_options c)); [| |reflexivity];
    rewrite (bind_Ok _ _ _ _ _ (IDMEF_alert_Some _ _ _ _ Hh)); reflexivity.
Qed.

(** C8, as stated, fails twice. What [update] compares with the cap is
    [_update_count], not the number of accumulated events: a Context
    created from an event and updated 254 times holds 255 events; the
    next update brings the record to 256 events and [_update_count] to
    255, nothing is emitted and the Context stays registered; the update
    after that one, with 257 events, takes the alert path. And the alert
    path is alert-and-destroy only when [alert_on_expire] is not a
    callable: a Context whose [alert_on_expire] is a callable, updated
    until [_update_count] is 256, is handed to the callable, nothing is
    alerted and the Context stays registered. *)
Lemma cap_is_on_update_count :
  (exists w w' w'',
     updates 254 initial_world = Ok tt w /\
     Context_update sample_cb 0%nat no_options (Some (msg_at 100)) false w = Ok tt w' /\
     Context_update sample_cb 0%nat no_options (Some (msg_at 100)) false w' = Ok tt w'' /\
     (fun c => (accumulated_events (idmef c), _update_count c, alert_on_expire (_options c)))
       <$> lookup_context w 0%nat = Some (255, 254, AoeTrue) /\
     (fun c => (accumulated_events (idmef c), _update_count c))
       <$> lookup_context w' 0%nat = Some (256, 255) /\
     trace w' = [] /\ bucket w' "n" = [0%nat] /\
     (fun c => (accumulated_events (idmef c), _update_count c))
       <$> lookup_context w'' 0%nat = Some (257, 256) /\
     length (trace w'') = 1%nat /\ bucket w'' "n" = []) /\
  (exists v v',
     callable_updates 255 initial_world = Ok tt v /\
     Context_update sample_cb 0%nat no_options (Some (msg_at 100)) false v = Ok tt v' /\
     (fun c => (_update_count c, alert_on_expire (_options c)))
       <$> lookup_context v 0%nat = Some (255, AoeCallable 0%nat) /\
     trace v = [] /\
     _update_count <$> lookup_context v' 0%nat = Some 256 /\
     trace v' = [EvCall 0%nat 0%nat] /\ bucket v' "n" = [0%nat]).
Proof.
  split.
  - do 3 eexists.
    split; [vm_compute; reflexivity|].
    split; [vm_compute; reflexivity|].
    split; [vm_compute; reflexivity|].
    repeat split; vm_compute; reflexivity.
  - do 2 eexists.
    split; [vm_compute; reflexivity|].
    split; [vm_compute; reflexivity|].
    repeat split; vm_compute; reflexivity.
Qed.

(** ** Expiry during a scan *)

(** Once [need_delete] is set it stays set. *)
Lemma wakeup_loop_need_delete call_cb fuel now pos i w r w' :
  wakeup_loop call_cb fuel now pos i true w = Ok r w' -> snd r = true.
Proof.
  revert pos i w. induction fuel as [|fuel IH]; intros pos i w; cbn [wakeup_loop].
  - discriminate.
  - unfold bind at 1. cbn [get].
    destruct (_TIMER_LIST w !! pos) as [x|]; [|intros [= <- _]; reflexivity].
    unfold bind at 1.
    destruct (Timer_check call_cb x (Some now) w) as [r1 w1| |]; [|discriminate..].
    destruct (truthy r1).
    + unfold bind at 1. cbn [modify]. apply IH.
    + apply IH.
Qed.

(** The step of the loop on a timer whose [check] reports nothing. *)
Lemma wakeup_loop_falsy call_cb fuel now pos i nd w x r1 w1 :
  _TIMER_LIST w !! pos = Some x ->
  Timer_check call_cb x (Some now) w = Ok r1 w1 ->
  truthy r1 = false ->
  wakeup_loop call_cb (S fuel) now pos i nd w
    = wakeup_loop call_cb fuel now (S pos) (i + 1) true w1.
Proof.
  intros Hx Hc Hr. cbn [wakeup_loop]. unfold bind at 1. cbn [get].
  rewrite Hx. unfold bind at 1. rewrite Hc, Hr. reflexivity.
Qed.

Lemma wakeup_finish_prunes now w w' :
  wakeup_finish now true w = Ok tt w' ->
  forall y, y ∈ _TIMER_LIST w' -> timer_running_in w' y = true.
Proof.
  unfold wakeup_finish, bind, modify. intros [= <-] y Hy.
  cbn in Hy. apply list_elem_of_filter in Hy as [Hy _]. exact Hy.
Qed.

(** The expiry of a registered Context whose [alert_on_expire] is not a
    callable ends in [destroy]. *)
Lemma Context_expiry_destroys call_cb w self t c l :
  heap w !! self = Some (ContextObj t c) ->
  (forall cb, alert_on_expire (_options c) <> AoeCallable cb) ->
  _CONTEXT_TABLE w !! _name c = Some l ->
  self ∈ l ->
  exists w' l',
    Context__timerExpireCallback call_cb self w = Ok tt w' /\
    heap w' !! self
      = Some (ContextObj (mkTimer None (_timer_expire t) (_timer_cb t)) c) /\
    list_remove self l = Some l' /\
    _CONTEXT_TABLE w' = table_without (_name c) l' (_CONTEXT_TABLE w) /\
    trace w'
      = trace w ++
        (if truthy_aoe (alert_on_expire (_options c))
            && ((threshold (_options c) =? -1)
                || (_update_count c + 1 >=? threshold (_options c)))
         then [EvAlert self (idmef c)] else []).
Proof.
  intros Hh Hcb Ht Hin.
  destruct (list_remove_elem self l Hin) as [l' Hl].
  unfold Context__timerExpireCallback.
  rewrite (bind_Ok _ _ _ _ _ (get_context_Some _ _ _ _ Hh)). cbv zeta.
  destruct (truthy_aoe _ && _) eqn:E.
  - rewrite (Context__alert_Some call_cb w self t c Hh).
    destruct (alert_on_expire (_options c)) as [| |cb] eqn:Ea.
    + discriminate.
    + rewrite (Context_destroy_Some (emit (EvAlert self (idmef c)) w) self t c l l' Hh Ht Hl).
      eexists _, l'. split; [reflexivity|].
      split; [apply heap_store_eq|]. split; [exact Hl|]. split; reflexivity.
    + exfalso. exact (Hcb cb eq_refl).
  - rewrite (Context_destroy_Some w self t c l l' Hh Ht Hl).
    eexists _, l'. split; [reflexivity|].
    split; [apply heap_store_eq|]. split; [exact Hl|]. split; [reflexivity|].
    cbn. rewrite app_nil_r. reflexivity.
Qed.

(** C6. An expired Context whose [alert_on_expire] is a callable is
    not disarmed and fires again. A Context created at time 100 with
    [expire = 60] and a callable that returns without touching the
    Context is due at time 200: the scan at time 200 calls the callable,
    the timer is neither stopped nor started again, it keeps its start
    time 100 and stays in [_TIMER_LIST], and the scan at time 201 calls
    the callable a second time. A plain Timer with the same callback and
    the same times is stopped before its callback is called, is dropped
    from [_TIMER_LIST] by the scan at time 200, and a later [check] does
    nothing: [Timer._timerExpireCallback] starts with [self.stop()], the
    method of [Context] that replaces it does not, and only its path
    without a callable ends in [destroy]. *)
Theorem expired_context_fires_again :
  (exists w0 w1 w2,
     scenario_callable 0%nat initial_world = Ok tt w0 /\
     wakeup sample_cb 10 200 w0 = Ok tt w1 /\
     wakeup sample_cb 10 201 w1 = Ok tt w2 /\
     lookup_timer w0 0%nat = Some (mkTimer (Some 100) 60 None) /\
     lookup_timer w1 0%nat = Some (mkTimer (Some 100) 60 None) /\
     lookup_timer w2 0%nat = Some (mkTimer (Some 100) 60 None) /\
     _TIMER_LIST w1 = [0%nat] /\
     trace w0 = [] /\
     trace w1 = [EvCall 0%nat 0%nat] /\
     trace w2 = [EvCall 0%nat 0%nat; EvCall 0%nat 0%nat]) /\
  (exists v0 v1 v2,
     scenario_timer 0%nat initial_world = Ok tt v0 /\
     wakeup sample_cb 10 200 v0 = Ok tt v1 /\
     Timer_check sample_cb 0%nat (Some 201) v1 = Ok None v2 /\
     lookup_timer v0 0%nat = Some (mkTimer (Some 100) 60 (Some 0%nat)) /\
     lookup_timer v1 0%nat = Some (mkTimer None 60 (Some 0%nat)) /\
     _TIMER_LIST v1 = [] /\
     trace v1 = [EvCall 0%nat 0%nat] /\
     trace v2 = [EvCall 0%nat 0%nat]).
Proof.
  split.
  - do 3 eexists.
    split; [vm_compute; reflexivity|].
    split; [vm_compute; reflexivity|].
    split; [vm_compute; reflexivity|].
    repeat split; vm_compute; reflexivity.
  - do 3 eexists.
    split; [vm_compute; reflexivity|].
    split; [vm_compute; reflexivity|].
    split; [vm_compute; reflexivity|].
    repeat split; vm_compute; reflexivity.
Qed.

(** X23. What disarms an expired timer. A timer is due when it was
    started, at a time other than 0, which [check] takes for a timer that
    does not run, and the time since then has reached its expiry. (1)
    When a plain Timer is due, [check] stops it, then calls its callback
    once, catching what it raises, and reports the remaining time if the
    timer runs again, nothing otherwise. (2) When the timer of a
    registered Context is due and [alert_on_expire] is not a callable,
    [check] returns nothing: the
    Context is destroyed, which stops its timer and takes it out of its
    bucket, after its alert was emitted once if the threshold allows and
    not at all otherwise. (3) The [check] of a timer that is not running
    does nothing, so a stopped timer does not fire again until it is
    started again. *)
Theorem expiry_disarms call_cb :
  (forall w self t s now,
     heap w !! self = Some (TimerObj t) ->
     _timer_start t = Some s -> s <> 0 ->
     effective_now now w - s >= _timer_expire t ->
     Timer_check call_cb self now w
       = (guarded_callback call_cb self (_timer_cb t) ;;;
          check_report self (effective_now now w - s))
           (store self (TimerObj (mkTimer None (_timer_expire t) (_timer_cb t))) w)) /\
  (forall w self t c s now l,
     heap w !! self = Some (ContextObj t c) ->
     _timer_start t = Some s -> s <> 0 ->
     effective_now now w - s >= _timer_expire t ->
     (forall cb, alert_on_expire (_options c) <> AoeCallable cb) ->
     _CONTEXT_TABLE w !! _name c = Some l ->
     self ∈ l ->
     exists w' l',
       Timer_check call_cb self now w = Ok None w' /\
       lookup_timer w' self = Some (mkTimer None (_timer_expire t) (_timer_cb t)) /\
       list_remove self l = Some l' /\
       _CONTEXT_TABLE w' = table_without (_name c) l' (_CONTEXT_TABLE w) /\
       trace w'
         = trace w ++
           (if truthy_aoe (alert_on_expire (_options c))
               && ((threshold (_options c) =? -1)
                   || (_update_count c + 1 >=? threshold (_options c)))
            then [EvAlert self (idmef c)] else [])) /\
  (forall w self o now,
     heap w !! self = Some o ->
     _timer_start (timer_of o) = None ->
     Timer_check call_cb self now w = Ok None w).
Proof.
  split; [|split].
  - intros w self t s now Hh Hs Hs0 Hdue.
    rewrite (Timer_check_running call_cb w self _ s now Hh Hs Hs0). cbn [timer_of].
    assert (E : (effective_now now w - s >=? _timer_expire t) = true)
      by (rewrite Z.geb_leb; apply Z.leb_le; lia).
    rewrite E. unfold bind at 1.
    rewrite (dispatch_plain call_cb w self t Hh).
    rewrite (Timer__timerExpireCallback_plain call_cb w self t Hh).
    reflexivity.
  - intros w self t c s now l Hh Hs Hs0 Hdue Hcb Ht Hin.
    rewrite (Timer_check_running call_cb w self _ s now Hh Hs Hs0). cbn [timer_of].
    assert (E : (effective_now now w - s >=? _timer_expire t) = true)
      by (rewrite Z.geb_leb; apply Z.leb_le; lia).
    rewrite E. unfold bind at 1.
    rewrite (dispatch_context call_cb w self t c Hh).
    destruct (Context_expiry_destroys call_cb w self t c l Hh Hcb Ht Hin)
      as (w' & l' & Hx & Hh' & Hl & Htb & Htr).
    rewrite Hx. exists w', l'. split.
    + unfold check_report. rewrite (bind_Ok _ _ _ _ _ (get_timer_Some _ _ _ Hh')).
      reflexivity.
    + unfold lookup_timer. rewrite Hh'. auto.
  - intros w self o now Hh Hs.
    apply (Timer_check_stopped call_cb w self o now Hh). rewrite Hs. reflexivity.
Qed.

(** A plain Timer and a Context with the built-in alert, both started at
    time 100 for 60 seconds and checked at time 200. *)
Lemma expiry_disarms_witness :
  (heap timer_world !! 0%nat = Some (TimerObj (mkTimer (Some 100) 60 (Some 0%nat))) /\
   100 <> 0 /\
   effective_now (Some 200) timer_world - 100 >= 60) /\
  (exists w',
     Timer_check sample_cb 0%nat (Some 200) timer_world = Ok None w' /\
     trace w' = [EvCall 0%nat 0%nat] /\
     lookup_timer w' 0%nat = Some (mkTimer None 60 (Some 0%nat)) /\
     Timer_check sample_cb 0%nat (Some 300) w' = Ok None w') /\
  (exists w',
     Timer_check sample_cb 0%nat (Some 200) (threshold_world 2) = Ok None w' /\
     trace w' = [EvAlert 0%nat (mkRecord ["src"] ["dst"] ["id"])] /\
     lookup_timer w' 0%nat = Some (mkTimer None 60 None) /\
     bucket w' "n" = []).
Proof.
  destruct (expiry_disarms sample_cb) as (HA & HB & HC).
  assert (Hh : heap timer_world !! 0%nat
               = Some (TimerObj (mkTimer (Some 100) 60 (Some 0%nat))))
    by (vm_compute; reflexivity).
  assert (H100 : 100 <> 0) by lia.
  assert (Hdue : effective_now (Some 200) timer_world - 100 >= 60)
    by (vm_compute; discriminate).
  split; [auto|]. split.
  - rewrite (HA timer_world 0%nat _ 100 (Some 200) Hh eq_refl H100 Hdue).
    eexists. split; [vm_compute; reflexivity|].
    split; [vm_compute; reflexivity|]. split; [vm_compute; reflexivity|].
    eapply HC; vm_compute; reflexivity.
  - assert (Hin : 0%nat ∈ [0%nat]) by (apply elem_of_cons; auto).
    assert (Hd2 : effective_now (Some 200) (threshold_world 2) - 100 >= 60)
      by (vm_compute; discriminate).
    destruct (HB (threshold_world 2) 0%nat _ _ 100 (Some 200) [0%nat]
                eq_refl eq_refl H100 Hd2 ltac:(discriminate) eq_refl Hin)
      as (w' & l' & Hc & Ht & Hl & Htb & Htr).
    exists w'. split; [exact Hc|]. split; [exact Htr|]. split; [exact Ht|].
    unfold bucket. rewrite Htb. injection Hl as <-. reflexivity.
Defined.

(** ** Names *)

Lemma append_String c s1 s2 : String c s1 +:+ s2 = String c (s1 +:+ s2).
Proof. reflexivity. Qed.

Lemma append_assoc (s1 s2 s3 : string) : (s1 +:+ s2) +:+ s3 = s1 +:+ (s2 +:+ s3).
Proof.
  induction s1 as [|c s1 IH]; [reflexivity|].
  rewrite !append_String, IH. reflexivity.
Qed.

Lemma escape_well_escaped s prev : well_escaped prev (escape s) = true.
Proof.
  revert prev. induction s as [|c s IH]; intros prev; [reflexivity|].
  cbn [escape]. destruct (Ascii.eqb c "_"%char) eqn:E.
  - cbn [well_escaped]. change (Ascii.eqb "\"%char "_"%char) with false.
    cbn iota. change (Ascii.eqb "_"%char "_"%char) with true. cbn iota.
    change (Ascii.eqb "\"%char "\"%char) with true. cbn [andb]. apply IH.
  - cbn [well_escaped]. rewrite E. apply IH.
Qed.

Lemma escape_ends_with_backslash s prev :
  ends_with_backslash prev (escape s) = ends_with_backslash prev s.
Proof.
  revert prev. induction s as [|c s IH]; intros prev; [reflexivity|].
  cbn [escape]. destruct (Ascii.eqb c "_"%char) eqn:E.
  - apply Ascii.eqb_eq in E. subst c. cbn [ends_with_backslash].
    change (Ascii.eqb "_"%char "\"%char) with false. apply IH.
  - cbn [ends_with_backslash]. apply IH.
Qed.

Lemma separator_not_escaped x y prev :
  ends_with_backslash prev x = false ->
  well_escaped prev (x +:+ "_" +:+ y) = false.
Proof.
  revert prev. induction x as [|c x IH]; intros prev H.
  - cbn in H. subst prev. reflexivity.
  - rewrite append_String. cbn [well_escaped ends_with_backslash] in *.
    destruct (Ascii.eqb c "_"%char) eqn:E.
    + apply Ascii.eqb_eq in E. subst c.
      change (Ascii.eqb "_"%char "\"%char) with false in H.
      rewrite (IH false H). apply andb_false_r.
    + apply IH, H.
Qed.

Lemma getName_loop_appends l cnt name :
  cnt > 0 -> exists y, getName_loop cnt name l = name +:+ y.
Proof.
  revert cnt name. induction l as [|v l IH]; intros cnt name Hc; cbn [getName_loop].
  - exists EmptyString. clear. induction name as [|c n IHn]; [reflexivity|].
    rewrite append_String, <- IHn. reflexivity.
  - assert (E : (cnt >? 0) = true) by (apply Z.gtb_lt; lia). rewrite E.
    destruct (IH (cnt + 1) ((name +:+ "_") +:+ escape (py_str v)) ltac:(lia)) as [y Hy].
    exists ("_" +:+ escape (py_str v) +:+ y).
    rewrite Hy, !append_assoc. reflexivity.
Qed.

(** A sequence of two components or more whose first component does not
    end with a backslash never gets the name of a single string. *)
Lemma getName_sequence_distinct v v' l s :
  ends_with_backslash false (py_str v) = false ->
  getName (NameSeq (v :: v' :: l)) <> getName (NameStr s).
Proof.
  intros Hv Heq. cbn [getName getName_loop] in Heq.
  change (0 >? 0) with false in Heq. change (0 + 1 >? 0) with true in Heq.
  cbn iota in Heq.
  destruct (getName_loop_appends l (0 + 1 + 1)
              ((("" +:+ escape (py_str v)) +:+ "_") +:+ escape (py_str v')) ltac:(lia))
    as [y Hy].
  rewrite Hy in Heq.
  change ("" +:+ escape (py_str v)) with (escape (py_str v)) in Heq.
  rewrite !append_assoc in Heq.
  pose proof (escape_well_escaped s false) as Hs. rewrite <- Heq in Hs.
  rewrite separator_not_escaped in Hs; [discriminate|].
  rewrite escape_ends_with_backslash. exact Hv.
Qed.

(** C7. The escaping leaves the backslash alone, so a component that
    ends with one swallows the separator: the sequence of "a\" and "b"
    and the single string "a_b" get the same name. The example of the
    specification holds: the sequence of "a_b" and "c" and the string
    "a_b_c" get different names. *)
Theorem getName_collision :
  getName (NameSeq [PyStr "a\"; PyStr "b"]) = getName (NameStr "a_b") /\
  getName (NameSeq [PyStr "a\"; PyStr "b"]) = "a\_b" /\
  getName (NameSeq [PyStr "a_b"; PyStr "c"]) = "a\_b_c" /\
  getName (NameStr "a_b_c") = "a\_b\_c".
Proof. repeat split; reflexivity. Qed.

(** * Further properties of the module *)

(** ** getName, continued *)

Lemma append_empty_r (s : string) : s +:+ "" = s.
Proof.
  induction s as [|c s IH]; [reflexivity|].
  rewrite append_String, IH. reflexivity.
Qed.

Lemma getName_loop_join l cnt name :
  cnt > 0 ->
  getName_loop cnt name l
    = name +:+ match l with [] => "" | _ => "_" +:+ join_escaped l end.
Proof.
  revert cnt name. induction l as [|v l IH]; intros cnt name Hc; cbn [getName_loop].
  - rewrite append_empty_r. reflexivity.
  - assert (E : (cnt >? 0) = true) by (apply Z.gtb_lt; lia). rewrite E.
    rewrite (IH (cnt + 1) _ ltac:(lia)), !append_assoc.
    unfold join_escaped. cbn [map String.concat].
    destruct l as [|v' l]; [rewrite append_empty_r|]; reflexivity.
Qed.

(** X1. The loop of [getName] over a sequence builds the escaped
    components joined by underscores: nothing before the first one,
    nothing after the last one, and the empty string for the empty
    sequence. *)
Theorem getName_sequence_is_join l :
  getName (NameSeq l) = join_escaped l.
Proof.
  destruct l as [|v l]; [reflexivity|].
  cbn [getName getName_loop]. change (0 >? 0) with false. cbv iota.
  rewrite (getName_loop_join l (0 + 1) _ ltac:(lia)).
  unfold join_escaped. cbn [map String.concat].
  destruct l as [|v' l]; [rewrite append_empty_r|]; reflexivity.
Qed.

Lemma escape_first_not_underscore s r : escape s <> String "_"%char r.
Proof.
  destruct s as [|c s]; [discriminate|]. cbn [escape].
  destruct (Ascii.eqb c "_"%char) eqn:E; [discriminate|].
  intros [= -> _]. discriminate.
Qed.

(** X2. The names of two different single strings differ: the escaping
    loses nothing. *)
Theorem getName_string_injective s1 s2 :
  s1 <> s2 -> getName (NameStr s1) <> getName (NameStr s2).
Proof.
  intros Hne Heq. apply Hne. clear Hne. revert s2 Heq. cbn [getName].
  induction s1 as [|c1 s1 IH]; intros [|c2 s2]; cbn [escape].
  - reflexivity.
  - destruct (Ascii.eqb c2 "_"%char); discriminate.
  - destruct (Ascii.eqb c1 "_"%char); discriminate.
  - destruct (Ascii.eqb c1 "_"%char) eqn:E1, (Ascii.eqb c2 "_"%char) eqn:E2.
    + apply Ascii.eqb_eq in E1, E2. subst. intros [= H]. f_equal. apply IH, H.
    + intros [= <- H]. exfalso. exact (escape_first_not_underscore _ _ (eq_sym H)).
    + intros [= -> H]. exfalso. exact (escape_first_not_underscore _ _ H).
    + intros [= <- H]. f_equal. apply IH, H.
Qed.

Lemma getName_string_injective_witness :
  "a_b" <> "a\_b" /\ getName (NameStr "a_b") <> getName (NameStr "a\_b").
Proof.
  assert (H : "a_b" <> "a\_b") by discriminate.
  split; [exact H|]. exact (getName_string_injective "a_b" "a\_b" H).
Defined.

(** ** Timer, continued *)

(** X3. A [start()] that follows a [start] or a [reset] changes nothing:
    the timer is not registered a second time and keeps its start time. *)
Theorem start_after_start_is_noop w self o reset :
  heap w !! self = Some o ->
  (Timer_start self reset ;;; Timer_start self false) w = Timer_start self reset w.
Proof.
  intros Hh. unfold bind at 1. rewrite (Timer_start_Some w self o reset Hh).
  destruct ((_timer_expire (timer_of o) =? 0)
            || (match _timer_start (timer_of o) with Some _ => true | None => false end
                && negb reset)) eqn:E.
  - rewrite (Timer_start_Some w self o false Hh).
    apply orb_true_iff in E as [E|E].
    + rewrite E. reflexivity.
    + apply andb_true_iff in E as [E1 E2]. rewrite E1, orb_true_r. reflexivity.
  - apply orb_false_iff in E as [E _].
    assert (Hh' : heap (started self o reset w) !! self
                  = Some (with_timer o (mkTimer (Some (clock w))
                                          (_timer_expire (timer_of o))
                                          (_timer_cb (timer_of o)))))
      by (unfold started; apply heap_store_eq).
    rewrite (Timer_start_Some _ self _ false Hh').
    destruct o; cbn [timer_of with_timer _timer_start _timer_expire];
      rewrite orb_true_r; reflexivity.
Qed.

Lemma start_after_start_is_noop_witness :
  heap timer_world !! 0%nat = Some (TimerObj (mkTimer (Some 100) 60 (Some 0%nat))) /\
  (Timer_start 0%nat true ;;; Timer_start 0%nat false) timer_world
    = Timer_start 0%nat true timer_world.
Proof.
  assert (Hh : heap timer_world !! 0%nat
               = Some (TimerObj (mkTimer (Some 100) 60 (Some 0%nat))))
    by (vm_compute; reflexivity).
  split; [exact Hh|]. exact (start_after_start_is_noop timer_world 0%nat _ true Hh).
Defined.

(** X4. [stop()] followed by [start()] appends the timer to
    [_TIMER_LIST] whether or not it is already there, whereas [reset()]
    never touches the list, also when the timer is not in it; both leave
    the timer started at the current time. *)
Theorem stop_start_registers_again w self o :
  heap w !! self = Some o ->
  _timer_expire (timer_of o) <> 0 ->
  (exists w1,
     (Timer_stop self ;;; Timer_start self false) w = Ok tt w1 /\
     _TIMER_LIST w1 = _TIMER_LIST w ++ [self] /\
     lookup_timer w1 self
       = Some (mkTimer (Some (clock w)) (_timer_expire (timer_of o)) (_timer_cb (timer_of o)))) /\
  (exists w2,
     Timer_reset self w = Ok tt w2 /\
     _TIMER_LIST w2 = _TIMER_LIST w /\
     lookup_timer w2 self
       = Some (mkTimer (Some (clock w)) (_timer_expire (timer_of o)) (_timer_cb (timer_of o)))).
Proof.
  intros Hh He. apply Z.eqb_neq in He. split.
  - rewrite (bind_Ok _ _ _ _ _ (Timer_stop_Some w self o Hh)).
    rewrite (Timer_start_Some _ self _ false (heap_store_eq _ _ _)).
    destruct o as [t|t c]; cbn [timer_of with_timer _timer_start _timer_expire _timer_cb] in *;
      rewrite He; cbn [orb andb];
      (eexists; split; [reflexivity|]; split; [reflexivity|]);
      unfold lookup_timer, started; cbn [timer_of with_timer];
      change (heap (set_next_wakeup ?z ?x)) with (heap x);
      rewrite heap_store_eq; reflexivity.
  - unfold Timer_reset. rewrite (Timer_start_Some w self o true Hh), He.
    rewrite andb_false_r. cbn [orb].
    eexists. split; [reflexivity|]. split; [reflexivity|].
    unfold lookup_timer, started.
    change (heap (set_next_wakeup ?z ?x)) with (heap x).
    rewrite heap_store_eq. destruct o; reflexivity.
Qed.

Lemma stop_start_registers_again_witness :
  (heap timer_world !! 0%nat = Some (TimerObj (mkTimer (Some 100) 60 (Some 0%nat))) /\
   60 <> 0) /\
  (exists w1,
     (Timer_stop 0%nat ;;; Timer_start 0%nat false) timer_world = Ok tt w1 /\
     _TIMER_LIST w1 = [0%nat; 0%nat]) /\
  (exists w2, Timer_reset 0%nat timer_world = Ok tt w2 /\ _TIMER_LIST w2 = [0%nat]).
Proof.
  assert (Hh : heap timer_world !! 0%nat
               = Some (TimerObj (mkTimer (Some 100) 60 (Some 0%nat))))
    by (vm_compute; reflexivity).
  assert (He : 60 <> 0) by lia.
  split; [auto|].
  destruct (stop_start_registers_again timer_world 0%nat _ Hh He)
    as [(w1 & H1 & L1 & _) (w2 & H2 & L2 & _)].
  split; [exists w1 | exists w2]; (split; [assumption|]).
  - rewrite L1. reflexivity.
  - rewrite L2. reflexivity.
Defined.

(** X5. A timer that [start] arms is not slept over: if the last scan
    was not later than the current time, every [wakeup(now)] with [now]
    at least [expire] past the current time passes the early return. The
    timer is started at the current time, and [_next_wakeup] is lowered
    to [expire] at most. *)
Theorem started_timer_gets_scanned w self o reset now :
  heap w !! self = Some o ->
  _timer_expire (timer_of o) <> 0 ->
  _timer_start (timer_of o) = None \/ reset = true ->
  _last_wakeup w <= clock w ->
  now - clock w >= _timer_expire (timer_of o) ->
  exists w',
    Timer_start self reset w = Ok tt w' /\
    lookup_timer w' self
      = Some (mkTimer (Some (clock w)) (_timer_expire (timer_of o)) (_timer_cb (timer_of o))) /\
    _next_wakeup w' = Z.min (_next_wakeup w) (_timer_expire (timer_of o)) /\
    _last_wakeup w' = _last_wakeup w /\
    ~ (now - _last_wakeup w' < _next_wakeup w').
Proof.
  intros Hh He Hs Hl Hd. rewrite (Timer_start_Some w self o reset Hh).
  apply Z.eqb_neq in He. rewrite He. cbn [orb].
  assert (E : (match _timer_start (timer_of o) with Some _ => true | None => false end
               && negb reset) = false).
  { destruct Hs as [-> | ->]; [reflexivity | apply andb_false_r]. }
  rewrite E. eexists. split; [reflexivity|].
  assert (Hn : _next_wakeup (started self o reset w)
               = Z.min (_next_wakeup w) (_timer_expire (timer_of o))) by reflexivity.
  assert (Hlw : _last_wakeup (started self o reset w) = _last_wakeup w)
    by (unfold started; destruct reset; reflexivity).
  split; [|split; [exact Hn|split; [exact Hlw|]]].
  - unfold lookup_timer, started.
    change (heap (set_next_wakeup ?z ?x)) with (heap x).
    rewrite heap_store_eq. destruct o; reflexivity.
  - rewrite Hn, Hlw. lia.
Qed.

Lemma started_timer_gets_scanned_witness :
  (heap timer_world !! 0%nat = Some (TimerObj (mkTimer (Some 100) 60 (Some 0%nat))) /\
   60 <> 0 /\ _last_wakeup timer_world <= clock timer_world /\
   170 - clock timer_world >= 60) /\
  exists w',
    Timer_start 0%nat true timer_world = Ok tt w' /\
    ~ (170 - _last_wakeup w' < _next_wakeup w').
Proof.
  assert (Hh : heap timer_world !! 0%nat
               = Some (TimerObj (mkTimer (Some 100) 60 (Some 0%nat))))
    by (vm_compute; reflexivity).
  assert (He : 60 <> 0) by lia.
  assert (Hl : _last_wakeup timer_world <= clock timer_world)
    by (vm_compute; discriminate).
  assert (Hd : 170 - clock timer_world >= 60) by (vm_compute; discriminate).
  split; [auto|].
  destruct (started_timer_gets_scanned timer_world 0%nat _ true 170 Hh He
              (or_intror eq_refl) Hl Hd) as (w' & Hs & _ & _ & _ & Hscan).
  exists w'. auto.
Defined.

(** X6. [elapsed] and [hasExpired] need a started timer: on a timer
    whose start time is [None] both raise [TypeError] and leave the world
    alone, where [check] returns nothing; on a started timer [hasExpired]
    tells whether the time since the start has reached [expire]. *)
Theorem hasExpired_needs_started_timer call_cb w self o now :
  heap w !! self = Some o ->
  (_timer_start (timer_of o) = None ->
   Timer_elapsed self now w = Raise TypeError w /\
   Timer_hasExpired self now w = Raise TypeError w /\
   Timer_check call_cb self now w = Ok None w) /\
  (forall s, _timer_start (timer_of o) = Some s ->
   Timer_hasExpired self now w
     = Ok (effective_now now w - s >=? _timer_expire (timer_of o)) w).
Proof.
  intros Hh. split.
  - intros Hs.
    assert (El : forall n, Timer_elapsed self n w = Raise TypeError w).
    { intros n. unfold Timer_elapsed.
      rewrite (bind_Ok _ _ _ _ _ (now_or_time_eq n w)).
      rewrite (bind_Ok _ _ _ _ _ (get_timer_Some _ _ _ Hh)), Hs. reflexivity. }
    split; [apply El|]. split.
    + unfold Timer_hasExpired.
      rewrite (bind_Ok _ _ _ _ _ (now_or_time_eq now w)).
      rewrite (bind_Raise _ _ _ _ _ (El _)). reflexivity.
    + apply (Timer_check_stopped call_cb w self o now Hh). rewrite Hs. reflexivity.
  - intros s Hs. unfold Timer_hasExpired.
    rewrite (bind_Ok _ _ _ _ _ (now_or_time_eq now w)).
    rewrite (bind_Ok _ _ _ _ _ (Timer_elapsed_Some _ _ _ _ _ Hh Hs)).
    rewrite effective_now_idem.
    rewrite (bind_Ok _ _ _ _ _ (get_timer_Some _ _ _ Hh)). reflexivity.
Qed.

Lemma hasExpired_needs_started_timer_witness :
  heap timer_world !! 0%nat = Some (TimerObj (mkTimer (Some 100) 60 (Some 0%nat))) /\
  Timer_hasExpired 0%nat (Some 159) timer_world = Ok false timer_world /\
  Timer_hasExpired 0%nat (Some 160) timer_world = Ok true timer_world.
Proof.
  assert (Hh : heap timer_world !! 0%nat
               = Some (TimerObj (mkTimer (Some 100) 60 (Some 0%nat))))
    by (vm_compute; reflexivity).
  split; [exact Hh|]. split.
  - exact (proj2 (hasExpired_needs_started_timer sample_cb timer_world 0%nat _
                    (Some 159) Hh) 100 eq_refl).
  - exact (proj2 (hasExpired_needs_started_timer sample_cb timer_world 0%nat _
                    (Some 160) Hh) 100 eq_refl).
Defined.

(** ** wakeup, continued *)

Lemma least_remaining_le w now l acc :
  least_remaining w now l acc <= acc /\
  forall x, x ∈ l -> least_remaining w now l acc <= remaining_of w now x.
Proof.
  revert acc. induction l as [|y l IH]; intros acc; cbn.
  - split; [lia|]. intros x Hx. inversion Hx.
  - destruct (IH (Z.min (remaining_of w now y) acc)) as [H1 H2].
    fold (least_remaining w now l (Z.min (remaining_of w now y) acc)).
    split; [lia|]. intros x Hx. apply elem_of_cons in Hx as [->|Hx]; [lia|].
    apply H2, Hx.
Qed.

Lemma Timer_check_pending call_cb w now x k :
  now <> 0 ->
  pending w now x ->
  Timer_check call_cb x (Some now) (set_next_wakeup k w)
    = Ok (Some (remaining_of w now x)) (set_next_wakeup k w) /\
  remaining_of w now x > 0.
Proof.
  intros Hnow (o & s & Hh & Hs & Hs0 & Hd).
  assert (Hr : remaining_of w now x = _timer_expire (timer_of o) - (now - s)).
  { unfold remaining_of, lookup_timer. rewrite Hh. cbn. rewrite Hs. reflexivity. }
  split; [|lia].
  assert (Hh' : heap (set_next_wakeup k w) !! x = Some o) by exact Hh.
  rewrite (Timer_check_running call_cb _ x o s (Some now) Hh' Hs Hs0).
  assert (En : effective_now (Some now) (set_next_wakeup k w) = now).
  { unfold effective_now. cbn. apply Z.eqb_neq in Hnow. rewrite Hnow. reflexivity. }
  rewrite En.
  assert (E : (now - s >=? _timer_expire (timer_of o)) = false)
    by (rewrite Z.geb_leb; apply Z.leb_gt; lia).
  rewrite E. unfold bind at 1. cbn [ret]. unfold check_report.
  rewrite (bind_Ok _ _ _ _ _ (get_timer_Some _ _ _ Hh')), Hs. cbn [truthy].
  apply Z.eqb_neq in Hs0. rewrite Hs0, Hr. reflexivity.
Qed.

Lemma wakeup_loop_pending call_cb w now suf :
  now <> 0 ->
  forall pre fuel i nd k,
    _TIMER_LIST w = pre ++ suf ->
    (forall x, x ∈ suf -> pending w now x) ->
    (length suf < fuel)%nat ->
    wakeup_loop call_cb fuel now (length pre) i nd (set_next_wakeup k w)
      = Ok (i, nd) (set_next_wakeup (least_remaining w now suf k) w).
Proof.
  intros Hnow. induction suf as [|x suf IH]; intros pre fuel i nd k Hl Hp Hf;
    (destruct fuel as [|fuel]; [cbn in Hf; lia|]); cbn [wakeup_loop];
    unfold bind at 1; cbn [get];
    change (_TIMER_LIST (set_next_wakeup k w)) with (_TIMER_LIST w); rewrite Hl.
  - rewrite app_nil_r, lookup_ge_None_2 by lia. reflexivity.
  - rewrite list_lookup_middle by reflexivity.
    destruct (Timer_check_pending call_cb w now x k Hnow (Hp x ltac:(apply elem_of_cons; auto)))
      as [Hc Hpos].
    unfold bind at 1. rewrite Hc.
    assert (Ht : truthy (Some (remaining_of w now x)) = true).
    { cbn. apply negb_true_iff, Z.eqb_neq. lia. }
    rewrite Ht. unfold bind at 1. cbn [modify default].
    change (set_next_wakeup ?a (set_next_wakeup ?b w)) with (set_next_wakeup a w).
    change (_next_wakeup (set_next_wakeup k w)) with k. unfold id.
    replace (S (length pre)) with (length (pre ++ [x])) by (rewrite length_app; cbn; lia).
    rewrite (IH (pre ++ [x]) fuel i nd (Z.min (remaining_of w now x) k)).
    + reflexivity.
    + rewrite <- app_assoc. exact Hl.
    + intros y Hy. apply Hp, elem_of_cons. auto.
    + cbn in Hf. lia.
Qed.

(** X7. A scan at a time when every timer of the active set runs and
    none is due fires nothing and drops nothing: with fuel for one step
    more than the list is long, [wakeup] returns a world that differs from
    the one it found by the two scalars only, [_last_wakeup = now] and
    [_next_wakeup] the least remaining time (or [sys.maxsize] for an empty
    list), which is at most the time left of every timer. *)
Theorem wakeup_none_due call_cb w now :
  now <> 0 ->
  ~ (now - _last_wakeup w < _next_wakeup w) ->
  (forall x, x ∈ _TIMER_LIST w -> pending w now x) ->
  wakeup call_cb (S (length (_TIMER_LIST w))) now w
    = Ok tt (set_last_wakeup now
               (set_next_wakeup (least_remaining w now (_TIMER_LIST w) sys_maxsize) w)) /\
  forall x, x ∈ _TIMER_LIST w ->
            least_remaining w now (_TIMER_LIST w) sys_maxsize <= remaining_of w now x.
Proof.
  intros Hnow Hscan Hp. split; [|apply least_remaining_le].
  unfold wakeup. unfold bind at 1. cbn [get].
  assert (E : (now - _last_wakeup w <? _next_wakeup w) = false)
    by (apply Z.ltb_ge; lia).
  rewrite E. unfold bind at 1. cbn [modify]. unfold bind at 1.
  pose proof (wakeup_loop_pending call_cb w now (_TIMER_LIST w) Hnow [] _ 0 false
                sys_maxsize eq_refl Hp (Nat.lt_succ_diag_r _)) as Hloop.
  change (@length ObjId []) with 0%nat in Hloop. rewrite Hloop.
  reflexivity.
Qed.

Lemma wakeup_none_due_witness :
  (150 <> 0 /\ ~ (150 - _last_wakeup timer_world < _next_wakeup timer_world) /\
   forall x, x ∈ _TIMER_LIST timer_world -> pending timer_world 150 x) /\
  exists w',
    wakeup sample_cb 2 150 timer_world = Ok tt w' /\
    _next_wakeup w' = 10 /\ _last_wakeup w' = 150 /\
    _TIMER_LIST w' = [0%nat] /\ trace w' = [].
Proof.
  assert (Hnow : 150 <> 0) by lia.
  assert (Hscan : ~ (150 - _last_wakeup timer_world < _next_wakeup timer_world))
    by (vm_compute; discriminate).
  assert (Hp : forall x, x ∈ _TIMER_LIST timer_world -> pending timer_world 150 x).
  { intros x Hx. change (_TIMER_LIST timer_world) with [0%nat] in Hx.
    apply list_elem_of_singleton in Hx as ->.
    exists (TimerObj (mkTimer (Some 100) 60 (Some 0%nat))), 100.
    split; [vm_compute; reflexivity|]. split; [reflexivity|].
    split; [lia|]. cbn. lia. }
  split; [auto|].
  destruct (wakeup_none_due sample_cb timer_world 150 Hnow Hscan Hp) as [Hw _].
  change (S (length (_TIMER_LIST timer_world))) with 2%nat in Hw.
  rewrite Hw. eexists. split; [reflexivity|].
  repeat split; vm_compute; reflexivity.
Defined.

(** ** The registry *)

Lemma list_remove_not_elem x l : x ∉ l -> list_remove x l = None.
Proof.
  induction l as [|y l IH]; intros H; [reflexivity|]. cbn.
  destruct (decide (y = x)) as [->|Hy].
  - exfalso. apply H, elem_of_cons. auto.
  - rewrite IH; [reflexivity|]. intros Hx. apply H, elem_of_cons. auto.
Qed.

Lemma list_remove_keeps_NoDup x l l' :
  NoDup l -> list_remove x l = Some l' -> NoDup l'.
Proof.
  revert l'. induction l as [|y l IH]; intros l' Hnd H; cbn in H; [discriminate|].
  apply NoDup_cons in Hnd as [Hy Hnd].
  destruct (decide (y = x)) as [->|Hyx]; [injection H as <-; exact Hnd|].
  destruct (list_remove x l) as [r|] eqn:E; [|discriminate]. injection H as <-.
  apply NoDup_cons. split; [|exact (IH r Hnd eq_refl)].
  intros Hin. apply Hy. exact (proj1 (list_remove_other x l r y E Hyx) Hin).
Qed.

Lemma list_remove_subset x l l' y :
  list_remove x l = Some l' -> y ∈ l' -> y ∈ l.
Proof.
  revert l'. induction l as [|z l IH]; intros l' H Hy; cbn in H; [discriminate|].
  destruct (decide (z = x)) as [->|Hz].
  - injection H as <-. apply elem_of_cons. auto.
  - destruct (list_remove x l) as [r|] eqn:E; [|discriminate]. injection H as <-.
    apply elem_of_cons in Hy as [->|Hy]; apply elem_of_cons; [auto|].
    right. exact (IH r eq_refl Hy).
Qed.

Lemma list_remove_length x l l' :
  list_remove x l = Some l' -> length l = S (length l').
Proof.
  revert l'. induction l as [|z l IH]; intros l' H; cbn in H; [discriminate|].
  destruct (decide (z = x)) as [->|Hz]; [injection H as <-; reflexivity|].
  destruct (list_remove x l) as [r|] eqn:E; [|discriminate]. injection H as <-.
  cbn. rewrite (IH r eq_refl). reflexivity.
Qed.

(** Storing a Context over a Context changes what [lookup_context] gives
    for that object only. *)
Lemma lookup_context_store w self t c x :
  lookup_context (store self (ContextObj t c) w) x
    = if decide (self = x) then Some c else lookup_context w x.
Proof.
  unfold lookup_context. destruct (decide (self = x)) as [->|Hne].
  - rewrite heap_store_eq. reflexivity.
  - rewrite heap_store_ne by exact Hne. reflexivity.
Qed.

Lemma registry_ok_store w self t c t' c' :
  heap w !! self = Some (ContextObj t c) ->
  _name c' = _name c ->
  registry_ok w ->
  registry_ok (store self (ContextObj t' c') w).
Proof.
  intros Hh Hn Hok n l Hl. destruct (Hok n l Hl) as (Hne & Hnd & Hc).
  split; [exact Hne|]. split; [exact Hnd|].
  intros x Hx. destruct (Hc x Hx) as (cx & Hcx & Hnx).
  rewrite lookup_context_store. destruct (decide (self = x)) as [->|_].
  - exists c'. split; [reflexivity|].
    unfold lookup_context in Hcx. rewrite Hh in Hcx. injection Hcx as <-.
    rewrite Hn. exact Hnx.
  - exists cx. auto.
Qed.

(** The world [destroy] leaves, on a registry in order. *)
Lemma registry_ok_without w self t c t' l l' :
  registry_ok w ->
  heap w !! self = Some (ContextObj t c) ->
  _CONTEXT_TABLE w !! _name c = Some l ->
  list_remove self l = Some l' ->
  registry_ok (set_CONTEXT_TABLE (table_without (_name c) l' (_CONTEXT_TABLE w))
                 (store self (ContextObj t' c) w)) /\
  forall n l0,
    table_without (_name c) l' (_CONTEXT_TABLE w) !! n = Some l0 -> self ∉ l0.
Proof.
  intros Hok Hh Ht Hl.
  destruct (Hok _ _ Ht) as (_ & Hnd & Hc).
  assert (Hself : self ∉ l') by exact (list_remove_NoDup _ _ _ Hnd Hl).
  assert (Hother : forall n l0,
             table_without (_name c) l' (_CONTEXT_TABLE w) !! n = Some l0 ->
             (n = _name c /\ l0 = l' /\ l' <> []) \/
             (n <> _name c /\ _CONTEXT_TABLE w !! n = Some l0)).
  { intros n l0 H0. destruct (decide (n = _name c)) as [->|Hn].
    - left. unfold table_without in H0. destruct l' as [|y l'].
      + rewrite lookup_delete_eq in H0. discriminate.
      + rewrite lookup_insert_eq in H0. injection H0 as <-. auto.
    - right. rewrite (table_without_other w) in H0 by exact Hn. auto. }
  split.
  - intros n l0 H0. cbn [_CONTEXT_TABLE set_CONTEXT_TABLE] in H0.
    assert (Hlc : forall x cx, lookup_context w x = Some cx ->
                    lookup_context
                      (set_CONTEXT_TABLE (table_without (_name c) l' (_CONTEXT_TABLE w))
                         (store self (ContextObj t' c) w)) x = Some cx).
    { intros x cx Hx.
      change (lookup_context (set_CONTEXT_TABLE ?tb ?w0) x) with (lookup_context w0 x).
      rewrite lookup_context_store. destruct (decide (self = x)) as [->|_]; [|exact Hx].
      unfold lookup_context in Hx. rewrite Hh in Hx. exact Hx. }
    destruct (Hother n l0 H0) as [(-> & -> & Hne) | (Hn & Hw)].
    + split; [exact Hne|]. split; [exact (list_remove_keeps_NoDup _ _ _ Hnd Hl)|].
      intros x Hx. destruct (Hc x (list_remove_subset _ _ _ _ Hl Hx)) as (cx & Hcx & Hnx).
      exists cx. split; [exact (Hlc _ _ Hcx) | exact Hnx].
    + destruct (Hok n l0 Hw) as (Hne & Hnd0 & Hc0).
      split; [exact Hne|]. split; [exact Hnd0|].
      intros x Hx. destruct (Hc0 x Hx) as (cx & Hcx & Hnx).
      exists cx. split; [exact (Hlc _ _ Hcx) | exact Hnx].
  - intros n l0 H0. destruct (Hother n l0 H0) as [(-> & -> & _) | (Hn & Hw)].
    + exact Hself.
    + intros Hin. destruct (Hok n l0 Hw) as (_ & _ & Hc0).
      destruct (Hc0 self Hin) as (cx & Hcx & Hnx).
      unfold lookup_context in Hcx. rewrite Hh in Hcx. injection Hcx as <-.
      congruence.
Qed.

(** A registered Context, as [registry_ok] gives it. *)
Lemma registered_context w self c :
  registry_ok w ->
  lookup_context w self = Some c ->
  self ∈ bucket w (_name c) ->
  exists t l, heap w !! self = Some (ContextObj t c) /\
              _CONTEXT_TABLE w !! _name c = Some l /\ self ∈ l /\ NoDup l.
Proof.
  intros Hok Hc Hin. unfold lookup_context in Hc.
  destruct (heap w !! self) as [[t|t c0]|] eqn:Hh; try discriminate.
  injection Hc as ->. unfold bucket in Hin.
  destruct (_CONTEXT_TABLE w !! _name c) as [l|] eqn:Ht; [|inversion Hin].
  exists t, l. destruct (Hok _ _ Ht) as (_ & Hnd & _). auto.
Qed.

(** X8. On a registry in order, [destroy] of a registered Context
    returns, stops its timer, leaves it in no bucket and the registry in
    order: the bucket loses that Context only and disappears when it was
    the last one. No other object changes and nothing is emitted. *)
Theorem destroy_keeps_registry w self c :
  registry_ok w ->
  lookup_context w self = Some c ->
  self ∈ bucket w (_name c) ->
  exists w',
    Context_destroy self w = Ok tt w' /\
    registry_ok w' /\
    (forall n l, _CONTEXT_TABLE w' !! n = Some l -> self ∉ l) /\
    (forall x, x <> self -> (x ∈ bucket w' (_name c)) <-> (x ∈ bucket w (_name c))) /\
    (forall n, n <> _name c -> _CONTEXT_TABLE w' !! n = _CONTEXT_TABLE w !! n) /\
    _timer_start <$> lookup_timer w' self = Some None /\
    lookup_context w' self = Some c /\
    (forall x, x <> self -> heap w' !! x = heap w !! x) /\
    _TIMER_LIST w' = _TIMER_LIST w /\
    trace w' = trace w.
Proof.
  intros Hok Hc Hin.
  destruct (registered_context w self c Hok Hc Hin) as (t & l & Hh & Ht & Hl & Hnd).
  destruct (list_remove_elem self l Hl) as [l' Hr].
  rewrite (Context_destroy_Some w self t c l l' Hh Ht Hr).
  destruct (registry_ok_without w self t c
              (mkTimer None (_timer_expire t) (_timer_cb t)) l l' Hok Hh Ht Hr)
    as [Hok' Hgone].
  eexists. split; [reflexivity|]. split; [exact Hok'|]. split; [exact Hgone|].
  split; [|split; [|split; [|split; [|split; [|split]]]]].
  - intros x Hx. unfold bucket. cbn [_CONTEXT_TABLE set_CONTEXT_TABLE].
    rewrite (bucket_table_without w), Ht. exact (list_remove_other _ _ _ _ Hr Hx).
  - intros n Hn. apply (table_without_other w), Hn.
  - unfold lookup_timer.
    change (heap (set_CONTEXT_TABLE ?tb ?w0)) with (heap w0).
    rewrite heap_store_eq. reflexivity.
  - change (lookup_context (set_CONTEXT_TABLE ?tb ?w0) self) with (lookup_context w0 self).
    rewrite lookup_context_store. destruct (decide (self = self)); [reflexivity|congruence].
  - intros x Hx.
    change (heap (set_CONTEXT_TABLE ?tb ?w0)) with (heap w0).
    apply heap_store_ne. congruence.
  - reflexivity.
  - reflexivity.
Qed.

Lemma registry_ok_two_windows e a b : registry_ok (two_windows_expire e a b).
Proof.
  intros n l Hl. cbn [_CONTEXT_TABLE two_windows_expire] in Hl.
  destruct (decide (n = "n")) as [->|Hn].
  - rewrite lookup_insert_eq in Hl. injection Hl as <-.
    split; [discriminate|]. split.
    + apply (bool_decide_unpack _). vm_compute. exact I.
    + intros x Hx. rewrite !elem_of_cons, elem_of_nil in Hx.
      destruct Hx as [->|[->|[]]]; eexists; (split; [vm_compute; reflexivity|reflexivity]).
  - rewrite lookup_insert_ne, lookup_empty in Hl by congruence. discriminate.
Qed.

Lemma destroy_keeps_registry_witness :
  exists w',
    Context_destroy 1%nat (two_windows (0, 10) (5, 20)) = Ok tt w' /\
    registry_ok w' /\
    (1%nat ∉ bucket w' "n") /\ (0%nat ∈ bucket w' "n").
Proof.
  assert (Hin : forall x, x ∈ [0%nat; 1%nat] -> x ∈ bucket (two_windows (0, 10) (5, 20)) "n")
    by (intros x Hx; exact Hx).
  destruct (destroy_keeps_registry (two_windows (0, 10) (5, 20)) 1%nat _
              (registry_ok_two_windows 0 (0, 10) (5, 20)) eq_refl
              (Hin 1%nat ltac:(apply elem_of_cons; right; apply elem_of_cons; auto)))
    as (w' & Hd & Hok & Hgone & Hrest & _).
  exists w'. split; [exact Hd|]. split; [exact Hok|]. split.
  - unfold bucket. destruct (_CONTEXT_TABLE w' !! "n") as [l|] eqn:E.
    + exact (Hgone _ _ E).
    + cbn. apply not_elem_of_nil.
  - apply (Hrest 0%nat ltac:(lia)). apply Hin, elem_of_cons. auto.
Defined.

Lemma store_same id o w : heap w !! id = Some o -> store id o w = w.
Proof.
  intros H. destruct w. unfold store, set_heap. cbn in *. f_equal.
  apply insert_id, H.
Qed.

Lemma list_remove_last x l : list_remove x l = Some [] -> l = [x].
Proof.
  destruct l as [|y l]; cbn; [discriminate|].
  destruct (decide (y = x)) as [->|Hy]; [intros [= ->]; reflexivity|].
  destruct (list_remove x l); discriminate.
Qed.

(** X9. [destroy] is not repeatable. A second [destroy] of a Context
    that was registered raises, after stopping the timer again: [KeyError]
    when the Context was the only one of its bucket, which the first call
    has taken out of the table, and [ValueError] when the bucket is still
    there without the Context. The world is left as the first call left
    it. *)
Theorem destroy_twice_raises w self c :
  registry_ok w ->
  lookup_context w self = Some c ->
  self ∈ bucket w (_name c) ->
  exists w',
    Context_destroy self w = Ok tt w' /\
    (bucket w (_name c) = [self] -> Context_destroy self w' = Raise KeyError w') /\
    (bucket w (_name c) <> [self] -> Context_destroy self w' = Raise ValueError w').
Proof.
  intros Hok Hc Hin.
  destruct (registered_context w self c Hok Hc Hin) as (t & l & Hh & Ht & Hl & Hnd).
  destruct (list_remove_elem self l Hl) as [l' Hr].
  rewrite (Context_destroy_Some w self t c l l' Hh Ht Hr).
  eexists. split; [reflexivity|].
  set (w' := set_CONTEXT_TABLE (table_without (_name c) l' (_CONTEXT_TABLE w))
               (store self (ContextObj (mkTimer None (_timer_expire t) (_timer_cb t)) c) w)).
  assert (Hh' : heap w' !! self
                = Some (ContextObj (mkTimer None (_timer_expire t) (_timer_cb t)) c))
    by apply heap_store_eq.
  assert (Hstop : Timer_stop self w' = Ok tt w').
  { rewrite (Timer_stop_Some w' self _ Hh'). cbn [with_timer timer_of _timer_expire _timer_cb].
    rewrite (store_same _ _ _ Hh'). reflexivity. }
  assert (Hb : bucket w (_name c) = l) by (unfold bucket; rewrite Ht; reflexivity).
  rewrite Hb. unfold Context_destroy.
  rewrite (bind_Ok _ _ _ _ _ Hstop).
  rewrite (bind_Ok _ _ _ _ _ (get_context_Some _ _ _ _ Hh')).
  assert (Hget : forall k : World -> M unit, (w0 <- get ;; k w0) w' = k w' w')
    by reflexivity.
  rewrite Hget.
  change (_CONTEXT_TABLE w') with (table_without (_name c) l' (_CONTEXT_TABLE w)).
  split.
  - intros ->. cbn in Hr. destruct (decide (self = self)); [|congruence].
    injection Hr as <-. unfold table_without. rewrite lookup_delete_eq. reflexivity.
  - intros Hne. destruct l' as [|y l'].
    + exfalso. exact (Hne (list_remove_last _ _ Hr)).
    + unfold table_without. rewrite lookup_insert_eq.
      rewrite (list_remove_not_elem self (y :: l') (list_remove_NoDup _ _ _ Hnd Hr)).
      reflexivity.
Qed.

Lemma destroy_twice_raises_witness :
  exists w',
    Context_destroy 0%nat (threshold_world 0) = Ok tt w' /\
    Context_destroy 0%nat w' = Raise KeyError w'.
Proof.
  assert (Hok : registry_ok (threshold_world 0)).
  { intros n l Hl. cbn [_CONTEXT_TABLE threshold_world] in Hl.
    destruct (decide (n = "n")) as [->|Hn].
    - rewrite lookup_insert_eq in Hl. injection Hl as <-.
      split; [discriminate|]. split; [apply NoDup_singleton|].
      intros x Hx. apply list_elem_of_singleton in Hx as ->.
      eexists. split; [vm_compute; reflexivity|reflexivity].
    - rewrite lookup_insert_ne, lookup_empty in Hl by congruence. discriminate. }
  assert (Hin : 0%nat ∈ bucket (threshold_world 0) "n")
    by (apply list_elem_of_singleton; reflexivity).
  destruct (destroy_twice_raises (threshold_world 0) 0%nat _ Hok eq_refl Hin)
    as (w' & Hd & Hkey & _).
  exists w'. split; [exact Hd|]. apply Hkey. reflexivity.
Defined.

(** ** merge and _mergeIntersect, continued *)

Lemma window_ok_merged ca cb : window_ok ca -> window_ok cb -> window_ok (merged ca cb).
Proof. unfold window_ok, merged. cbn. lia. Qed.

(** The world [merge] leaves, on a registry in order. *)
Lemma merge_world_ok w a b ta ca tb cb l l' :
  registry_ok w ->
  a <> b ->
  heap w !! a = Some (ContextObj ta ca) ->
  heap w !! b = Some (ContextObj tb cb) ->
  _name ca = _name cb ->
  _CONTEXT_TABLE w !! _name cb = Some l ->
  a ∈ l ->
  list_remove b l = Some l' ->
  let w' := set_CONTEXT_TABLE (table_without (_name cb) l' (_CONTEXT_TABLE w))
              (store b (ContextObj (mkTimer None (_timer_expire tb) (_timer_cb tb)) cb)
                 (store a (ContextObj ta (merged ca cb)) w)) in
  registry_ok w' /\
  (a ∈ bucket w' (_name cb)) /\
  (forall n l0, _CONTEXT_TABLE w' !! n = Some l0 -> b ∉ l0) /\
  length (bucket w (_name cb)) = S (length (bucket w' (_name cb))) /\
  lookup_context w' a = Some (merged ca cb) /\
  (forall x, x <> a -> lookup_context w' x = lookup_context w x).
Proof.
  intros Hok Hne Ha Hb Hn Ht Hal Hr w'.
  assert (Hok1 : registry_ok (store a (ContextObj ta (merged ca cb)) w))
    by exact (registry_ok_store w a ta ca ta (merged ca cb) Ha eq_refl Hok).
  assert (Hb1 : heap (store a (ContextObj ta (merged ca cb)) w) !! b
                = Some (ContextObj tb cb))
    by (rewrite heap_store_ne by exact Hne; exact Hb).
  destruct (registry_ok_without _ b tb cb (mkTimer None (_timer_expire tb) (_timer_cb tb))
              l l' Hok1 Hb1 Ht Hr) as [Hok' Hgone].
  split; [exact Hok'|]. split; [|split; [exact Hgone|split; [|split]]].
  - unfold bucket, w'. cbn [_CONTEXT_TABLE set_CONTEXT_TABLE].
    rewrite (bucket_table_without w). exact (proj2 (list_remove_other _ _ _ _ Hr Hne) Hal).
  - assert (E : bucket w (_name cb) = l) by (unfold bucket; rewrite Ht; reflexivity).
    assert (E' : bucket w' (_name cb) = l').
    { unfold bucket, w'. cbn [_CONTEXT_TABLE set_CONTEXT_TABLE].
      unfold table_without. destruct l' as [|y l'].
      - rewrite lookup_delete_eq. reflexivity.
      - rewrite lookup_insert_eq. reflexivity. }
    rewrite E, E'. exact (list_remove_length _ _ _ Hr).
  - unfold w'.
    change (lookup_context (set_CONTEXT_TABLE ?tb0 ?w0) a) with (lookup_context w0 a).
    rewrite !lookup_context_store.
    destruct (decide (b = a)); [congruence|].
    destruct (decide (a = a)); [reflexivity|congruence].
  - intros x Hx. unfold w'.
    change (lookup_context (set_CONTEXT_TABLE ?tb0 ?w0) x) with (lookup_context w0 x).
    rewrite !lookup_context_store.
    destruct (decide (b = x)) as [<-|_].
    + unfold lookup_context. rewrite Hb. reflexivity.
    + destruct (decide (a = x)); [congruence|reflexivity].
Qed.

(** X10. On a registry in order whose windows are in order, merging a
    registered Context [b] into another registered Context [a] of the same
    name returns and keeps both in order: [a] stays in the bucket, [b] is
    in no bucket any more, the bucket is one shorter, and the window of
    [a] still has its lower edge below its upper edge unless it is
    unbounded. *)
Theorem merge_keeps_registry w a b ca cb :
  registry_ok w ->
  windows_ok w ->
  a <> b ->
  lookup_context w a = Some ca ->
  lookup_context w b = Some cb ->
  _name ca = _name cb ->
  a ∈ bucket w (_name ca) ->
  b ∈ bucket w (_name cb) ->
  exists w',
    Context_merge a b w = Ok tt w' /\
    registry_ok w' /\
    windows_ok w' /\
    (a ∈ bucket w' (_name ca)) /\
    (forall n l, _CONTEXT_TABLE w' !! n = Some l -> b ∉ l) /\
    length (bucket w (_name ca)) = S (length (bucket w' (_name ca))).
Proof.
  intros Hok Hwin Hne Hca Hcb Hn Hain Hbin.
  destruct (registered_context w a ca Hok Hca Hain) as (ta & la & Ha & Hta & Hal & _).
  destruct (registered_context w b cb Hok Hcb Hbin) as (tb & l & Hb & Ht & Hbl & _).
  rewrite Hn in Hta. rewrite Ht in Hta. injection Hta as <-.
  destruct (list_remove_elem b l Hbl) as [l' Hr].
  rewrite (Context_merge_Some w a b ta ca tb cb l l' Hne Ha Hb Ht Hr).
  destruct (merge_world_ok w a b ta ca tb cb l l' Hok Hne Ha Hb Hn Ht Hal Hr)
    as (Hok' & Hain' & Hgone & Hlen & Hla & Hlx).
  eexists. split; [reflexivity|]. rewrite Hn.
  split; [exact Hok'|]. split; [|auto].
  intros x c Hx. destruct (decide (x = a)) as [->|Hxa].
  - rewrite Hla in Hx. injection Hx as <-.
    apply window_ok_merged; [exact (Hwin _ _ Hca) | exact (Hwin _ _ Hcb)].
  - rewrite (Hlx x Hxa) in Hx. exact (Hwin _ _ Hx).
Qed.

Lemma windows_ok_two_windows e a b :
  (snd a <> -1 -> fst a <= snd a) ->
  (snd b <> -1 -> fst b <= snd b) ->
  windows_ok (two_windows_expire e a b).
Proof.
  intros Ha Hb x c Hx. unfold lookup_context in Hx.
  cbn [heap two_windows_expire] in Hx.
  destruct (decide (x = 1%nat)) as [->|H1].
  - rewrite lookup_insert_eq in Hx. injection Hx as <-. exact Hb.
  - rewrite lookup_insert_ne in Hx by congruence.
    destruct (decide (x = 0%nat)) as [->|H0].
    + rewrite lookup_insert_eq in Hx. injection Hx as <-. exact Ha.
    + rewrite lookup_insert_ne, lookup_empty in Hx by congruence. discriminate.
Qed.

Lemma merge_keeps_registry_witness :
  (registry_ok (two_windows (0, -1) (10, 20)) /\
   windows_ok (two_windows (0, -1) (10, 20)) /\ 0%nat <> 1%nat) /\
  exists w',
    Context_merge 0%nat 1%nat (two_windows (0, -1) (10, 20)) = Ok tt w' /\
    registry_ok w' /\ windows_ok w' /\ (0%nat ∈ bucket w' "n").
Proof.
  assert (Hok : registry_ok (two_windows (0, -1) (10, 20)))
    by apply registry_ok_two_windows.
  assert (Hwin : windows_ok (two_windows (0, -1) (10, 20)))
    by (apply windows_ok_two_windows; cbn; lia).
  assert (Hne : 0%nat <> 1%nat) by lia.
  split; [auto|].
  assert (H0 : 0%nat ∈ bucket (two_windows (0, -1) (10, 20)) "n")
    by (apply elem_of_cons; auto).
  assert (H1 : 1%nat ∈ bucket (two_windows (0, -1) (10, 20)) "n")
    by (apply elem_of_cons; right; apply elem_of_cons; auto).
  destruct (merge_keeps_registry (two_windows (0, -1) (10, 20)) 0%nat 1%nat _ _
              Hok Hwin Hne eq_refl eq_refl eq_refl H0 H1)
    as (w' & Hm & Hok' & Hwin' & Hin' & _).
  exists w'. auto.
Defined.

Lemma Context__intersect_context w self x c c' :
  lookup_context w self = Some c ->
  lookup_context w x = Some c' ->
  Context__intersect self (ArgContext x) w
    = Ok (intersect_windows (_time_min c) (_time_max c) (_time_min c') (_time_max c')) w.
Proof.
  unfold lookup_context. intros Hs Hx.
  destruct (heap w !! self) as [[ts|ts cs]|] eqn:Hhs; try discriminate.
  destruct (heap w !! x) as [[tx|tx cx]|] eqn:Hhx; try discriminate.
  injection Hs as ->. injection Hx as ->.
  unfold Context__intersect.
  assert (E : (o <- get_context x ;; ret (_time_min o, _time_max o)) w
              = Ok (_time_min c', _time_max c') w).
  { rewrite (bind_Ok _ _ _ _ _ (get_context_Some _ _ _ _ Hhx)). reflexivity. }
  rewrite (bind_Ok _ _ _ _ _ E).
  rewrite (bind_Ok _ _ _ _ _ (get_context_Some _ _ _ _ Hhs)). reflexivity.
Qed.

Lemma mergeIntersect_loop_find w self c l :
  lookup_context w self = Some c ->
  (forall x, x ∈ l -> is_Some (lookup_context w x)) ->
  mergeIntersect_loop self l w
    = match first_sibling w self l with
      | Some b => (Context_merge self b ;;; ret true) w
      | None => Ok false w
      end.
Proof.
  intros Hc. induction l as [|x l IH]; intros Hl; [reflexivity|].
  cbn [mergeIntersect_loop first_sibling List.find].
  assert (IH' := IH (fun y Hy => Hl y ltac:(apply elem_of_cons; auto))).
  destruct (Hl x ltac:(apply elem_of_cons; auto)) as [cx Hcx].
  unfold intersects_sibling at 1. rewrite Hc, Hcx.
  destruct (decide (x = self)) as [->|Hne].
  - rewrite bool_decide_true by reflexivity. cbn [negb andb]. exact IH'.
  - rewrite bool_decide_false by exact Hne. cbn [negb andb].
    rewrite (bind_Ok _ _ _ _ _ (Context__intersect_context w self x c cx Hc Hcx)).
    destruct (intersect_windows _ _ _ _); [reflexivity|exact IH'].
Qed.

(** The scan when some other Context of the bucket passes the test. *)
Lemma mergeIntersect_some w self c b :
  registry_ok w ->
  lookup_context w self = Some c ->
  self ∈ bucket w (_name c) ->
  first_sibling w self (bucket w (_name c)) = Some b ->
  exists w',
    Context__mergeIntersect self w = Ok true w' /\
    Context_merge self b w = Ok tt w' /\
    registry_ok w' /\
    (self ∈ bucket w' (_name c)) /\
    b <> self /\ (b ∈ bucket w (_name c)) /\
    (forall n l, _CONTEXT_TABLE w' !! n = Some l -> b ∉ l) /\
    length (bucket w (_name c)) = S (length (bucket w' (_name c))) /\
    trace w' = trace w /\
    next_id w' = next_id w /\
    (forall n, n <> _name c -> _CONTEXT_TABLE w' !! n = _CONTEXT_TABLE w !! n) /\
    (forall x, heap w !! x = None -> heap w' !! x = None).
Proof.
  intros Hok Hc Hin Ef.
  destruct (registered_context w self c Hok Hc Hin) as (t & l & Hh & Ht & Hl & Hnd).
  assert (Hb : bucket w (_name c) = l) by (unfold bucket; rewrite Ht; reflexivity).
  destruct (Hok _ _ Ht) as (_ & _ & Hall).
  assert (Hsome : forall x, x ∈ l -> is_Some (lookup_context w x)).
  { intros x Hx. destruct (Hall x Hx) as (cx & Hcx & _). eauto. }
  unfold Context__mergeIntersect.
  rewrite (bind_Ok _ _ _ _ _ (get_context_Some _ _ _ _ Hh)).
  unfold bind at 1. cbn [get]. rewrite Ht.
  rewrite (mergeIntersect_loop_find w self c l Hc Hsome). rewrite Hb in *. rewrite Ef.
  apply find_some in Ef as [Hbl Hint]. apply list_elem_of_In in Hbl.
  destruct (Hall b Hbl) as (cb & Hcb & Hnb).
  unfold intersects_sibling in Hint. rewrite Hc, Hcb in Hint.
  apply andb_true_iff in Hint as [Hne _].
  apply negb_true_iff, bool_decide_eq_false in Hne.
  assert (Hhb : exists tb, heap w !! b = Some (ContextObj tb cb)).
  { unfold lookup_context in Hcb.
    destruct (heap w !! b) as [[tb|tb cb0]|]; try discriminate.
    injection Hcb as ->. eauto. }
  destruct Hhb as [tb Hhb].
  assert (Htb : _CONTEXT_TABLE w !! _name cb = Some l) by (rewrite Hnb; exact Ht).
  destruct (list_remove_elem b l Hbl) as [l' Hr].
  assert (Hsb : self <> b) by congruence.
  pose proof (Context_merge_Some w self b t c tb cb l l' Hsb Hh Hhb Htb Hr) as Hm.
  destruct (merge_world_ok w self b t c tb cb l l' Hok Hsb Hh Hhb (eq_sym Hnb) Htb Hl Hr)
    as (Hok' & Hin' & Hgone & Hlen & _).
  cbv zeta in Hok', Hin', Hgone, Hlen.
  rewrite Hnb in Hm, Hok', Hin', Hgone, Hlen.
  assert (Hbl' : bucket w (_name c) = l) by (unfold bucket; rewrite Ht; reflexivity).
  rewrite Hbl' in Hlen.
  unfold bind at 1. rewrite Hm. cbn [ret].
  eexists. split; [reflexivity|]. split; [reflexivity|]. split; [exact Hok'|].
  split; [exact Hin'|]. split; [exact Hne|]. split; [exact Hbl|].
  split; [exact Hgone|]. split; [exact Hlen|]. split; [reflexivity|].
  split; [reflexivity|]. split.
  - intros n Hn. cbn [_CONTEXT_TABLE set_CONTEXT_TABLE].
    exact (table_without_other w (_name c) l' n Hn).
  - intros x Hx. change (heap (set_CONTEXT_TABLE ?tb0 ?w0)) with (heap w0).
    rewrite !heap_store_ne by congruence. exact Hx.
Qed.

(** The scan when none does. *)
Lemma mergeIntersect_none w self c :
  registry_ok w ->
  lookup_context w self = Some c ->
  self ∈ bucket w (_name c) ->
  first_sibling w self (bucket w (_name c)) = None ->
  Context__mergeIntersect self w = Ok false w.
Proof.
  intros Hok Hc Hin Ef.
  destruct (registered_context w self c Hok Hc Hin) as (t & l & Hh & Ht & Hl & Hnd).
  assert (Hb : bucket w (_name c) = l) by (unfold bucket; rewrite Ht; reflexivity).
  destruct (Hok _ _ Ht) as (_ & _ & Hall).
  assert (Hsome : forall x, x ∈ l -> is_Some (lookup_context w x)).
  { intros x Hx. destruct (Hall x Hx) as (cx & Hcx & _). eauto. }
  unfold Context__mergeIntersect.
  rewrite (bind_Ok _ _ _ _ _ (get_context_Some _ _ _ _ Hh)).
  unfold bind at 1. cbn [get]. rewrite Ht.
  rewrite (mergeIntersect_loop_find w self c l Hc Hsome). rewrite Hb in Ef.
  rewrite Ef. reflexivity.
Qed.

(** X11. On a registry in order, [_mergeIntersect] of a registered
    Context returns. It merges the first other Context of the bucket, in
    insertion order, whose window passes [self._intersect], and that one
    only: the bucket is one shorter, the merged Context is in no bucket,
    and the answer is [True]. When no other Context passes the test the
    answer is [False] and nothing changed. The Context itself stays
    registered and the registry in order. *)
Theorem mergeIntersect_merges_first_sibling w self c :
  registry_ok w ->
  lookup_context w self = Some c ->
  self ∈ bucket w (_name c) ->
  exists r w',
    Context__mergeIntersect self w = Ok r w' /\
    registry_ok w' /\
    (self ∈ bucket w' (_name c)) /\
    match first_sibling w self (bucket w (_name c)) with
    | None => r = false /\ w' = w
    | Some b =>
        r = true /\ b <> self /\ (b ∈ bucket w (_name c)) /\
        Context_merge self b w = Ok tt w' /\
        (forall n l, _CONTEXT_TABLE w' !! n = Some l -> b ∉ l) /\
        length (bucket w (_name c)) = S (length (bucket w' (_name c)))
    end.
Proof.
  intros Hok Hc Hin.
  destruct (first_sibling w self (bucket w (_name c))) as [b|] eqn:Ef.
  - destruct (mergeIntersect_some w self c b Hok Hc Hin Ef)
      as (w' & Hm & Hmerge & Hok' & Hin' & Hne & Hbl & Hgone & Hlen & _).
    exists true, w'. auto 10.
  - exists false, w. split; [exact (mergeIntersect_none w self c Hok Hc Hin Ef)|]. auto.
Qed.

Lemma mergeIntersect_merges_first_sibling_witness :
  registry_ok (two_windows (0, 10) (5, 20)) /\
  exists w',
    Context__mergeIntersect 0%nat (two_windows (0, 10) (5, 20)) = Ok true w' /\
    registry_ok w' /\ (0%nat ∈ bucket w' "n") /\
    Context_merge 0%nat 1%nat (two_windows (0, 10) (5, 20)) = Ok tt w'.
Proof.
  assert (Hok : registry_ok (two_windows (0, 10) (5, 20)))
    by apply registry_ok_two_windows.
  split; [exact Hok|].
  assert (H0 : 0%nat ∈ bucket (two_windows (0, 10) (5, 20)) "n")
    by (apply elem_of_cons; auto).
  destruct (mergeIntersect_merges_first_sibling (two_windows (0, 10) (5, 20)) 0%nat _
              Hok eq_refl H0) as (r & w' & Hm & Hok' & Hin' & Hcase).
  change (first_sibling (two_windows (0, 10) (5, 20)) 0%nat
            (bucket (two_windows (0, 10) (5, 20)) "n")) with (Some 1%nat) in Hcase.
  destruct Hcase as (-> & _ & _ & Hmerge & _).
  exists w'. auto.
Defined.

(** ** search, continued *)

Lemma grown_refl c : grown c c.
Proof. unfold grown. repeat split; auto; lia. Qed.

Lemma grown_widened c it : grown c (widened c it).
Proof.
  unfold grown, widened. cbn. repeat split; try lia.
  - intros ->. reflexivity.
  - intros H. apply Z.eqb_neq in H. rewrite H. lia.
Qed.

Lemma window_ok_grown c c' : grown c c' -> window_ok c -> window_ok c'.
Proof.
  unfold grown, window_ok. intros (_ & _ & _ & _ & Hmin & Hu & Hb) Hc Hmax.
  destruct (Z.eq_dec (_time_max c) (-1)) as [E|E]; [exfalso; auto|].
  specialize (Hb E). specialize (Hc E). lia.
Qed.

(** X12. On a registry in order, [search] returns, and whatever it finds
    it only lets windows grow: every Context keeps its name, options,
    update count and record, its lower edge does not go up, a bounded
    upper edge does not go down and an unbounded one stays unbounded. The
    table is the same, no object but the Context found changes, and the
    registry and the windows stay in order. *)
Theorem search_only_grows_windows w name idmef update :
  registry_ok w ->
  exists r w',
    search name (arg_of idmef) update w = Ok r w' /\
    _CONTEXT_TABLE w' = _CONTEXT_TABLE w /\
    (forall x, Some x <> r -> heap w' !! x = heap w !! x) /\
    (forall x c, lookup_context w x = Some c ->
                 exists c', lookup_context w' x = Some c' /\ grown c c') /\
    registry_ok w' /\
    (windows_ok w -> windows_ok w') /\
    _TIMER_LIST w' = _TIMER_LIST w /\ trace w' = trace w.
Proof.
  intros Hok.
  assert (Hl : forall x, x ∈ bucket w (getName name) -> is_Some (lookup_context w x)).
  { intros x Hx. unfold bucket in Hx.
    destruct (_CONTEXT_TABLE w !! getName name) as [l|] eqn:Ht; [|inversion Hx].
    destruct (Hok _ _ Ht) as (_ & _ & Hall).
    destruct (Hall x Hx) as (c & Hc & _). eauto. }
  pose proof (search_loop_event w (bucket w (getName name)) idmef update Hl) as Hs.
  exists (first_intersecting w idmef (bucket w (getName name))).
  set (r := first_intersecting w idmef (bucket w (getName name))) in *.
  exists (if update then widen_found w idmef r else w).
  split; [exact Hs|].
  assert (Hsame : registry_ok w /\
                  (windows_ok w -> windows_ok w) /\
                  (forall x c, lookup_context w x = Some c ->
                               exists c', lookup_context w x = Some c' /\ grown c c')).
  { split; [exact Hok|]. split; [auto|]. intros x c Hc. exists c. split; [exact Hc|].
    apply grown_refl. }
  destruct update; [|destruct Hsame as (H1 & H2 & H3); auto 10].
  unfold widen_found. destruct r as [ctx|]; [|destruct Hsame as (H1 & H2 & H3); auto 10].
  destruct (heap w !! ctx) as [[t|t c]|] eqn:Hh;
    try (destruct Hsame as (H1 & H2 & H3); auto 10).
  set (c' := widened c (derived_window w idmef c)).
  assert (Hg : grown c c') by apply grown_widened.
  assert (Hlk : forall x cx, lookup_context w x = Some cx ->
                  exists cx', lookup_context (store ctx (ContextObj t c') w) x = Some cx' /\
                              grown cx cx').
  { intros x cx Hx. rewrite lookup_context_store.
    destruct (decide (ctx = x)) as [<-|_].
    - unfold lookup_context in Hx. rewrite Hh in Hx. injection Hx as <-. eauto.
    - exists cx. split; [exact Hx|apply grown_refl]. }
  split; [reflexivity|]. split.
  { intros x Hx. apply heap_store_ne. congruence. }
  split; [exact Hlk|]. split.
  { apply (registry_ok_store w ctx t c t c' Hh); [apply Hg|exact Hok]. }
  split; [|split; reflexivity].
  intros Hwin x cx Hx. rewrite lookup_context_store in Hx.
  destruct (decide (ctx = x)) as [<-|_].
  - injection Hx as <-. apply (window_ok_grown c c' Hg).
    apply (Hwin ctx). unfold lookup_context. rewrite Hh. reflexivity.
  - exact (Hwin _ _ Hx).
Qed.

Lemma search_only_grows_windows_witness :
  registry_ok (two_windows_expire 5 (0, 10) (50, 60)) /\
  exists r w',
    search (NameStr "n") (arg_of (Some (msg_at 48))) true
           (two_windows_expire 5 (0, 10) (50, 60)) = Ok r w' /\
    registry_ok w' /\ windows_ok w'.
Proof.
  assert (Hok : registry_ok (two_windows_expire 5 (0, 10) (50, 60)))
    by apply registry_ok_two_windows.
  assert (Hwin : windows_ok (two_windows_expire 5 (0, 10) (50, 60)))
    by (apply windows_ok_two_windows; cbn; lia).
  split; [exact Hok|].
  destruct (search_only_grows_windows (two_windows_expire 5 (0, 10) (50, 60))
              (NameStr "n") (Some (msg_at 48)) true Hok)
    as (r & w' & Hs & _ & _ & _ & Hok' & Hwin' & _).
  exists r, w'. auto.
Defined.

(** ** setOptions and update, continued *)

Lemma update_context_Some w self t c (f : ContextAttrs -> ContextAttrs) :
  heap w !! self = Some (ContextObj t c) ->
  (c0 <- get_context self ;; put_context self (f c0)) w
    = Ok tt (store self (ContextObj t (f c)) w).
Proof.
  intros Hh. rewrite (bind_Ok _ _ _ _ _ (get_context_Some _ _ _ _ Hh)).
  apply (put_context_Some _ _ _ _ _ Hh).
Qed.

Lemma Context_setOptions_Some w self t c options :
  heap w !! self = Some (ContextObj t c) ->
  Context_setOptions self options w = Ok tt (with_options self t c options w).
Proof.
  intros Hh. unfold Context_setOptions.
  rewrite (bind_Ok _ _ _ _ _
             (update_context_Some w self t c
                (fun c0 => set_options (dict_update (_options c0) options) c0) Hh)).
  set (c1 := set_options (dict_update (_options c) options) c).
  assert (E2 : (c0 <- get_context self ;; Timer_setExpire self (expire (_options c0)))
                 (store self (ContextObj t c1) w)
               = Ok tt (store self
                          (ContextObj (mkTimer (_timer_start t) (expire (_options c1))
                                               (_timer_cb t)) c1) w)).
  { rewrite (bind_Ok _ _ _ _ _ (get_context_Some _ _ _ _ (heap_store_eq _ _ _))).
    unfold Timer_setExpire.
    rewrite (bind_Ok _ _ _ _ _ (get_timer_Some _ _ _ (heap_store_eq _ _ _))).
    rewrite (put_timer_Some _ _ _ _ (heap_store_eq _ _ _)), store_store. reflexivity. }
  rewrite (bind_Ok _ _ _ _ _ E2).
  rewrite (Timer_start_Some _ self _ false (heap_store_eq _ _ _)).
  unfold with_options. fold c1.
  cbn [timer_of _timer_expire _timer_start negb]. rewrite andb_true_r. reflexivity.
Qed.

Lemma Context_update_rest_Some w self t c options timer_rst :
  heap w !! self = Some (ContextObj t c) ->
  Context_update_rest self options timer_rst w
    = Ok tt (if resets t timer_rst
             then with_options self
                    (mkTimer (Some (clock w)) (_timer_expire t) (_timer_cb t)) c options
                    (started self (ContextObj t c) true w)
             else with_options self t c options w).
Proof.
  intros Hh. unfold Context_update_rest.
  rewrite (bind_Ok _ _ _ _ _ (Timer_running_Some _ _ _ Hh)). cbn [timer_of].
  unfold resets.
  destruct (timer_rst && match _timer_start t with Some _ => true | None => false end)
    eqn:E; cbn [andb].
  - unfold Timer_reset.
    rewrite (bind_Ok _ _ _ _ _ (Timer_start_Some w self _ true Hh)).
    cbn [timer_of negb]. rewrite andb_false_r, orb_false_r.
    destruct (_timer_expire t =? 0); cbn [negb].
    + exact (Context_setOptions_Some w self t c options Hh).
    + apply Context_setOptions_Some. unfold started. cbn [timer_of with_timer].
      change (heap (set_next_wakeup ?z ?x)) with (heap x). apply heap_store_eq.
  - unfold bind at 1. cbn [ret]. exact (Context_setOptions_Some w self t c options Hh).
Qed.

Lemma with_options_kept self t c options w :
  trace (with_options self t c options w) = trace w /\
  _CONTEXT_TABLE (with_options self t c options w) = _CONTEXT_TABLE w /\
  lookup_context (with_options self t c options w) self
    = Some (set_options (dict_update (_options c) options) c) /\
  lookup_timer (with_options self t c options w) self
    = Some (mkTimer
              (match _timer_start t with
               | Some s => Some s
               | None => if expire (dict_update (_options c) options) =? 0
                         then None else Some (clock w)
               end)
              (expire (dict_update (_options c) options)) (_timer_cb t)).
Proof.
  unfold with_options. cbv zeta.
  change (expire (_options (set_options (dict_update (_options c) options) c)))
    with (expire (dict_update (_options c) options)).
  destruct (_timer_start t) as [s|];
    destruct (expire (dict_update (_options c) options) =? 0);
    cbn [orb]; unfold started, lookup_context, lookup_timer; cbn [timer_of with_timer];
    repeat split;
    change (heap (set_next_wakeup ?z ?x)) with (heap x);
    rewrite ?heap_store_eq; reflexivity.
Qed.

(** C8, amended. For every Context with [alert_on_expire] enabled, an
    [update] that supplies an event and brings [_update_count],
    incremented by that call, to 256 or more takes the alert path at once,
    after recording the event: the Context is handed to the callable when
    [alert_on_expire] is one, and otherwise the accumulated alert is
    emitted and the Context destroyed. An [update] with an event that
    leaves [_update_count] below 256 accumulates: the event is recorded,
    the count is one higher, nothing is emitted and the registry is as
    before; the timer is started anew at the current time if that was
    asked for and the timer runs with an expiry other than 0, the options
    of the call are merged and set the expiry of the timer, and a timer
    that does not run is started unless the expiry is 0. *)
Theorem update_cap_on_update_count call_cb w self t c options m timer_rst :
  heap w !! self = Some (ContextObj t c) ->
  truthy_aoe (alert_on_expire (_options c)) = true ->
  (_update_count c + 1 >= _IDMEF_QUEUE_LIMIT ->
   Context_update call_cb self options (Some m) timer_rst w
     = match alert_on_expire (_options c) with
       | AoeCallable cb =>
           call_cb cb self (emit (EvCall cb self) (store self (ContextObj t (recorded c m)) w))
       | _ =>
           Context_destroy self
             (emit (EvAlert self (idmef (recorded c m)))
                (store self (ContextObj t (recorded c m)) w))
       end) /\
  (_update_count c + 1 < _IDMEF_QUEUE_LIMIT ->
   Context_update call_cb self options (Some m) timer_rst w
     = Ok tt (updated self t (recorded c m) options timer_rst w) /\
   lookup_context (updated self t (recorded c m) options timer_rst w) self
     = Some (set_options (dict_update (_options c) options) (recorded c m)) /\
   lookup_timer (updated self t (recorded c m) options timer_rst w) self
     = Some (mkTimer (start_after_update t c options timer_rst w)
               (expire (dict_update (_options c) options)) (_timer_cb t)) /\
   trace (updated self t (recorded c m) options timer_rst w) = trace w /\
   _CONTEXT_TABLE (updated self t (recorded c m) options timer_rst w) = _CONTEXT_TABLE w).
Proof.
  intros Hh Haoe.
  assert (E1 : (c0 <- get_context self ;;
                put_context self (set_update_count (_update_count c0 + 1) c0)) w
               = Ok tt (store self
                          (ContextObj t (set_update_count (_update_count c + 1) c)) w)).
  { rewrite (bind_Ok _ _ _ _ _ (get_context_Some _ _ _ _ Hh)).
    apply (put_context_Some _ _ _ _ _ Hh). }
  assert (E2 : IDMEF_addAlertReference self m
                 (store self (ContextObj t (set_update_count (_update_count c + 1) c)) w)
               = Ok tt (store self (ContextObj t (recorded c m)) w)).
  { unfold IDMEF_addAlertReference.
    rewrite (bind_Ok _ _ _ _ _ (get_context_Some _ _ _ _ (heap_store_eq _ _ _))).
    rewrite (put_context_Some _ _ _ _ _ (heap_store_eq _ _ _)), store_store.
    reflexivity. }
  assert (Hh2 : heap (store self (ContextObj t (recorded c m)) w) !! self
                = Some (ContextObj t (recorded c m))) by apply heap_store_eq.
  unfold Context_update.
  rewrite (bind_Ok _ _ _ _ _ E1). cbv zeta.
  rewrite (bind_Ok _ _ _ _ _ E2).
  rewrite (bind_Ok _ _ _ _ _ (get_context_Some _ _ _ _ Hh2)).
  change (_options (recorded c m)) with (_options c).
  change (_update_count (recorded c m)) with (_update_count c + 1).
  rewrite Haoe. cbn [andb]. split; intros Hc.
  - assert (E : (_update_count c + 1 >=? _IDMEF_QUEUE_LIMIT) = true)
      by (rewrite Z.geb_leb; apply Z.leb_le; lia).
    rewrite E. apply (Context__alert_Some call_cb _ self t _ Hh2).
  - assert (E : (_update_count c + 1 >=? _IDMEF_QUEUE_LIMIT) = false)
      by (rewrite Z.geb_leb; apply Z.leb_gt; lia).
    rewrite E.
    split; [exact (Context_update_rest_Some _ self t (recorded c m) options timer_rst Hh2)|].
    unfold updated, start_after_update, resets. cbv zeta.
    change (_options (recorded c m)) with (_options c).
    destruct timer_rst, (_timer_start t) as [s|] eqn:Es, (_timer_expire t =? 0);
      cbn [andb negb];
      match goal with
      | |- context [with_options ?a ?b ?d ?o ?x] =>
          destruct (with_options_kept a b d o x) as (Htr & Htb & Hcx & Htm)
      end;
      rewrite Hcx, Htm, Htr, Htb; cbn [_timer_start _timer_expire _timer_cb];
      try rewrite Es; repeat split.
Qed.

(** At 255 updates the built-in alert is emitted and the Context
    destroyed; at 1 update, with a reset asked for at time 100 on a timer
    started at 100, the event is recorded and the timer runs on. *)
Lemma update_cap_on_update_count_witness :
  (truthy_aoe AoeTrue = true /\ 255 + 1 >= _IDMEF_QUEUE_LIMIT /\ 1 + 1 < _IDMEF_QUEUE_LIMIT) /\
  (exists w',
     Context_update sample_cb 0%nat no_options (Some (msg_at 120)) false (threshold_world 255)
       = Ok tt w' /\
     trace w' = [EvAlert 0%nat (mkRecord ["src"; "src"] ["dst"; "dst"] ["id"; "id"])] /\
     bucket w' "n" = []) /\
  (exists w',
     Context_update sample_cb 0%nat (expire_only 30) (Some (msg_at 120)) true
       (set_clock 130 (threshold_world 1)) = Ok tt w' /\
     trace w' = [] /\ bucket w' "n" = [0%nat] /\
     _update_count <$> lookup_context w' 0%nat = Some 2 /\
     lookup_timer w' 0%nat = Some (mkTimer (Some 130) 30 None)).
Proof.
  assert (Hcap : 255 + 1 >= _IDMEF_QUEUE_LIMIT).
  { unfold _IDMEF_QUEUE_LIMIT. lia. }
  assert (Hlow : 1 + 1 < _IDMEF_QUEUE_LIMIT).
  { unfold _IDMEF_QUEUE_LIMIT. lia. }
  split; [auto|]. split.
  - destruct (update_cap_on_update_count sample_cb (threshold_world 255) 0%nat _ _
                no_options (msg_at 120) false eq_refl eq_refl) as [Hfire _].
    rewrite (Hfire Hcap).
    eexists. split; [vm_compute; reflexivity|]. split; vm_compute; reflexivity.
  - destruct (update_cap_on_update_count sample_cb (set_clock 130 (threshold_world 1)) 0%nat
                _ _ (expire_only 30) (msg_at 120) true eq_refl eq_refl) as [_ Hacc].
    destruct (Hacc Hlow) as (Hu & Hcx & Htm & Htr & Htb).
    eexists. split; [exact Hu|]. split; [exact Htr|]. split.
    + unfold bucket. rewrite Htb. reflexivity.
    + split; [rewrite Hcx; reflexivity|rewrite Htm; reflexivity].
Defined.

(** ** Context(...), continued *)

(** [__init__] up to its merge scan. *)
Lemma Context___init___registers name options ev w :
  Context___init__ name options ev w
    = (x <- Context__mergeIntersect (next_id w) ;;
       (if x then modify (emit (EvLog LogCritical)) else ret tt) ;;;
       ret (next_id w)) (constructed name options ev w).
Proof.
  unfold Context___init__. unfold bind at 1. cbn [get]. cbv zeta.
  unfold bind at 1. cbn [modify]. unfold bind at 1. unfold put_obj at 1. cbn [modify].
  set (self := next_id w).
  set (n := getName name).
  set (o := dict_update (mkOptions (-1) 0 AoeFalse) options).
  set (c0 := mkContext n (mkOptions (-1) 0 AoeFalse) 0 0 0 empty_record).
  set (w2 := set_heap _ (set_next_id (S self) w)).
  assert (Hh2 : heap w2 !! self = Some (ContextObj (mkTimer None 0 None) c0))
    by apply lookup_insert_eq.
  rewrite (bind_Ok _ _ _ _ _ (Context_setOptions_Some w2 self _ c0 options Hh2)).
  set (c1 := set_options o c0).
  set (t1 := mkTimer (if negb (expire o =? 0) then Some (clock w) else None) (expire o) None).
  set (w3 := with_options self (mkTimer None 0 None) c0 options w2).
  assert (Hh3 : heap w3 !! self = Some (ContextObj t1 c1)).
  { subst w3 t1. unfold with_options. cbn [_timer_start _timer_cb].
    change (dict_update (_options c0) options) with o.
    change (set_options o c0) with c1.
    change (expire (_options c1)) with (expire o). rewrite orb_false_r.
    destruct (expire o =? 0); cbn [negb].
    - apply heap_store_eq.
    - unfold started. change (heap (set_next_wakeup ?z ?x)) with (heap x).
      rewrite heap_store_eq. reflexivity. }
  set (rec := match ev with
              | Some m => addAlertReference_record empty_record m
              | None => empty_record
              end).
  set (c2 := set_idmef rec c1).
  assert (E4 : (match ev with
                | Some m => IDMEF_addAlertReference self m
                | None => ret tt
                end) w3 = Ok tt (store self (ContextObj t1 c2) w3)).
  { subst c2 rec. destruct ev as [m|].
    - unfold IDMEF_addAlertReference.
      apply (update_context_Some w3 self t1 c1
               (fun c => set_idmef (addAlertReference_record (idmef c) m) c) Hh3).
    - change (set_idmef empty_record c1) with c1.
      rewrite (store_same _ _ _ Hh3). reflexivity. }
  rewrite (bind_Ok _ _ _ _ _ E4).
  assert (E5 : Context__getTime ev (store self (ContextObj t1 c2) w3)
               = Ok (event_time w ev) (store self (ContextObj t1 c2) w3)).
  { destruct ev; [reflexivity|]. cbn [Context__getTime time_time event_time].
    f_equal. subst w3. unfold with_options.
    destruct (_ || _); reflexivity. }
  rewrite (bind_Ok _ _ _ _ _ E5).
  rewrite (bind_Ok _ _ _ _ _
             (update_context_Some _ self t1 c2
                (fun c => set_time_min (event_time w ev - expire (_options c)) c)
                (heap_store_eq _ _ _))), store_store.
  set (c3 := set_time_min (event_time w ev - expire (_options c2)) c2).
  assert (E7 : (c <- get_context self ;;
                if expire (_options c) >? 0
                then put_context self (set_time_max (event_time w ev + expire (_options c)) c)
                else put_context self (set_time_max (-1) c))
                 (store self (ContextObj t1 c3) w3)
               = Ok tt (store self
                          (ContextObj t1
                             (set_time_max (if expire o >? 0
                                            then event_time w ev + expire o else -1) c3))
                          w3)).
  { rewrite (bind_Ok _ _ _ _ _ (get_context_Some _ _ _ _ (heap_store_eq _ _ _))).
    change (expire (_options c3)) with (expire o).
    destruct (expire o >? 0);
      rewrite (put_context_Some _ _ _ _ _ (heap_store_eq _ _ _)), store_store;
      reflexivity. }
  rewrite (bind_Ok _ _ _ _ _ E7).
  unfold bind at 1. cbn [modify].
  match goal with |- ?f ?wa = ?g ?wb => replace wa with wb; [reflexivity|] end.
  unfold constructed. fold self n o.
  subst w3 w2 c3 c2 c1 t1 rec. unfold with_options, started, store, bucket.
  change (dict_update (_options c0) options) with o. subst c0.
  cbn [_timer_start _timer_cb _timer_expire timer_of with_timer _options set_options
       set_idmef set_time_min set_time_max _name _update_count _time_min _time_max
       idmef].
  rewrite orb_false_r.
  destruct (expire o =? 0); cbn [negb];
    cbn [set_heap set_next_id set_TIMER_LIST set_CONTEXT_TABLE set_next_wakeup
         heap next_id _TIMER_LIST _CONTEXT_TABLE _last_wakeup _next_wakeup clock trace];
    rewrite !insert_insert_eq; reflexivity.
Qed.

Lemma find_all_false {A} (f : A -> bool) (l : list A) :
  (forall x, In x l -> f x = false) -> List.find f l = None.
Proof.
  induction l as [|x l IH]; intros H; [reflexivity|]. cbn.
  rewrite (H x (or_introl eq_refl)). apply IH. intros y Hy. apply H. right. exact Hy.
Qed.

Lemma lookup_context_constructed name options ev w x :
  lookup_context (constructed name options ev w) x
    = if decide (next_id w = x) then Some (new_context_attrs name options ev w)
      else lookup_context w x.
Proof.
  unfold lookup_context, constructed. cbn [heap].
  destruct (decide (next_id w = x)) as [<-|Hne].
  - rewrite lookup_insert_eq. reflexivity.
  - rewrite lookup_insert_ne by exact Hne. reflexivity.
Qed.

(** X13. Where no Context of the name passes the test of the new
    window, [__init__] returns a fresh object registered at the end of the
    bucket of its name, which is created when missing: update count 0,
    lower edge at the time of the event minus [expire], upper edge at that
    time plus [expire] when [expire] is positive and unbounded otherwise,
    the record holding the event if there is one. Its timer is started and
    appended to [_TIMER_LIST] unless [expire] is 0. No other object
    changes and nothing is logged. *)
Theorem init_registers_new_context name options ev w :
  (forall x, x ∈ bucket w (getName name) ->
     x <> next_id w /\
     exists cx, lookup_context w x = Some cx /\
                apart (new_context_attrs name options ev w) cx) ->
  Context___init__ name options ev w
    = Ok (next_id w) (constructed name options ev w) /\
  lookup_context (constructed name options ev w) (next_id w)
    = Some (new_context_attrs name options ev w) /\
  bucket (constructed name options ev w) (getName name)
    = bucket w (getName name) ++ [next_id w] /\
  (forall x, x <> next_id w ->
     heap (constructed name options ev w) !! x = heap w !! x) /\
  trace (constructed name options ev w) = trace w.
Proof.
  intros Hl.
  set (self := next_id w). set (W := constructed name options ev w).
  set (cn := new_context_attrs name options ev w).
  assert (Hself : lookup_context W self = Some cn).
  { unfold W. rewrite lookup_context_constructed.
    destruct (decide (next_id w = self)) as [_|Hn]; [reflexivity|].
    exfalso. apply Hn. reflexivity. }
  assert (Hb : _CONTEXT_TABLE W !! getName name
               = Some (bucket w (getName name) ++ [self])) by apply lookup_insert_eq.
  split; [|split; [exact Hself|split; [|split; [|reflexivity]]]].
  - rewrite Context___init___registers. fold self W.
    assert (Hm : Context__mergeIntersect self W = Ok false W).
    { unfold Context__mergeIntersect.
      assert (Hh : exists t, heap W !! self = Some (ContextObj t cn)).
      { unfold lookup_context in Hself.
        destruct (heap W !! self) as [[t|t c]|]; try discriminate.
        injection Hself as ->. eauto. }
      destruct Hh as [t Hh].
      rewrite (bind_Ok _ _ _ _ _ (get_context_Some _ _ _ _ Hh)).
      unfold bind at 1. cbn [get]. change (_name cn) with (getName name). rewrite Hb.
      rewrite (mergeIntersect_loop_find W self cn _ Hself).
      - unfold first_sibling. rewrite find_all_false; [reflexivity|].
        intros x Hx. apply list_elem_of_In, elem_of_app in Hx as [Hx|Hx].
        + destruct (Hl x Hx) as (Hne & cx & Hcx & Hap).
          unfold intersects_sibling. rewrite Hself. unfold W.
          rewrite lookup_context_constructed.
          destruct (decide (next_id w = x)); [congruence|].
          rewrite Hcx. unfold apart in Hap. fold cn in Hap. rewrite Hap.
          apply andb_false_r.
        + apply list_elem_of_singleton in Hx as ->.
          unfold intersects_sibling. rewrite Hself.
          rewrite bool_decide_true by reflexivity. reflexivity.
      - intros x Hx. apply elem_of_app in Hx as [Hx|Hx].
        + destruct (Hl x Hx) as (Hne & cx & Hcx & _). unfold W.
          rewrite lookup_context_constructed.
          destruct (decide (next_id w = x)); eauto.
        + apply list_elem_of_singleton in Hx as ->. rewrite Hself. eauto. }
    rewrite (bind_Ok _ _ _ _ _ Hm). reflexivity.
  - unfold bucket at 1. rewrite Hb. reflexivity.
  - intros x Hx. unfold W, constructed. cbn [heap].
    apply lookup_insert_ne. intros E. apply Hx. symmetry. exact E.
Qed.

Lemma init_registers_new_context_witness :
  (forall x,
     x ∈ bucket (two_windows (0, 10) (5, 20)) (getName (NameStr "n")) ->
     x <> next_id (two_windows (0, 10) (5, 20)) /\
     exists cx, lookup_context (two_windows (0, 10) (5, 20)) x = Some cx /\
                apart (new_context_attrs (NameStr "n") (expire_only 5)
                         (Some (msg_at 100)) (two_windows (0, 10) (5, 20))) cx) /\
  exists w',
    Context___init__ (NameStr "n") (expire_only 5) (Some (msg_at 100))
                     (two_windows (0, 10) (5, 20)) = Ok 2%nat w' /\
    window w' 2%nat = Some (95, 105) /\
    bucket w' "n" = [0%nat; 1%nat; 2%nat] /\
    _TIMER_LIST w' = [2%nat].
Proof.
  assert (Hl : forall x,
             x ∈ bucket (two_windows (0, 10) (5, 20)) (getName (NameStr "n")) ->
             x <> next_id (two_windows (0, 10) (5, 20)) /\
             exists cx, lookup_context (two_windows (0, 10) (5, 20)) x = Some cx /\
                        apart (new_context_attrs (NameStr "n") (expire_only 5)
                                 (Some (msg_at 100)) (two_windows (0, 10) (5, 20))) cx).
  { intros x Hx. change (bucket _ _) with [0%nat; 1%nat] in Hx.
    rewrite !elem_of_cons, elem_of_nil in Hx.
    destruct Hx as [->|[->|[]]]; (split; [discriminate|]);
      eexists; (split; [vm_compute; reflexivity|vm_compute; reflexivity]). }
  split; [exact Hl|].
  destruct (init_registers_new_context (NameStr "n") (expire_only 5)
              (Some (msg_at 100)) (two_windows (0, 10) (5, 20)) Hl) as (Hi & _).
  eexists. split; [exact Hi|]. repeat split; vm_compute; reflexivity.
Defined.

Lemma registry_ok_constructed name options ev w :
  registry_ok w ->
  heap w !! next_id w = None ->
  registry_ok (constructed name options ev w).
Proof.
  intros Hok Hfresh n l Hl.
  assert (Hnot : forall m l0 x, _CONTEXT_TABLE w !! m = Some l0 -> x ∈ l0 ->
                   x <> next_id w /\
                   exists cx, lookup_context (constructed name options ev w) x = Some cx /\
                              _name cx = m).
  { intros m l0 x Hm Hx. destruct (Hok m l0 Hm) as (_ & _ & Hall).
    destruct (Hall x Hx) as (cx & Hcx & Hnx).
    assert (Hne : x <> next_id w).
    { intros ->. unfold lookup_context in Hcx. rewrite Hfresh in Hcx. discriminate. }
    split; [exact Hne|]. exists cx. rewrite lookup_context_constructed.
    destruct (decide (next_id w = x)); [congruence|auto]. }
  unfold constructed in Hl. cbn [_CONTEXT_TABLE] in Hl.
  destruct (decide (n = getName name)) as [->|Hn].
  - rewrite lookup_insert_eq in Hl. injection Hl as <-.
    split; [destruct (bucket w (getName name)); discriminate|]. split.
    + apply NoDup_app. unfold bucket.
      destruct (_CONTEXT_TABLE w !! getName name) as [l0|] eqn:Ht; cbn [default].
      * destruct (Hok _ _ Ht) as (_ & Hnd & _). split; [exact Hnd|]. split.
        -- intros x Hx Hs. apply list_elem_of_singleton in Hs.
           destruct (Hnot _ _ x Ht Hx) as [Hne _]. congruence.
        -- apply NoDup_singleton.
      * split; [apply NoDup_nil_2|]. split; [|apply NoDup_singleton].
        intros x Hx. inversion Hx.
    + intros x Hx. apply elem_of_app in Hx as [Hx|Hx].
      * unfold bucket in Hx.
        destruct (_CONTEXT_TABLE w !! getName name) as [l0|] eqn:Ht; [|inversion Hx].
        destruct (Hnot _ _ x Ht Hx) as [_ H]. exact H.
      * apply list_elem_of_singleton in Hx as ->.
        exists (new_context_attrs name options ev w).
        rewrite lookup_context_constructed.
        destruct (decide (next_id w = next_id w)); [auto|congruence].
  - rewrite lookup_insert_ne in Hl by congruence.
    destruct (Hok n l Hl) as (Hne & Hnd & _).
    split; [exact Hne|]. split; [exact Hnd|].
    intros x Hx. destruct (Hnot _ _ x Hl Hx) as [_ H]. exact H.
Qed.

(** X14. A merge on initialization is applied and reported. On a
    registry in order, when some Context of the name passes the test of
    the new window, [__init__] merges the first such Context into the new
    one, logs a critical record and returns the new object: the new
    Context is registered, the merged one is in no bucket, and the
    registry is in order. *)
Theorem init_merges_and_reports name options ev w b :
  registry_ok w ->
  heap w !! next_id w = None ->
  first_sibling (constructed name options ev w) (next_id w)
    (bucket (constructed name options ev w) (getName name)) = Some b ->
  exists w1,
    Context_merge (next_id w) b (constructed name options ev w) = Ok tt w1 /\
    Context___init__ name options ev w = Ok (next_id w) (emit (EvLog LogCritical) w1) /\
    registry_ok w1 /\
    (next_id w ∈ bucket w1 (getName name)) /\
    (b ∈ bucket w (getName name)) /\
    (forall n l, _CONTEXT_TABLE w1 !! n = Some l -> b ∉ l) /\
    trace w1 = trace w.
Proof.
  intros Hok Hfresh Ef.
  set (W := constructed name options ev w) in *.
  assert (HokW : registry_ok W) by exact (registry_ok_constructed _ _ _ _ Hok Hfresh).
  assert (Hself : lookup_context W (next_id w) = Some (new_context_attrs name options ev w)).
  { unfold W. rewrite lookup_context_constructed.
    destruct (decide (next_id w = next_id w)); [reflexivity|congruence]. }
  assert (Hb : bucket W (getName name) = bucket w (getName name) ++ [next_id w]).
  { unfold bucket at 1. unfold W, constructed. cbn [_CONTEXT_TABLE].
    rewrite lookup_insert_eq. reflexivity. }
  assert (Hin : next_id w ∈ bucket W (_name (new_context_attrs name options ev w))).
  { change (_name (new_context_attrs name options ev w)) with (getName name).
    rewrite Hb. apply elem_of_app. right. apply list_elem_of_singleton. reflexivity. }
  destruct (mergeIntersect_some W (next_id w) _ b HokW Hself Hin Ef)
    as (w1 & Hm & Hmerge & Hok1 & Hin1 & Hne & Hbl & Hgone & _ & Htr & _).
  exists w1. split; [exact Hmerge|]. split.
  - rewrite Context___init___registers. fold W.
    rewrite (bind_Ok _ _ _ _ _ Hm). reflexivity.
  - split; [exact Hok1|]. split; [exact Hin1|]. split.
    + change (_name (new_context_attrs name options ev w)) with (getName name) in Hbl.
      rewrite Hb in Hbl. apply elem_of_app in Hbl as [Hbl|Hbl]; [exact Hbl|].
      apply list_elem_of_singleton in Hbl. congruence.
    + split; [exact Hgone|]. rewrite Htr. reflexivity.
Qed.

Lemma init_merges_and_reports_witness :
  (registry_ok (two_windows (0, 10) (50, 60)) /\
   heap (two_windows (0, 10) (50, 60)) !! next_id (two_windows (0, 10) (50, 60)) = None) /\
  exists w',
    Context___init__ (NameStr "n") (expire_only 5) (Some (msg_at 52))
                     (two_windows (0, 10) (50, 60)) = Ok 2%nat w' /\
    trace w' = [EvLog LogCritical].
Proof.
  assert (Hok : registry_ok (two_windows (0, 10) (50, 60)))
    by apply registry_ok_two_windows.
  assert (Hf : heap (two_windows (0, 10) (50, 60))
                 !! next_id (two_windows (0, 10) (50, 60)) = None)
    by (vm_compute; reflexivity).
  split; [auto|].
  assert (Ef : first_sibling
                 (constructed (NameStr "n") (expire_only 5) (Some (msg_at 52))
                    (two_windows (0, 10) (50, 60)))
                 (next_id (two_windows (0, 10) (50, 60)))
                 (bucket (constructed (NameStr "n") (expire_only 5) (Some (msg_at 52))
                            (two_windows (0, 10) (50, 60))) (getName (NameStr "n")))
               = Some 1%nat) by (vm_compute; reflexivity).
  destruct (init_merges_and_reports (NameStr "n") (expire_only 5) (Some (msg_at 52))
              (two_windows (0, 10) (50, 60)) 1%nat Hok Hf Ef)
    as (w1 & _ & Hi & _ & _ & _ & _ & Htr).
  eexists. split; [exact Hi|]. cbn [trace emit]. rewrite Htr. reflexivity.
Defined.

(** ** update, setOptions and expiry, continued *)

(** X15. [update] reaches the alert path only with an event and with
    [alert_on_expire] enabled. Without an event, or on a Context that does
    not alert on expiry, it returns whatever the update count is: the
    count is one higher, the event if any is recorded, the options are
    merged, nothing is emitted and the registry is as before. *)
Theorem update_without_alert call_cb w self t c options ev timer_rst :
  heap w !! self = Some (ContextObj t c) ->
  ev = None \/ truthy_aoe (alert_on_expire (_options c)) = false ->
  exists w' t',
    Context_update call_cb self options ev timer_rst w = Ok tt w' /\
    heap w' !! self
      = Some (ContextObj t'
                (set_options (dict_update (_options c) options)
                   (match ev with
                    | Some m => recorded c m
                    | None => set_update_count (_update_count c + 1) c
                    end))) /\
    trace w' = trace w /\
    _CONTEXT_TABLE w' = _CONTEXT_TABLE w.
Proof.
  intros Hh Hcase. unfold Context_update.
  rewrite (bind_Ok _ _ _ _ _
             (update_context_Some w self t c
                (fun c0 => set_update_count (_update_count c0 + 1) c0) Hh)).
  cbv zeta.
  destruct ev as [m|].
  - destruct Hcase as [Hev|Haoe]; [discriminate|].
    assert (E2 : IDMEF_addAlertReference self m
                   (store self (ContextObj t (set_update_count (_update_count c + 1) c)) w)
                 = Ok tt (store self (ContextObj t (recorded c m)) w)).
    { unfold IDMEF_addAlertReference.
      rewrite (update_context_Some _ self t _
                 (fun c0 => set_idmef (addAlertReference_record (idmef c0) m) c0)
                 (heap_store_eq _ _ _)), store_store.
      reflexivity. }
    rewrite (bind_Ok _ _ _ _ _ E2).
    rewrite (bind_Ok _ _ _ _ _ (get_context_Some _ _ _ _ (heap_store_eq _ _ _))).
    change (_options (recorded c m)) with (_options c). rewrite Haoe. cbn [andb].
    destruct (Context_update_rest_kept _ self t (recorded c m) options timer_rst
                (heap_store_eq self _ w)) as (w' & t' & Hr & Hh' & Htr & Htb).
    exists w', t'. auto.
  - destruct (Context_update_rest_kept _ self t
                (set_update_count (_update_count c + 1) c) options timer_rst
                (heap_store_eq self _ w)) as (w' & t' & Hr & Hh' & Htr & Htb).
    exists w', t'. auto.
Qed.

Lemma update_without_alert_witness :
  exists w',
    Context_update sample_cb 0%nat no_options None false (threshold_world 1000) = Ok tt w' /\
    _update_count <$> lookup_context w' 0%nat = Some 1001 /\
    trace w' = [] /\ bucket w' "n" = [0%nat].
Proof.
  destruct (update_without_alert sample_cb (threshold_world 1000) 0%nat _ _
              no_options None false eq_refl (or_introl eq_refl))
    as (w' & t' & Hu & Hh & Htr & Htb).
  exists w'. split; [exact Hu|]. split; [|split; [exact Htr|]].
  - unfold lookup_context. rewrite Hh. reflexivity.
  - unfold bucket. rewrite Htb. reflexivity.
Defined.

(** X16. [setOptions], and so an [update] that brings options, on a
    Context whose timer runs changes the options and the expiry of the
    timer and nothing else: the timer keeps its start time and is not
    registered again, the window is not computed anew from the new
    [expire], and [_next_wakeup] is not lowered to it. *)
Theorem setOptions_on_running_timer w self t c s options :
  heap w !! self = Some (ContextObj t c) ->
  _timer_start t = Some s ->
  Context_setOptions self options w
    = Ok tt (store self
               (ContextObj
                  (mkTimer (Some s) (expire (dict_update (_options c) options)) (_timer_cb t))
                  (set_options (dict_update (_options c) options) c)) w).
Proof.
  intros Hh Hs. rewrite (Context_setOptions_Some w self t c options Hh).
  unfold with_options. rewrite Hs, orb_true_r. reflexivity.
Qed.

Lemma setOptions_on_running_timer_witness :
  exists w',
    Context_setOptions 0%nat (expire_only 10) (threshold_world 0) = Ok tt w' /\
    lookup_timer w' 0%nat = Some (mkTimer (Some 100) 10 None) /\
    window w' 0%nat = Some (40, 160) /\
    _next_wakeup w' = _next_wakeup (threshold_world 0) /\
    _TIMER_LIST w' = [0%nat].
Proof.
  rewrite (setOptions_on_running_timer (threshold_world 0) 0%nat _ _ 100
             (expire_only 10) eq_refl eq_refl).
  eexists. split; [reflexivity|]. repeat split; vm_compute; reflexivity.
Defined.

(** X17. A registered Context that does not alert on expiry is destroyed
    without a word when its timer runs out, whatever its threshold and
    however many updates it has seen: nothing is emitted, its timer is
    stopped and it leaves its bucket. *)
Theorem expiry_without_alert_policy call_cb w self t c l :
  heap w !! self = Some (ContextObj t c) ->
  alert_on_expire (_options c) = AoeFalse ->
  _CONTEXT_TABLE w !! _name c = Some l ->
  self ∈ l ->
  exists w' l',
    Context__timerExpireCallback call_cb self w = Ok tt w' /\
    trace w' = trace w /\
    list_remove self l = Some l' /\
    _CONTEXT_TABLE w' = table_without (_name c) l' (_CONTEXT_TABLE w) /\
    _timer_start <$> lookup_timer w' self = Some None.
Proof.
  intros Hh Ha Ht Hin.
  assert (Hcb : forall cb, alert_on_expire (_options c) <> AoeCallable cb)
    by (intros cb; rewrite Ha; discriminate).
  destruct (Context_expiry_destroys call_cb w self t c l Hh Hcb Ht Hin)
    as (w' & l' & Hx & Hh' & Hl & Htb & Htr).
  exists w', l'. split; [exact Hx|]. split.
  - rewrite Htr, Ha. cbn. apply app_nil_r.
  - split; [exact Hl|]. split; [exact Htb|].
    unfold lookup_timer. rewrite Hh'. reflexivity.
Qed.

Lemma expiry_without_alert_policy_witness :
  (alert_on_expire (mkOptions (-1) 0 AoeFalse) = AoeFalse /\ 1%nat ∈ [0%nat; 1%nat]) /\
  exists w',
    Context__timerExpireCallback sample_cb 1%nat (two_windows (0, 10) (5, 20)) = Ok tt w' /\
    trace w' = [] /\ bucket w' "n" = [0%nat].
Proof.
  assert (Hin : 1%nat ∈ [0%nat; 1%nat])
    by (apply elem_of_cons; right; apply elem_of_cons; auto).
  split; [auto|].
  destruct (expiry_without_alert_policy sample_cb (two_windows (0, 10) (5, 20)) 1%nat _ _
              [0%nat; 1%nat] eq_refl eq_refl eq_refl Hin)
    as (w' & l' & Hx & Htr & Hl & Htb & _).
  exists w'. split; [exact Hx|]. split; [exact Htr|].
  unfold bucket. rewrite Htb. injection Hl as <-. reflexivity.
Defined.

(** ** What an update leaves alone *)

Lemma only_object_refl self w : only_object self w w.
Proof. unfold only_object. auto 10. Qed.

Lemma only_object_trans self w1 w2 w3 :
  only_object self w1 w2 -> only_object self w2 w3 -> only_object self w1 w3.
Proof.
  unfold only_object. intros (A1 & A2 & A3 & A4 & A5 & A6) (B1 & B2 & B3 & B4 & B5 & B6).
  repeat split; try congruence. intros x Hx. rewrite (B6 x Hx). exact (A6 x Hx).
Qed.

Lemma only_object_store self o w : only_object self w (store self o w).
Proof.
  unfold only_object. repeat split. intros x Hx. apply heap_store_ne. congruence.
Qed.

Lemma only_object_started self o reset w : only_object self w (started self o reset w).
Proof.
  unfold only_object, started. destruct reset; repeat split;
    intros x Hx; change (heap (set_next_wakeup ?z ?y)) with (heap y);
    rewrite heap_store_ne by congruence; reflexivity.
Qed.

Lemma Timer_start_frame w self t c reset :
  heap w !! self = Some (ContextObj t c) ->
  exists w' t',
    Timer_start self reset w = Ok tt w' /\
    heap w' !! self = Some (ContextObj t' c) /\
    only_object self w w'.
Proof.
  intros Hh. rewrite (Timer_start_Some _ _ _ reset Hh).
  destruct (_ || _).
  - exists w, t. split; [reflexivity|]. split; [exact Hh|apply only_object_refl].
  - eexists _, _. split; [reflexivity|]. split; [|apply only_object_started].
    unfold started. cbn [timer_of with_timer].
    change (heap (set_next_wakeup ?z ?x)) with (heap x). apply heap_store_eq.
Qed.

Lemma Context_setOptions_frame w self t c options :
  heap w !! self = Some (ContextObj t c) ->
  exists w' t',
    Context_setOptions self options w = Ok tt w' /\
    heap w' !! self
      = Some (ContextObj t' (set_options (dict_update (_options c) options) c)) /\
    only_object self w w'.
Proof.
  intros Hh. rewrite (Context_setOptions_Some w self t c options Hh).
  unfold with_options. cbv zeta. destruct (_ || _).
  - eexists _, _. split; [reflexivity|]. split; [apply heap_store_eq|].
    apply only_object_store.
  - eexists _, _. split; [reflexivity|]. split.
    + unfold started. cbn [timer_of with_timer].
      change (heap (set_next_wakeup ?z ?x)) with (heap x). apply heap_store_eq.
    + eapply only_object_trans; [apply only_object_store|apply only_object_started].
Qed.

Lemma Context_update_rest_frame w self t c options timer_rst :
  heap w !! self = Some (ContextObj t c) ->
  exists w' t',
    Context_update_rest self options timer_rst w = Ok tt w' /\
    heap w' !! self
      = Some (ContextObj t' (set_options (dict_update (_options c) options) c)) /\
    only_object self w w'.
Proof.
  intros Hh. unfold Context_update_rest.
  rewrite (bind_Ok _ _ _ _ _ (Timer_running_Some _ _ _ Hh)).
  assert (E : exists w1 t1,
             (if timer_rst && match _timer_start (timer_of (ContextObj t c)) with
                              | Some _ => true | None => false end
              then Timer_reset self else ret tt) w = Ok tt w1 /\
             heap w1 !! self = Some (ContextObj t1 c) /\ only_object self w w1).
  { destruct (timer_rst && _).
    - exact (Timer_start_frame w self t c true Hh).
    - exists w, t. split; [reflexivity|]. split; [exact Hh|apply only_object_refl]. }
  destruct E as (w1 & t1 & E & Hh1 & Ho1).
  rewrite (bind_Ok _ _ _ _ _ E).
  destruct (Context_setOptions_frame w1 self t1 c options Hh1) as (w' & t' & Hs & Hh' & Ho').
  exists w', t'. split; [exact Hs|]. split; [exact Hh'|].
  exact (only_object_trans _ _ _ _ Ho1 Ho').
Qed.

(** [update] when it does not take the alert path. *)
Lemma Context_update_frame call_cb w self t c options ev timer_rst :
  heap w !! self = Some (ContextObj t c) ->
  ev = None \/ truthy_aoe (alert_on_expire (_options c)) = false
  \/ _update_count c + 1 < _IDMEF_QUEUE_LIMIT ->
  exists w' t',
    Context_update call_cb self options ev timer_rst w = Ok tt w' /\
    heap w' !! self
      = Some (ContextObj t' (set_options (dict_update (_options c) options) (counted c ev))) /\
    only_object self w w'.
Proof.
  intros Hh Hcase. unfold Context_update.
  rewrite (bind_Ok _ _ _ _ _
             (update_context_Some w self t c
                (fun c0 => set_update_count (_update_count c0 + 1) c0) Hh)).
  cbv zeta.
  assert (Hfin : forall c1,
             exists w' t',
               Context_update_rest self options timer_rst (store self (ContextObj t c1) w)
                 = Ok tt w' /\
               heap w' !! self
                 = Some (ContextObj t' (set_options (dict_update (_options c1) options) c1)) /\
               only_object self w w').
  { intros c1.
    destruct (Context_update_rest_frame _ self t c1 options timer_rst
                (heap_store_eq self _ w)) as (w' & t' & Hr & Hh' & Ho).
    exists w', t'. split; [exact Hr|]. split; [exact Hh'|].
    exact (only_object_trans _ _ _ _ (only_object_store self _ w) Ho). }
  destruct ev as [m|]; [|exact (Hfin _)].
  assert (E2 : IDMEF_addAlertReference self m
                 (store self (ContextObj t (set_update_count (_update_count c + 1) c)) w)
               = Ok tt (store self (ContextObj t (recorded c m)) w)).
  { unfold IDMEF_addAlertReference.
    rewrite (update_context_Some _ self t _
               (fun c0 => set_idmef (addAlertReference_record (idmef c0) m) c0)
               (heap_store_eq _ _ _)), store_store.
    reflexivity. }
  rewrite (bind_Ok _ _ _ _ _ E2).
  rewrite (bind_Ok _ _ _ _ _ (get_context_Some _ _ _ _ (heap_store_eq _ _ _))).
  change (_options (recorded c m)) with (_options c).
  change (_update_count (recorded c m)) with (_update_count c + 1).
  assert (E : truthy_aoe (alert_on_expire (_options c))
              && (_update_count c + 1 >=? _IDMEF_QUEUE_LIMIT) = false).
  { destruct Hcase as [Hev|[Ha|Hc]]; [discriminate|rewrite Ha; reflexivity|].
    apply andb_false_iff. right. rewrite Z.geb_leb. apply Z.leb_gt. lia. }
  rewrite E. exact (Hfin (recorded c m)).
Qed.

Lemma registry_ok_frame w w' :
  registry_ok w ->
  _CONTEXT_TABLE w' = _CONTEXT_TABLE w ->
  (forall x c, lookup_context w x = Some c ->
               exists c', lookup_context w' x = Some c' /\ _name c' = _name c) ->
  registry_ok w'.
Proof.
  intros Hok Ht Hl n l Hn. rewrite Ht in Hn.
  destruct (Hok n l Hn) as (Hne & Hnd & Hall).
  split; [exact Hne|]. split; [exact Hnd|].
  intros x Hx. destruct (Hall x Hx) as (c & Hc & Hnc).
  destruct (Hl x c Hc) as (c' & Hc' & Hn'). exists c'. split; [exact Hc'|congruence].
Qed.

(** ** Context(...): __new__ *)

Lemma Context_call_ungrouped call_cb get_grouping str_seq name options overwrite update ev
    timer_rst :
  (forall m, ev = Some m -> get_grouping m = None \/ get_grouping m = Some EmptyString) ->
  Context_call call_cb get_grouping str_seq name options overwrite update ev timer_rst
    = call_under call_cb name name options overwrite update ev timer_rst.
Proof.
  intros Hg. unfold Context_call, call_under. destruct ev as [m|]; [|reflexivity].
  destruct (Hg m eq_refl) as [-> | ->]; reflexivity.
Qed.

Lemma Context_call_grouped call_cb get_grouping str_seq name options overwrite update m v
    timer_rst :
  get_grouping m = Some v -> v <> EmptyString ->
  Context_call call_cb get_grouping str_seq name options overwrite update (Some m) timer_rst
    = call_under call_cb
        (NameStr (match name with NameStr s => s | NameSeq l => str_seq l end +:+ "_" +:+ v))
        name options overwrite update (Some m) timer_rst.
Proof.
  intros Hg Hv. unfold Context_call, call_under. rewrite Hg.
  destruct (String.eqb v EmptyString) eqn:E; [|reflexivity].
  apply String.eqb_eq in E. contradiction.
Qed.

Lemma registry_ok_bucket w n x :
  registry_ok w -> x ∈ bucket w n ->
  exists c, lookup_context w x = Some c /\ _name c = n.
Proof.
  intros Hok Hx. unfold bucket in Hx.
  destruct (_CONTEXT_TABLE w !! n) as [l|] eqn:Ht; [|inversion Hx].
  destruct (Hok n l Ht) as (_ & _ & Hall). exact (Hall x Hx).
Qed.

Lemma search_event w name ev update :
  registry_ok w ->
  search name (arg_of ev) update w
    = Ok (first_intersecting w ev (bucket w (getName name)))
         (if update
          then widen_found w ev (first_intersecting w ev (bucket w (getName name)))
          else w).
Proof.
  intros Hok. apply (search_loop_event w _ ev update).
  intros x Hx. destruct (registry_ok_bucket w _ x Hok Hx) as (c & Hc & _). eauto.
Qed.

Lemma lookup_context_heap w x c :
  lookup_context w x = Some c -> exists t, heap w !! x = Some (ContextObj t c).
Proof.
  unfold lookup_context. destruct (heap w !! x) as [[t|t c0]|]; try discriminate.
  intros [= ->]. eauto.
Qed.

Lemma registry_ok_only_object w w' self c c' :
  registry_ok w ->
  only_object self w w' ->
  lookup_context w self = Some c ->
  lookup_context w' self = Some c' ->
  _name c' = _name c ->
  registry_ok w'.
Proof.
  intros Hok (_ & Ht & _ & _ & _ & Hh) Hc Hc' Hn.
  apply (registry_ok_frame w w' Hok Ht). intros x cx Hx.
  destruct (decide (x = self)) as [->|Hne].
  - exists c'. split; [exact Hc'|congruence].
  - exists cx. split; [|reflexivity]. unfold lookup_context. rewrite (Hh x Hne). exact Hx.
Qed.

(** [_mergeIntersect] of a registered Context, on a registry in order. *)
Lemma mergeIntersect_total w self c :
  registry_ok w ->
  lookup_context w self = Some c ->
  self ∈ bucket w (_name c) ->
  exists r w',
    Context__mergeIntersect self w = Ok r w' /\
    registry_ok w' /\
    (self ∈ bucket w' (_name c)) /\
    trace w' = trace w /\
    next_id w' = next_id w /\
    (forall n, n <> _name c -> _CONTEXT_TABLE w' !! n = _CONTEXT_TABLE w !! n) /\
    (forall x, heap w !! x = None -> heap w' !! x = None).
Proof.
  intros Hok Hc Hin.
  destruct (first_sibling w self (bucket w (_name c))) as [b|] eqn:Ef.
  - destruct (mergeIntersect_some w self c b Hok Hc Hin Ef)
      as (w' & Hm & _ & Hok' & Hin' & _ & _ & _ & _ & Htr & Hid & Hoth & Hnone).
    exists true, w'. auto 10.
  - exists false, w. split; [exact (mergeIntersect_none w self c Hok Hc Hin Ef)|]. auto 10.
Qed.

Lemma fresh_ids_constructed name options ev w :
  fresh_ids w -> fresh_ids (constructed name options ev w).
Proof.
  intros Hf x Hx. unfold constructed in *. cbn [heap next_id] in *.
  rewrite lookup_insert_ne by lia. apply Hf. lia.
Qed.

(** [__init__] on a registry in order. *)
Lemma Context___init___total name options ev w :
  registry_ok w ->
  fresh_ids w ->
  exists w',
    Context___init__ name options ev w = Ok (next_id w) w' /\
    registry_ok w' /\
    fresh_ids w' /\
    (next_id w ∈ bucket w' (getName name)) /\
    next_id w' = S (next_id w) /\
    (forall n, n <> getName name -> _CONTEXT_TABLE w' !! n = _CONTEXT_TABLE w !! n).
Proof.
  intros Hok Hf.
  set (W := constructed name options ev w).
  assert (HokW : registry_ok W)
    by exact (registry_ok_constructed _ _ _ _ Hok (Hf _ (Nat.le_refl _))).
  assert (Hself : lookup_context W (next_id w) = Some (new_context_attrs name options ev w)).
  { unfold W. rewrite lookup_context_constructed.
    destruct (decide (next_id w = next_id w)); [reflexivity|congruence]. }
  assert (Hin : next_id w ∈ bucket W (_name (new_context_attrs name options ev w))).
  { change (_name (new_context_attrs name options ev w)) with (getName name).
    unfold bucket, W, constructed. cbn [_CONTEXT_TABLE].
    rewrite lookup_insert_eq. apply elem_of_app. right.
    apply list_elem_of_singleton. reflexivity. }
  destruct (mergeIntersect_total W (next_id w) _ HokW Hself Hin)
    as (r & w' & Hm & Hok' & Hin' & _ & Hid & Hoth & Hnone).
  change (_name (new_context_attrs name options ev w)) with (getName name) in *.
  assert (HfW : fresh_ids W) by exact (fresh_ids_constructed _ _ _ _ Hf).
  assert (Hfin : forall w2 : World,
             heap w2 = heap w' -> next_id w2 = next_id w' ->
             _CONTEXT_TABLE w2 = _CONTEXT_TABLE w' ->
             registry_ok w2 /\ fresh_ids w2 /\ (next_id w ∈ bucket w2 (getName name)) /\
             next_id w2 = S (next_id w) /\
             (forall n, n <> getName name ->
                        _CONTEXT_TABLE w2 !! n = _CONTEXT_TABLE w !! n)).
  { intros w2 Hh Hn Ht. split; [|split; [|split; [|split]]].
    - apply (registry_ok_frame w' w2 Hok' Ht). intros x c Hx. exists c.
      unfold lookup_context in *. rewrite Hh. auto.
    - intros x Hx. rewrite Hh. apply Hnone. apply HfW. rewrite Hn, Hid in Hx. exact Hx.
    - unfold bucket. rewrite Ht. exact Hin'.
    - rewrite Hn, Hid. reflexivity.
    - intros n Hne. rewrite Ht, (Hoth n Hne). unfold W, constructed.
      cbn [_CONTEXT_TABLE]. apply lookup_insert_ne. congruence. }
  rewrite Context___init___registers. fold W.
  rewrite (bind_Ok _ _ _ _ _ Hm).
  destruct r.
  - eexists. split; [reflexivity|]. apply Hfin; reflexivity.
  - exists w'. split; [reflexivity|]. apply Hfin; reflexivity.
Qed.

(** X18. With [update=True], on a registry in order, for a call whose
    event, if there is one, has no grouping value, and as long as the
    update does not reach the alert (there is no event, or
    [alert_on_expire] is off, or the update count stays below the cap):
    a call that finds a Context of the name whose window passes the test
    against the event returns that very Context and allocates nothing.
    The Context it leaves for the merge scan has its window widened by
    the lookup, its update count one higher, the event recorded and the
    options of the call merged in; no other object and no bucket has
    changed by then. The merge scan that follows returns, the Context
    stays registered and the registry in order. *)
Theorem call_updates_found_context call_cb get_grouping str_seq w name options overwrite ev
    timer_rst ctx c :
  registry_ok w ->
  (forall m, ev = Some m -> get_grouping m = None \/ get_grouping m = Some EmptyString) ->
  first_intersecting w ev (bucket w (getName name)) = Some ctx ->
  lookup_context w ctx = Some c ->
  ev = None \/ truthy_aoe (alert_on_expire (_options c)) = false
  \/ _update_count c + 1 < _IDMEF_QUEUE_LIMIT ->
  exists w2 r w',
    lookup_context w2 ctx
      = Some (set_options (dict_update (_options c) options)
                (counted (widened c (derived_window w ev c)) ev)) /\
    only_object ctx w w2 /\
    Context__mergeIntersect ctx w2 = Ok r w' /\
    Context_call call_cb get_grouping str_seq name options overwrite true ev timer_rst w
      = Ok ctx w' /\
    registry_ok w' /\
    (ctx ∈ bucket w' (getName name)) /\
    next_id w' = next_id w /\
    trace w' = trace w.
Proof.
  intros Hok Hg Hf Hc Hcase.
  pose proof Hf as Hfind. apply find_some in Hfind as [Hin _].
  apply list_elem_of_In in Hin.
  destruct (registry_ok_bucket w _ ctx Hok Hin) as (c0 & Hc0 & Hname).
  rewrite Hc in Hc0. injection Hc0 as <-.
  destruct (lookup_context_heap w ctx c Hc) as [t Hh].
  set (c1 := widened c (derived_window w ev c)).
  set (w1 := store ctx (ContextObj t c1) w).
  assert (Hw1 : widen_found w ev (Some ctx) = w1).
  { unfold widen_found. rewrite Hh. reflexivity. }
  destruct (Context_update_frame call_cb w1 ctx t c1 options ev timer_rst
              (heap_store_eq _ _ _) Hcase) as (w2 & t2 & Hu & Hh2 & Ho2).
  set (c2 := set_options (dict_update (_options c1) options) (counted c1 ev)) in *.
  assert (Hn2 : _name c2 = _name c) by (destruct ev; reflexivity).
  assert (Hc2 : lookup_context w2 ctx = Some c2)
    by (unfold lookup_context; rewrite Hh2; reflexivity).
  assert (Ho : only_object ctx w w2)
    by exact (only_object_trans _ _ _ _ (only_object_store ctx _ w) Ho2).
  assert (Hok2 : registry_ok w2)
    by exact (registry_ok_only_object w w2 ctx c c2 Hok Ho Hc Hc2 Hn2).
  assert (Hin2 : ctx ∈ bucket w2 (_name c2)).
  { rewrite Hn2, Hname. unfold bucket. destruct Ho as (_ & -> & _). exact Hin. }
  destruct (mergeIntersect_total w2 ctx c2 Hok2 Hc2 Hin2)
    as (r & w' & Hm & Hok' & Hin' & Htr & Hid & _).
  exists w2, r, w'. split; [exact Hc2|]. split; [exact Ho|]. split; [exact Hm|].
  split; [|split; [exact Hok'|split; [|split]]].
  - rewrite (Context_call_ungrouped _ _ _ _ _ _ _ _ _ Hg). unfold call_under.
    cbn [orb].
    rewrite (bind_Ok _ _ _ _ _ (search_event w name ev true Hok)), Hf, Hw1.
    assert (E : (Context_update call_cb ctx options ev timer_rst ;;;
                 _m <- Context__mergeIntersect ctx ;; ret tt) w1 = Ok tt w').
    { rewrite (bind_Ok _ _ _ _ _ Hu), (bind_Ok _ _ _ _ _ Hm). reflexivity. }
    rewrite (bind_Ok _ _ _ _ _ E). reflexivity.
  - rewrite Hn2, Hname in Hin'. exact Hin'.
  - rewrite Hid. destruct Ho as (-> & _). reflexivity.
  - rewrite Htr. destruct Ho as (_ & _ & -> & _). reflexivity.
Qed.

(** Windows [0, 10] and [50, 60] with [expire = 5], and an event at time
    48: the call returns the second Context, the one the lookup finds. *)
Lemma call_updates_found_context_witness :
  registry_ok (two_windows_expire 5 (0, 10) (50, 60)) /\
  first_intersecting (two_windows_expire 5 (0, 10) (50, 60)) (Some (msg_at 48))
    (bucket (two_windows_expire 5 (0, 10) (50, 60)) (getName (NameStr "n"))) = Some 1%nat /\
  exists w',
    new_context (NameStr "n") no_options true true (Some (msg_at 48)) false
      (two_windows_expire 5 (0, 10) (50, 60)) = Ok 1%nat w' /\
    next_id w' = 2%nat.
Proof.
  assert (Hok : registry_ok (two_windows_expire 5 (0, 10) (50, 60)))
    by apply registry_ok_two_windows.
  split; [exact Hok|]. split; [reflexivity|].
  destruct (call_updates_found_context sample_cb (fun _ => None) (fun _ => EmptyString)
              (two_windows_expire 5 (0, 10) (50, 60)) (NameStr "n") no_options true
              (Some (msg_at 48)) false 1%nat _ Hok
              (fun m _ => or_introl eq_refl) eq_refl eq_refl
              (or_intror (or_introl eq_refl)))
    as (w2 & r & w' & _ & _ & _ & Hcall & _ & _ & Hid & _).
  exists w'. split; [exact Hcall|exact Hid].
Defined.

(** [update] with an event, up to the choice between the alert and the
    rest. *)
Lemma Context_update_event call_cb w self t c options m timer_rst :
  heap w !! self = Some (ContextObj t c) ->
  Context_update call_cb self options (Some m) timer_rst w
    = (if truthy_aoe (alert_on_expire (_options c))
          && (_update_count c + 1 >=? _IDMEF_QUEUE_LIMIT)
       then Context__alert call_cb self
       else Context_update_rest self options timer_rst)
        (store self (ContextObj t (recorded c m)) w).
Proof.
  intros Hh. unfold Context_update.
  rewrite (bind_Ok _ _ _ _ _
             (update_context_Some w self t c
                (fun c0 => set_update_count (_update_count c0 + 1) c0) Hh)).
  cbv zeta.
  assert (E2 : IDMEF_addAlertReference self m
                 (store self (ContextObj t (set_update_count (_update_count c + 1) c)) w)
               = Ok tt (store self (ContextObj t (recorded c m)) w)).
  { unfold IDMEF_addAlertReference.
    rewrite (update_context_Some _ self t _
               (fun c0 => set_idmef (addAlertReference_record (idmef c0) m) c0)
               (heap_store_eq _ _ _)), store_store.
    reflexivity. }
  rewrite (bind_Ok _ _ _ _ _ E2).
  rewrite (bind_Ok _ _ _ _ _ (get_context_Some _ _ _ _ (heap_store_eq _ _ _))).
  reflexivity.
Qed.

Lemma registry_ok_threshold_world n : registry_ok (threshold_world n).
Proof.
  intros k l Hl. cbn [_CONTEXT_TABLE threshold_world] in Hl.
  destruct (decide (k = "n")) as [->|Hk].
  - rewrite lookup_insert_eq in Hl. injection Hl as <-.
    split; [discriminate|]. split.
    + apply NoDup_singleton.
    + intros x Hx. apply list_elem_of_singleton in Hx as ->.
      eexists. split; [reflexivity|reflexivity].
  - rewrite lookup_insert_ne, lookup_empty in Hl by congruence. discriminate.
Qed.

(** X25. With [update=True], a call whose update reaches the cap on a
    Context that is alone in its bucket and alerts on expiry by the
    built-in path does not return: on a registry in order, for an event
    without grouping value, when the only Context of the name passes the
    test against the event, has [alert_on_expire] set to [True] and sees
    its update count reach 256 with this update, the alert is emitted with
    the event recorded, the Context is destroyed, which stops its timer
    and removes its bucket from the table, and the merge scan that
    [__new__] then runs on the destroyed Context raises [KeyError] for the
    missing bucket. Nothing is allocated. *)
Theorem call_update_at_cap_raises call_cb get_grouping str_seq w name options overwrite m
    timer_rst ctx c :
  registry_ok w ->
  get_grouping m = None \/ get_grouping m = Some EmptyString ->
  bucket w (getName name) = [ctx] ->
  intersects_event w (Some m) ctx = true ->
  lookup_context w ctx = Some c ->
  alert_on_expire (_options c) = AoeTrue ->
  _update_count c + 1 >= _IDMEF_QUEUE_LIMIT ->
  exists w',
    Context_call call_cb get_grouping str_seq name options overwrite true (Some m)
                 timer_rst w = Raise KeyError w' /\
    trace w'
      = trace w ++ [EvAlert ctx (idmef (recorded (widened c (derived_window w (Some m) c)) m))] /\
    _CONTEXT_TABLE w' !! getName name = None /\
    _timer_start <$> lookup_timer w' ctx = Some None /\
    next_id w' = next_id w.
Proof.
  intros Hok Hg Hb Hint Hc Haoe Hcap.
  assert (Hin : ctx ∈ bucket w (getName name))
    by (rewrite Hb; apply list_elem_of_singleton; reflexivity).
  destruct (registry_ok_bucket w _ ctx Hok Hin) as (c0 & Hc0 & Hname).
  rewrite Hc in Hc0. injection Hc0 as <-.
  destruct (lookup_context_heap w ctx c Hc) as [t Hh].
  assert (Ht : _CONTEXT_TABLE w !! _name c = Some [ctx]).
  { rewrite Hname. unfold bucket in Hb.
    destruct (_CONTEXT_TABLE w !! getName name) as [l|]; [|discriminate].
    cbn in Hb. rewrite Hb. reflexivity. }
  assert (Hf : first_intersecting w (Some m) (bucket w (getName name)) = Some ctx).
  { rewrite Hb. unfold first_intersecting. cbn [List.find]. rewrite Hint. reflexivity. }
  set (c1 := widened c (derived_window w (Some m) c)).
  set (w1 := store ctx (ContextObj t c1) w).
  assert (Hw1 : widen_found w (Some m) (Some ctx) = w1).
  { unfold widen_found. rewrite Hh. reflexivity. }
  set (w2 := emit (EvAlert ctx (idmef (recorded c1 m)))
               (store ctx (ContextObj t (recorded c1 m)) w1)).
  assert (Hh2 : heap w2 !! ctx = Some (ContextObj t (recorded c1 m)))
    by apply heap_store_eq.
  assert (Hr : list_remove ctx [ctx] = Some []).
  { cbn. destruct (decide (ctx = ctx)); [reflexivity|congruence]. }
  set (w3 := set_CONTEXT_TABLE (table_without (_name c) [] (_CONTEXT_TABLE w))
               (store ctx
                  (ContextObj (mkTimer None (_timer_expire t) (_timer_cb t)) (recorded c1 m))
                  w2)).
  assert (Hu : Context_update call_cb ctx options (Some m) timer_rst w1 = Ok tt w3).
  { rewrite (Context_update_event call_cb w1 ctx t c1 options m timer_rst
               (heap_store_eq _ _ _)).
    change (_options c1) with (_options c).
    change (_update_count c1) with (_update_count c).
    rewrite Haoe. cbn [truthy_aoe andb].
    assert (E : (_update_count c + 1 >=? _IDMEF_QUEUE_LIMIT) = true)
      by (rewrite Z.geb_leb; apply Z.leb_le; lia).
    rewrite E.
    rewrite (Context__alert_Some call_cb _ ctx t (recorded c1 m) (heap_store_eq _ _ _)).
    change (alert_on_expire (_options (recorded c1 m))) with (alert_on_expire (_options c)).
    rewrite Haoe. fold w2.
    exact (Context_destroy_Some w2 ctx t (recorded c1 m) [ctx] [] Hh2 Ht Hr). }
  assert (Hgone : _CONTEXT_TABLE w3 !! _name c = None).
  { unfold w3, table_without. cbn [_CONTEXT_TABLE set_CONTEXT_TABLE].
    apply lookup_delete_eq. }
  assert (Hm : Context__mergeIntersect ctx w3 = Raise KeyError w3).
  { unfold Context__mergeIntersect.
    rewrite (bind_Ok _ _ _ _ _ (get_context_Some w3 ctx _ _ (heap_store_eq _ _ _))).
    unfold bind at 1. cbn [get].
    change (_name (recorded c1 m)) with (_name c). rewrite Hgone. reflexivity. }
  exists w3. split; [|split; [reflexivity|split; [|split; [|reflexivity]]]].
  - rewrite (Context_call_ungrouped call_cb get_grouping str_seq name options overwrite true
               (Some m) timer_rst).
    2:{ intros m' [= <-]. exact Hg. }
    unfold call_under. cbn [orb].
    rewrite (bind_Ok _ _ _ _ _ (search_event w name (Some m) true Hok)), Hf, Hw1.
    assert (E : (Context_update call_cb ctx options (Some m) timer_rst ;;;
                 _m <- Context__mergeIntersect ctx ;; ret tt) w1 = Raise KeyError w3).
    { rewrite (bind_Ok _ _ _ _ _ Hu). exact (bind_Raise _ _ _ _ _ Hm). }
    exact (bind_Raise _ _ _ _ _ E).
  - rewrite <- Hname. exact Hgone.
  - unfold lookup_timer, w3.
    change (heap (set_CONTEXT_TABLE ?tb ?w0)) with (heap w0).
    rewrite heap_store_eq. reflexivity.
Qed.

(** The Context of [threshold_world] after 255 updates, and one more
    with an event at time 120. *)
Lemma call_update_at_cap_raises_witness :
  (registry_ok (threshold_world 255) /\
   bucket (threshold_world 255) (getName (NameStr "n")) = [0%nat] /\
   intersects_event (threshold_world 255) (Some (msg_at 120)) 0%nat = true /\
   255 + 1 >= _IDMEF_QUEUE_LIMIT) /\
  exists w',
    new_context (NameStr "n") no_options true true (Some (msg_at 120)) false
      (threshold_world 255) = Raise KeyError w' /\
    length (trace w') = 1%nat /\
    bucket w' "n" = [].
Proof.
  assert (Hok : registry_ok (threshold_world 255)) by apply registry_ok_threshold_world.
  assert (Hcap : 255 + 1 >= _IDMEF_QUEUE_LIMIT) by (unfold _IDMEF_QUEUE_LIMIT; lia).
  split; [split; [exact Hok|split; [reflexivity|split; [reflexivity|exact Hcap]]]|].
  destruct (call_update_at_cap_raises sample_cb (fun _ => None) (fun _ => EmptyString)
              (threshold_world 255) (NameStr "n") no_options true (msg_at 120) false
              0%nat _ Hok (or_introl eq_refl) eq_refl eq_refl eq_refl eq_refl Hcap)
    as (w' & Hcall & Htr & Htb & _).
  exists w'. split; [exact Hcall|]. split.
  - rewrite Htr. reflexivity.
  - unfold bucket. change "n" with (getName (NameStr "n")). rewrite Htb. reflexivity.
Defined.

(** X19. With neither [update] nor [overwrite], on a registry in
    order, a call returns the first Context of the name whose window
    passes the test against the event, without applying the options of the
    call and without counting the event, but with its window widened by
    the lookup; when there is none the call is [__init__] of a new
    Context in the unchanged world. *)
Theorem call_without_update_or_overwrite call_cb get_grouping str_seq w name options ev
    timer_rst :
  registry_ok w ->
  (forall m, ev = Some m -> get_grouping m = None \/ get_grouping m = Some EmptyString) ->
  Context_call call_cb get_grouping str_seq name options false false ev timer_rst w
    = match first_intersecting w ev (bucket w (getName name)) with
      | Some ctx => Ok ctx (widen_found w ev (Some ctx))
      | None => Context___init__ name options ev w
      end.
Proof.
  intros Hok Hg.
  rewrite (Context_call_ungrouped _ _ _ _ _ _ _ _ _ Hg). unfold call_under. cbn [orb negb].
  rewrite (bind_Ok _ _ _ _ _ (search_event w name ev true Hok)).
  destruct (first_intersecting w ev (bucket w (getName name))); reflexivity.
Qed.

Lemma call_without_update_or_overwrite_witness :
  registry_ok (two_windows_expire 5 (0, 10) (50, 60)) /\
  new_context (NameStr "n") (expire_only 7) false false (Some (msg_at 48)) false
    (two_windows_expire 5 (0, 10) (50, 60))
  = Ok 1%nat (widen_found (two_windows_expire 5 (0, 10) (50, 60)) (Some (msg_at 48))
                (Some 1%nat)) /\
  window (widen_found (two_windows_expire 5 (0, 10) (50, 60)) (Some (msg_at 48))
            (Some 1%nat)) 1%nat = Some (43, 60).
Proof.
  assert (Hok : registry_ok (two_windows_expire 5 (0, 10) (50, 60)))
    by apply registry_ok_two_windows.
  split; [exact Hok|]. split; [|vm_compute; reflexivity].
  exact (call_without_update_or_overwrite sample_cb (fun _ => None) (fun _ => EmptyString)
           (two_windows_expire 5 (0, 10) (50, 60)) (NameStr "n") (expire_only 7)
           (Some (msg_at 48)) false Hok (fun m _ => or_introl eq_refl)).
Defined.

(** [destroy] of a registered Context, on a registry in order. *)
Lemma Context_destroy_registered w self c :
  registry_ok w ->
  lookup_context w self = Some c ->
  self ∈ bucket w (_name c) ->
  exists w',
    Context_destroy self w = Ok tt w' /\
    registry_ok w' /\
    (forall n l, _CONTEXT_TABLE w' !! n = Some l -> self ∉ l) /\
    next_id w' = next_id w /\
    (fresh_ids w -> fresh_ids w') /\
    trace w' = trace w.
Proof.
  intros Hok Hc Hin.
  destruct (registered_context w self c Hok Hc Hin) as (t & l & Hh & Ht & Hl & Hnd).
  destruct (list_remove_elem self l Hl) as [l' Hr].
  rewrite (Context_destroy_Some w self t c l l' Hh Ht Hr).
  destruct (registry_ok_without w self t c
              (mkTimer None (_timer_expire t) (_timer_cb t)) l l' Hok Hh Ht Hr)
    as [Hok' Hgone].
  eexists. split; [reflexivity|]. split; [exact Hok'|]. split; [exact Hgone|].
  split; [reflexivity|]. split; [|reflexivity].
  intros Hf x Hx. change (heap (set_CONTEXT_TABLE ?tb ?w0)) with (heap w0).
  assert (Hn : heap w !! x = None) by exact (Hf x Hx).
  assert (Hne : self <> x) by (intros E; rewrite E in Hh; rewrite Hh in Hn; discriminate).
  rewrite heap_store_ne by exact Hne. exact Hn.
Qed.

(** X20. With [overwrite=True] and no [update], on a registry in order
    where no object is allocated at [next_id] or beyond, a call that finds a
    Context of the name whose window passes the test against the event
    destroys it, so that it is in no bucket any more, and then returns a
    newly allocated Context from [__init__], registered under the name;
    the registry is in order afterwards. *)
Theorem call_overwrite_replaces_found call_cb get_grouping str_seq w name options ev
    timer_rst ctx :
  registry_ok w ->
  fresh_ids w ->
  (forall m, ev = Some m -> get_grouping m = None \/ get_grouping m = Some EmptyString) ->
  first_intersecting w ev (bucket w (getName name)) = Some ctx ->
  exists w1 w',
    Context_destroy ctx w = Ok tt w1 /\
    (forall n l, _CONTEXT_TABLE w1 !! n = Some l -> ctx ∉ l) /\
    Context___init__ name options ev w1 = Ok (next_id w) w' /\
    Context_call call_cb get_grouping str_seq name options true false ev timer_rst w
      = Ok (next_id w) w' /\
    registry_ok w' /\
    (next_id w ∈ bucket w' (getName name)) /\
    ctx <> next_id w.
Proof.
  intros Hok Hfr Hg Hf.
  pose proof Hf as Hfind. apply find_some in Hfind as [Hin _].
  apply list_elem_of_In in Hin.
  destruct (registry_ok_bucket w _ ctx Hok Hin) as (c & Hc & Hname).
  rewrite <- Hname in Hin.
  destruct (Context_destroy_registered w ctx c Hok Hc Hin)
    as (w1 & Hd & Hok1 & Hgone & Hid & Hfr1 & _).
  destruct (Context___init___total name options ev w1 Hok1 (Hfr1 Hfr))
    as (w' & Hi & Hok' & _ & Hin' & _).
  rewrite Hid in Hi, Hin'.
  exists w1, w'. split; [exact Hd|]. split; [exact Hgone|]. split; [exact Hi|].
  split; [|split; [exact Hok'|split; [exact Hin'|]]].
  - rewrite (Context_call_ungrouped _ _ _ _ _ _ _ _ _ Hg). unfold call_under.
    cbn [orb negb].
    rewrite (bind_Ok _ _ _ _ _ (search_event w name ev false Hok)), Hf.
    rewrite (bind_Ok _ _ _ _ _ Hd). exact Hi.
  - intros ->. unfold lookup_context in Hc.
    rewrite (Hfr _ (Nat.le_refl _)) in Hc. discriminate.
Qed.

Lemma fresh_ids_two_windows e a b : fresh_ids (two_windows_expire e a b).
Proof.
  intros x Hx. cbn [next_id two_windows_expire heap] in *.
  rewrite !lookup_insert_ne by lia. apply lookup_empty.
Qed.

(** Windows [0, 10] and [50, 60] with [expire = 5], and an event at time
    48: the second Context is destroyed and object 2 is returned. *)
Lemma call_overwrite_replaces_found_witness :
  (registry_ok (two_windows_expire 5 (0, 10) (50, 60)) /\
   fresh_ids (two_windows_expire 5 (0, 10) (50, 60))) /\
  exists w1 w',
    Context_destroy 1%nat (two_windows_expire 5 (0, 10) (50, 60)) = Ok tt w1 /\
    new_context (NameStr "n") (expire_only 5) true false (Some (msg_at 48)) false
      (two_windows_expire 5 (0, 10) (50, 60)) = Ok 2%nat w' /\
    registry_ok w'.
Proof.
  assert (Hok : registry_ok (two_windows_expire 5 (0, 10) (50, 60)))
    by apply registry_ok_two_windows.
  assert (Hfr : fresh_ids (two_windows_expire 5 (0, 10) (50, 60)))
    by apply fresh_ids_two_windows.
  split; [split; [exact Hok|exact Hfr]|].
  destruct (call_overwrite_replaces_found sample_cb (fun _ => None) (fun _ => EmptyString)
              (two_windows_expire 5 (0, 10) (50, 60)) (NameStr "n") (expire_only 5)
              (Some (msg_at 48)) false 1%nat Hok Hfr
              (fun m _ => or_introl eq_refl) eq_refl)
    as (w1 & w' & Hd & _ & _ & Hcall & Hok' & _).
  exists w1, w'. split; [exact Hd|]. split; [exact Hcall|exact Hok'].
Defined.

(** ** The name __new__ searches under *)

Lemma escape_app s1 s2 : escape (s1 +:+ s2) = escape s1 +:+ escape s2.
Proof.
  induction s1 as [|c s1 IH]; [reflexivity|].
  rewrite append_String. cbn [escape]. rewrite IH.
  destruct (Ascii.eqb c "_"%char); rewrite !append_String; reflexivity.
Qed.

Lemma append_same_prefix s x : s +:+ x = s -> x = EmptyString.
Proof.
  induction s as [|c s IH]; [intros H; exact H|].
  rewrite append_String. intros [= H]. exact (IH H).
Qed.

Lemma grouped_name_differs s v :
  getName (NameStr (s +:+ "_" +:+ v)) <> getName (NameStr s).
Proof.
  cbn [getName]. rewrite escape_app. intros H.
  apply append_same_prefix in H. rewrite escape_app in H. discriminate.
Qed.

(** X21. The grouping of [__new__] never reaches [__init__]. For a
    call with a string as name and an event with a grouping value that is
    not empty, [__new__] searches the bucket of the name joined with that
    value, which is never the bucket of the name of the call. On a
    registry in order, with no object allocated at [next_id] or beyond,
    where that bucket is empty, the call, whatever [update] and
    [overwrite] are, returns a newly
    allocated Context that [__init__] registers under the name of the
    call without the value, and the bucket searched is empty afterwards
    as it was before: the same call again finds nothing there again. *)
Theorem call_with_grouping_registers_ungrouped call_cb get_grouping str_seq w s options
    overwrite update m v timer_rst :
  registry_ok w ->
  fresh_ids w ->
  get_grouping m = Some v ->
  v <> EmptyString ->
  bucket w (getName (NameStr (s +:+ "_" +:+ v))) = [] ->
  getName (NameStr (s +:+ "_" +:+ v)) <> getName (NameStr s) /\
  exists w',
    Context_call call_cb get_grouping str_seq (NameStr s) options overwrite update
                 (Some m) timer_rst w = Ok (next_id w) w' /\
    registry_ok w' /\
    fresh_ids w' /\
    (next_id w ∈ bucket w' (getName (NameStr s))) /\
    bucket w' (getName (NameStr (s +:+ "_" +:+ v))) = [].
Proof.
  intros Hok Hfr Hg Hv Hb.
  pose proof (grouped_name_differs s v) as Hne.
  split; [exact Hne|].
  destruct (Context___init___total (NameStr s) options (Some m) w Hok Hfr)
    as (w' & Hi & Hok' & Hfr' & Hin' & _ & Hoth).
  exists w'. split; [|split; [exact Hok'|split; [exact Hfr'|split; [exact Hin'|]]]].
  - rewrite (Context_call_grouped _ _ _ _ _ _ _ _ _ _ Hg Hv). unfold call_under.
    destruct (update || negb overwrite).
    + rewrite (bind_Ok _ _ _ _ _ (search_event w _ (Some m) true Hok)), Hb. exact Hi.
    + rewrite (bind_Ok _ _ _ _ _ (search_event w _ (Some m) false Hok)), Hb. exact Hi.
  - unfold bucket. rewrite (Hoth _ Hne). exact Hb.
Qed.

(** On the empty registry, with grouping value "g": the Context is
    registered under "n" and the bucket of "n\_g" stays empty. *)
Lemma call_with_grouping_registers_ungrouped_witness :
  (registry_ok initial_world /\ fresh_ids initial_world) /\
  exists w',
    Context_call sample_cb (fun _ => Some "g") (fun _ => EmptyString) (NameStr "n")
      (expire_only 5) true true (Some (msg_at 48)) false initial_world = Ok 0%nat w' /\
    (0%nat ∈ bucket w' "n") /\
    bucket w' (getName (NameStr "n_g")) = [].
Proof.
  assert (Hok : registry_ok initial_world).
  { intros n l Hl. cbn in Hl. rewrite lookup_empty in Hl. discriminate. }
  assert (Hfr : fresh_ids initial_world) by (intros x _; apply lookup_empty).
  split; [split; [exact Hok|exact Hfr]|].
  assert (Hv : "g" <> EmptyString) by discriminate.
  destruct (call_with_grouping_registers_ungrouped sample_cb (fun _ => Some "g")
              (fun _ => EmptyString) initial_world "n" (expire_only 5) true true
              (msg_at 48) "g" false Hok Hfr eq_refl Hv eq_refl)
    as (_ & w' & Hcall & _ & _ & Hin & Hb).
  exists w'. split; [exact Hcall|]. split; [exact Hin|exact Hb].
Defined.

(** X22. [__init__] keeps the registry in order. On a registry in
    order where no object is allocated at [next_id] or beyond, whatever
    the name, the options and the event, [__init__] returns the newly
    allocated object, registered in the bucket of its name as a Context
    of that name; the registry is in order again, no object is allocated
    beyond the new [next_id], and the buckets of other names are as they
    were. *)
Theorem init_keeps_registry name options ev w :
  registry_ok w ->
  fresh_ids w ->
  exists w' c,
    Context___init__ name options ev w = Ok (next_id w) w' /\
    registry_ok w' /\
    fresh_ids w' /\
    next_id w' = S (next_id w) /\
    (next_id w ∈ bucket w' (getName name)) /\
    lookup_context w' (next_id w) = Some c /\ _name c = getName name /\
    (forall n, n <> getName name -> bucket w' n = bucket w n).
Proof.
  intros Hok Hfr.
  destruct (Context___init___total name options ev w Hok Hfr)
    as (w' & Hi & Hok' & Hfr' & Hin' & Hid & Hoth).
  destruct (registry_ok_bucket w' _ _ Hok' Hin') as (c & Hc & Hn).
  exists w', c. split; [exact Hi|]. split; [exact Hok'|]. split; [exact Hfr'|].
  split; [exact Hid|]. split; [exact Hin'|]. split; [exact Hc|]. split; [exact Hn|].
  intros n Hne. unfold bucket. rewrite (Hoth n Hne). reflexivity.
Qed.

(** Windows [0, 10] and [5, 20], and a new Context at time 8 with
    [expire = 5]: its window [3, 13] passes the test and a merge happens,
    the registry still being in order. *)
Lemma init_keeps_registry_witness :
  (registry_ok (two_windows (0, 10) (5, 20)) /\ fresh_ids (two_windows (0, 10) (5, 20))) /\
  exists w',
    Context___init__ (NameStr "n") (expire_only 5) (Some (msg_at 8))
      (two_windows (0, 10) (5, 20)) = Ok 2%nat w' /\
    registry_ok w' /\ next_id w' = 3%nat.
Proof.
  assert (Hok : registry_ok (two_windows (0, 10) (5, 20)))
    by apply registry_ok_two_windows.
  assert (Hfr : fresh_ids (two_windows (0, 10) (5, 20)))
    by apply fresh_ids_two_windows.
  split; [split; [exact Hok|exact Hfr]|].
  destruct (init_keeps_registry (NameStr "n") (expire_only 5) (Some (msg_at 8))
              (two_windows (0, 10) (5, 20)) Hok Hfr)
    as (w' & c & Hi & Hok' & _ & Hid & _).
  exists w'. split; [exact Hi|]. split; [exact Hok'|exact Hid].
Defined.
